(** * Equipment tracker: the record store of [equipment_tracker_enhanced.c]

    A shallow embedding of the store operations of the tactical supply
    tracker (the global arrays [inventory] and [requests], the name index
    [hash_table], the two ID counters and the file snapshot), followed by
    the properties of the specification that were checked against it.

    Conventions of the embedding:
    - a C [int] is a [Z]; additions that the program performs on [int]
      go through [int_add], which wraps to 32 bits (two's complement);
      [unsigned int] arithmetic of the hash wraps modulo 2^32;
    - a [char] array is a [string]; every reader stops at the first NUL
      ([c_chars]), as the C string functions do;
    - the global arrays are lists of their fixed length, updated by
      index; the stored records are the first [item_count]
      (resp. [request_count]) slots;
    - a [HashNode] pointer into [inventory] is the index of the slot;
    - prompts are inputs of the operation, already validated by
      [get_int_input]; the clock and the database replies are inputs
      too; the banner, the log file and the audit table are outputs
      that never feed back into the store and are left out. *)

From Stdlib Require Import ZArith Ascii String DecimalString Sorted Lia.
From stdpp Require Import base list.

Local Open Scope Z_scope.

(** ** Machine integers and characters *)

Definition INT_MAX : Z := 2147483647.
Definition INT_MIN : Z := -2147483648.
Definition UINT_MOD : Z := 4294967296.

Definition in_int_range (z : Z) : bool := (INT_MIN <=? z) && (z <=? INT_MAX).

(** Two's complement wrap-around of a mathematical integer into [int]. *)
Definition wrap_int (z : Z) : Z := (z - INT_MIN) mod UINT_MOD + INT_MIN.

Definition int_add (a b : Z) : Z := wrap_int (a + b).

(** [unsigned int] operations of [hash_function]. *)
Definition uint_of_int (z : Z) : Z := z mod UINT_MOD.
Definition uint_add (a b : Z) : Z := (a + b) mod UINT_MOD.
Definition uint_shl (a : Z) (k : Z) : Z := (Z.shiftl a k) mod UINT_MOD.

(** The code of a character, between 0 and 255. *)
Definition char_code (c : ascii) : Z := Z.of_N (N_of_ascii c).

(** The value of a plain [char] promoted to [int]. Plain [char] is signed
    on the x86-64 Linux target of the program; the two readings agree on
    the ASCII range. *)
Definition char_to_int (c : ascii) : Z :=
  if char_code c <? 128 then char_code c else char_code c - 256.

Definition is_ascii (c : ascii) : bool := char_code c <? 128.

(** The characters of a C string: up to the first NUL, or to the end of
    the array contents. *)
Fixpoint c_chars (s : string) : list ascii :=
  match s with
  | EmptyString => []
  | String c s' => if Ascii.eqb c Ascii.zero then [] else c :: c_chars s'
  end.

(** [tolower] in the "C" locale (the program never calls [setlocale]). *)
Definition tolower (c : ascii) : ascii :=
  let n := N_of_ascii c in
  if (65 <=? n)%N && (n <=? 90)%N then ascii_of_N (n + 32) else c.

(** Case-insensitive match of the whole [needle] at the head of [hay]. *)
Fixpoint ci_prefix (needle hay : list ascii) : bool :=
  match needle, hay with
  | [], _ => true
  | _ :: _, [] => false
  | a :: needle', b :: hay' =>
      Ascii.eqb (tolower a) (tolower b) && ci_prefix needle' hay'
  end.

Fixpoint strcasestr_from (hay needle : list ascii) (off : nat) : option nat :=
  if ci_prefix needle hay then Some off
  else match hay with
       | [] => None
       | _ :: hay' => strcasestr_from hay' needle (S off)
       end.

(** [strcasestr(haystack, needle)]: the offset of the first
    case-insensitive occurrence ([haystack + off] in C), [None] for NULL. *)
Definition strcasestr (haystack needle : string) : option nat :=
  strcasestr_from (c_chars haystack) (c_chars needle) 0.

(** ** [sprintf("%04d", n)] *)

Definition decimal_digits (n : Z) : string :=
  NilZero.string_of_uint (N.to_uint (Z.to_N (Z.abs n))).

Fixpoint zeros (k : nat) : string :=
  match k with
  | O => EmptyString
  | S k' => String "0" (zeros k')
  end.

(** Width 4, zero padded; the sign of a negative number counts in the
    width and comes before the padding. *)
Definition format_04d (n : Z) : string :=
  let d := decimal_digits n in
  if n <? 0
  then String "-" (zeros (3 - String.length d) ++ d)
  else (zeros (4 - String.length d) ++ d)%string.

Definition is_digit (c : ascii) : bool :=
  (48 <=? char_code c) && (char_code c <=? 57).

(** [atoi] on a checksum string: optional sign, then digits. *)
Fixpoint atoi_digits (s : string) (acc : Z) : Z :=
  match s with
  | EmptyString => acc
  | String c s' =>
      if is_digit c then atoi_digits s' (acc * 10 + (char_code c - 48))
      else acc
  end.

Definition atoi (s : string) : Z :=
  match s with
  | String "-" s' => - atoi_digits s' 0
  | _ => atoi_digits s 0
  end.

(** ** The records *)

Module Equipment.
Record t : Type := mk {
  id : Z;
  name : string;
  description : string;
  quantity : Z;
  min_threshold : Z;
  unit : string;
  location : string;
  last_updated : Z;
  classification : Z;
  checksum : string
}.

(** A slot of the zero-initialised global array. *)
Definition zero : t :=
  mk 0 EmptyString EmptyString 0 0 EmptyString EmptyString 0 0 EmptyString.

Definition set_id (v : Z) (e : t) : t :=
  mk v (name e) (description e) (quantity e) (min_threshold e)
     (unit e) (location e) (last_updated e) (classification e) (checksum e).
Definition set_quantity (v : Z) (e : t) : t :=
  mk (id e) (name e) (description e) v (min_threshold e)
     (unit e) (location e) (last_updated e) (classification e) (checksum e).
Definition set_last_updated (v : Z) (e : t) : t :=
  mk (id e) (name e) (description e) (quantity e) (min_threshold e)
     (unit e) (location e) v (classification e) (checksum e).
Definition set_checksum (v : string) (e : t) : t :=
  mk (id e) (name e) (description e) (quantity e) (min_threshold e)
     (unit e) (location e) (last_updated e) (classification e) v.
End Equipment.

Module SupplyRequest.
Record t : Type := mk {
  req_id : Z;
  equipment_id : Z;
  requested_qty : Z;
  requesting_unit : string;
  request_time : Z;
  status : Z;
  priority : Z
}.

Definition zero : t := mk 0 0 0 EmptyString 0 0 0.

Definition set_req_id (v : Z) (r : t) : t :=
  mk v (equipment_id r) (requested_qty r) (requesting_unit r)
     (request_time r) (status r) (priority r).
Definition set_equipment_id (v : Z) (r : t) : t :=
  mk (req_id r) v (requested_qty r) (requesting_unit r)
     (request_time r) (status r) (priority r).
End SupplyRequest.

(** The enumerations, with the values the C enums give them. *)
Inductive StockStatus : Type := STATUS_OK | STATUS_WATCH | STATUS_LOW.

Definition REQ_PENDING : Z := 0.
Definition REQ_APPROVED : Z := 1.
Definition REQ_FULFILLED : Z := 2.
Definition REQ_DENIED : Z := 3.

Definition MAX_ITEMS : Z := 1000.
Definition MAX_REQUESTS : Z := 500.
Definition HASH_SIZE : Z := 1009.

(** ** Derived fields *)

(** [(int)(t * 1.5)]. The product is exact in binary64: it is a multiple
    of 1/2 of magnitude below 2^33. The conversion truncates toward zero
    and is undefined when the truncated value does not fit an [int]:
    [None] stands for that case. *)
Definition int_of_times_1_5 (t : Z) : option Z :=
  let v := Z.quot (3 * t) 2 in
  if in_int_range v then Some v else None.

(** [get_stock_status]: the Low test comes first; the conversion is only
    evaluated when the Low test fails. *)
Definition get_stock_status (item : Equipment.t) : option StockStatus :=
  if Equipment.quantity item <=? Equipment.min_threshold item
  then Some STATUS_LOW
  else match int_of_times_1_5 (Equipment.min_threshold item) with
       | None => None
       | Some w =>
           if Equipment.quantity item <=? w then Some STATUS_WATCH
           else Some STATUS_OK
       end.

(** [calculate_checksum]: C's [%] truncates toward zero ([Z.rem]). *)
Definition calculate_checksum (item : Equipment.t) : Z :=
  let sum := int_add (int_add (Equipment.id item) (Equipment.quantity item))
                     (Equipment.min_threshold item) in
  let sum := fold_left (fun sum c => int_add sum (char_to_int c))
                       (c_chars (Equipment.name item)) sum in
  Z.rem sum 10000.

(** The tag written by [sprintf(item->checksum, "%04d",
    calculate_checksum(item))] in [add_equipment] and [update_quantity]. *)
Definition checksum_string (item : Equipment.t) : string :=
  format_04d (calculate_checksum item).

(** [hash_function]: djb2 over the bytes of the name, case-sensitive. *)
Definition hash_function (str : string) : Z :=
  let hash := fold_left
                (fun hash c =>
                   uint_add (uint_add (uint_shl hash 5) hash)
                            (uint_of_int (char_to_int c)))
                (c_chars str) 5381 in
  hash mod HASH_SIZE.

(** ** The store: the global variables of the program *)

Record Store : Type := mkStore {
  inventory : list Equipment.t;
  requests : list SupplyRequest.t;
  hash_table : list (list nat);
  item_count : Z;
  request_count : Z;
  next_item_id : Z;
  next_request_id : Z;
  use_database : bool
}.

(** The state at the start of [main], after [memset(hash_table, 0, ...)]
    and [connect_database]. *)
Definition init_store (db : bool) : Store :=
  mkStore (replicate (Z.to_nat MAX_ITEMS) Equipment.zero)
          (replicate (Z.to_nat MAX_REQUESTS) SupplyRequest.zero)
          (replicate (Z.to_nat HASH_SIZE) [])
          0 0 1 1 db.

(** The records the store holds: the first [item_count] slots of
    [inventory], the first [request_count] slots of [requests]. *)
Definition stored_items (s : Store) : list Equipment.t :=
  take (Z.to_nat (item_count s)) (inventory s).

Definition stored_requests (s : Store) : list SupplyRequest.t :=
  take (Z.to_nat (request_count s)) (requests s).

(** What an operation reports to the user. *)
Inductive Outcome : Type :=
  | Added (id : Z)
  | Updated
  | Requested (req_id : Z)
  | NotFound
  | CapacityExceeded.

(** ** The name index *)

(** [hash_insert(&inventory[slot])]: a new node at the head of the bucket
    of the slot's current name. *)
Definition hash_insert (inv : list Equipment.t) (table : list (list nat))
    (slot : nat) : list (list nat) :=
  match inv !! slot with
  | Some equipment =>
      let index := Z.to_nat (hash_function (Equipment.name equipment)) in
      alter (cons slot) index table
  | None => table
  end.

(** The [while (current)] loop of [hash_find] over one bucket. *)
Fixpoint bucket_find (inv : list Equipment.t) (name : string)
    (bucket : list nat) : option nat :=
  match bucket with
  | [] => None
  | slot :: next =>
      match inv !! slot with
      | Some equipment =>
          match strcasestr (Equipment.name equipment) name with
          | Some _ => Some slot
          | None => bucket_find inv name next
          end
      | None => bucket_find inv name next
      end
  end.

Definition hash_find (s : Store) (name : string) : option nat :=
  let index := Z.to_nat (hash_function name) in
  bucket_find (inventory s) name (default [] (hash_table s !! index)).

(** [find_by_id]: the first slot below [item_count] with that id. *)
Definition find_by_id (s : Store) (id : Z) : option nat :=
  fst <$> list_find (λ e, Equipment.id e = id) (stored_items s).

(** ** Operations *)

(** The answers to the prompts of [add_equipment]. *)
Record EquipmentDraft : Type := mkDraft {
  d_name : string;
  d_description : string;
  d_quantity : Z;
  d_min_threshold : Z;
  d_unit : string;
  d_location : string;
  d_classification : Z
}.

(** [add_equipment]. [now] is [time(NULL)]; [db_reply] is what
    [add_equipment_to_db] returns (0 when the insert fails), consulted in
    database mode only. *)
Definition add_equipment (s : Store) (d : EquipmentDraft) (now db_reply : Z)
    : Store * Outcome :=
  if item_count s >=? MAX_ITEMS then (s, CapacityExceeded)
  else
    let slot := Z.to_nat (item_count s) in
    let old := default Equipment.zero (inventory s !! slot) in
    let next1 := int_add (next_item_id s) 1 in
    let item :=
      Equipment.mk (next_item_id s) (d_name d) (d_description d)
        (d_quantity d) (d_min_threshold d) (d_unit d) (d_location d)
        now (d_classification d) (Equipment.checksum old) in
    let item := Equipment.set_checksum (checksum_string item) item in
    let '(item, next2) :=
      if use_database s then
        if db_reply >? 0
        then (Equipment.set_id db_reply item,
              if db_reply >=? next1 then int_add db_reply 1 else next1)
        else (item, next1)
      else (item, next1) in
    let inv := <[slot := item]> (inventory s) in
    (mkStore inv (requests s) (hash_insert inv (hash_table s) slot)
       (item_count s + 1) (request_count s)
       next2 (next_request_id s) (use_database s),
     Added (Equipment.id item)).

Definition name_matches (item_name : string) (e : Equipment.t) : Prop :=
  is_Some (strcasestr (Equipment.name e) item_name).

#[global] Instance name_matches_dec item_name e :
  Decision (name_matches item_name e).
Proof. unfold name_matches. apply _. Defined.

(** [check_inventory]: the records passed to [display_equipment_details],
    in display order. *)
Definition check_inventory (s : Store) (item_name : string)
    : list Equipment.t :=
  match hash_find s item_name with
  | Some slot => [default Equipment.zero (inventory s !! slot)]
  | None => filter (name_matches item_name) (stored_items s)
  end.

(** [update_quantity]. *)
Definition update_quantity (s : Store) (id new_quantity now : Z)
    : Store * Outcome :=
  match find_by_id s id with
  | None => (s, NotFound)
  | Some slot =>
      let item := default Equipment.zero (inventory s !! slot) in
      let item := Equipment.set_quantity new_quantity item in
      let item := Equipment.set_last_updated now item in
      let item := Equipment.set_checksum (checksum_string item) item in
      (mkStore (<[slot := item]> (inventory s)) (requests s) (hash_table s)
         (item_count s) (request_count s)
         (next_item_id s) (next_request_id s) (use_database s),
       Updated)
  end.

(** [request_supply]. The request id is taken from the counter and
    written to the free slot before the equipment id is looked up. *)
Definition request_supply (s : Store)
    (equipment_id requested_qty : Z) (requesting_unit : string)
    (priority now db_reply : Z) : Store * Outcome :=
  if request_count s >=? MAX_REQUESTS then (s, CapacityExceeded)
  else
    let slot := Z.to_nat (request_count s) in
    let req := default SupplyRequest.zero (requests s !! slot) in
    let req := SupplyRequest.set_req_id (next_request_id s) req in
    let next1 := int_add (next_request_id s) 1 in
    let req := SupplyRequest.set_equipment_id equipment_id req in
    match find_by_id s equipment_id with
    | None =>
        (mkStore (inventory s) (<[slot := req]> (requests s)) (hash_table s)
           (item_count s) (request_count s)
           (next_item_id s) next1 (use_database s),
         NotFound)
    | Some _ =>
        let req :=
          SupplyRequest.mk (SupplyRequest.req_id req) equipment_id
            requested_qty requesting_unit now REQ_PENDING priority in
        let '(req, next2) :=
          if use_database s then
            if db_reply >? 0
            then (SupplyRequest.set_req_id db_reply req,
                  if db_reply >=? next1 then int_add db_reply 1 else next1)
            else (req, next1)
          else (req, next1) in
        (mkStore (inventory s) (<[slot := req]> (requests s)) (hash_table s)
           (item_count s) (request_count s + 1)
           (next_item_id s) next2 (use_database s),
         Requested (SupplyRequest.req_id req))
    end.

(** ** Persistence *)

(** A snapshot file: [[int count][int nextId][count records]]. *)
Record Snapshot (A : Type) : Type := mkSnapshot {
  snap_count : Z;
  snap_next_id : Z;
  snap_records : list A
}.
Arguments mkSnapshot {A} _ _ _.
Arguments snap_count {A} _.
Arguments snap_next_id {A} _.
Arguments snap_records {A} _.

(** The two data files; [None] when [fopen(..., "rb")] fails. *)
Record Files : Type := mkFiles {
  data_file : option (Snapshot Equipment.t);
  request_file : option (Snapshot SupplyRequest.t)
}.

(** [fread(array, size, count, file)]: the records read overwrite the
    head of the array. (The truncation to the array length keeps the
    model total; the C program would write past the array.) *)
Definition fread_into {A : Type} (array : list A) (count : Z)
    (records : list A) : list A :=
  let got := take (Z.to_nat count) records in
  take (length array) (got ++ drop (length got) array).

(** The [for] loop of [load_data] that indexes the loaded slots. *)
Fixpoint hash_insert_range (inv : list Equipment.t)
    (table : list (list nat)) (i : nat) (n : nat) : list (list nat) :=
  match n with
  | O => table
  | S n' => hash_insert_range inv (hash_insert inv table i) (S i) n'
  end.

(** The row loop of [load_equipment_from_db]; a row is the record after
    the [atoi]/[strncpy] conversions. *)
Fixpoint load_equipment_rows (rows : list Equipment.t) (i : nat)
    (inv : list Equipment.t) (table : list (list nat)) (next : Z)
    : list Equipment.t * list (list nat) * Z :=
  match rows with
  | [] => (inv, table, next)
  | row :: rest =>
      let inv := <[i := row]> inv in
      let table := hash_insert inv table i in
      let next :=
        if Equipment.id row >=? next then int_add (Equipment.id row) 1
        else next in
      load_equipment_rows rest (S i) inv table next
  end.

(** [load_equipment_from_db]; [None] is a failed query. *)
Definition load_equipment_from_db (s : Store)
    (res : option (list Equipment.t)) : Store :=
  match res with
  | None => s
  | Some rows =>
      let count := Z.of_nat (length rows) in
      let count := if count >? MAX_ITEMS then MAX_ITEMS else count in
      let '(inv, table, next) :=
        load_equipment_rows (take (Z.to_nat count) rows) 0
          (inventory s) (hash_table s) (next_item_id s) in
      mkStore inv (requests s) table count (request_count s)
        next (next_request_id s) (use_database s)
  end.

Fixpoint load_request_rows (rows : list SupplyRequest.t) (i : nat)
    (reqs : list SupplyRequest.t) (next : Z)
    : list SupplyRequest.t * Z :=
  match rows with
  | [] => (reqs, next)
  | row :: rest =>
      let reqs := <[i := row]> reqs in
      let next :=
        if SupplyRequest.req_id row >=? next
        then int_add (SupplyRequest.req_id row) 1
        else next in
      load_request_rows rest (S i) reqs next
  end.

Definition load_requests_from_db (s : Store)
    (res : option (list SupplyRequest.t)) : Store :=
  match res with
  | None => s
  | Some rows =>
      let count := Z.of_nat (length rows) in
      let count := if count >? MAX_REQUESTS then MAX_REQUESTS else count in
      let '(reqs, next) :=
        load_request_rows (take (Z.to_nat count) rows) 0
          (requests s) (next_request_id s) in
      mkStore (inventory s) reqs (hash_table s) (item_count s) count
        (next_item_id s) next (use_database s)
  end.

(** The file branch of [load_data], one file at a time. *)
Definition load_data_file (s : Store)
    (file : option (Snapshot Equipment.t)) : Store :=
  match file with
  | None => s
  | Some f =>
      let inv := fread_into (inventory s) (snap_count f) (snap_records f) in
      mkStore inv (requests s)
        (hash_insert_range inv (hash_table s) 0 (Z.to_nat (snap_count f)))
        (snap_count f) (request_count s)
        (snap_next_id f) (next_request_id s) (use_database s)
  end.

Definition load_request_file (s : Store)
    (file : option (Snapshot SupplyRequest.t)) : Store :=
  match file with
  | None => s
  | Some f =>
      mkStore (inventory s)
        (fread_into (requests s) (snap_count f) (snap_records f))
        (hash_table s) (item_count s) (snap_count f)
        (next_item_id s) (snap_next_id f) (use_database s)
  end.

(** [load_data]. [db_items] and [db_requests] are the results of the two
    SELECT queries, read in database mode only. *)
Definition load_data (s : Store) (fs : Files)
    (db_items : option (list Equipment.t))
    (db_requests : option (list SupplyRequest.t)) : Store :=
  if use_database s
  then load_requests_from_db (load_equipment_from_db s db_items) db_requests
  else load_request_file (load_data_file s (data_file fs)) (request_file fs).

(** [save_data]. [open_data] and [open_requests] tell whether the two
    [fopen(..., "wb")] calls succeed. *)
Definition save_data (s : Store) (fs : Files)
    (open_data open_requests : bool) : Files :=
  if negb (use_database s) then
    let data :=
      if open_data
      then Some (mkSnapshot (item_count s) (next_item_id s) (stored_items s))
      else data_file fs in
    let reqs :=
      if open_requests
      then Some (mkSnapshot (request_count s) (next_request_id s)
                            (stored_requests s))
      else request_file fs in
    mkFiles data reqs
  else fs.

(** ** Sessions: the menu loop of [main] *)

Inductive Command : Type :=
  | CmdAdd (d : EquipmentDraft) (now db_reply : Z)
  | CmdCheck (item_name : string)
  | CmdList
  | CmdUpdate (id new_quantity now : Z)
  | CmdRequest (equipment_id requested_qty : Z) (requesting_unit : string)
               (priority now db_reply : Z)
  | CmdCheckRequests
  | CmdLowStock
  | CmdExport.

(** One turn of the [switch] in [main]; the read-only commands leave the
    store as it is. *)
Definition step (s : Store) (c : Command) : Store :=
  match c with
  | CmdAdd d now db_reply => fst (add_equipment s d now db_reply)
  | CmdUpdate id q now => fst (update_quantity s id q now)
  | CmdRequest e q u p now db_reply =>
      fst (request_supply s e q u p now db_reply)
  | CmdCheck _ | CmdList | CmdCheckRequests | CmdLowStock | CmdExport => s
  end.

Definition run (s : Store) (cs : list Command) : Store :=
  fold_left step cs s.

(** A run of [add_equipment] calls, with the ids it reports. *)
Fixpoint add_all (s : Store) (inputs : list (EquipmentDraft * Z * Z))
    : Store * list Z :=
  match inputs with
  | [] => (s, [])
  | (d, now, db_reply) :: rest =>
      let '(s1, out) := add_equipment s d now db_reply in
      let '(s2, ids) := add_all s1 rest in
      (s2, match out with Added id => id :: ids | _ => ids end)
  end.

(** ** Definitions used to state the properties *)

(** The sum of the character codes of a name. *)
Definition sum_codes (s : string) : Z :=
  foldr (λ c acc, char_code c + acc) 0 (c_chars s).

Definition ascii_name (s : string) : Prop :=
  Forall (λ c, is_ascii c = true) (c_chars s).

Fixpoint all_digits (s : string) : bool :=
  match s with
  | EmptyString => true
  | String c s' => is_digit c && all_digits s'
  end.

(** A string of exactly four decimal digits. *)
Definition four_digits (s : string) : bool :=
  (String.length s =? 4)%nat && all_digits s.

(** The stock status as the specification words it:
    Low when [quantity <= minThreshold], Watch when
    [quantity <= floor(minThreshold * 1.5)], otherwise OK. *)
Definition stockStatus (quantity minThreshold : Z) : StockStatus :=
  if quantity <=? minThreshold then STATUS_LOW
  else if quantity <=? (3 * minThreshold) / 2 then STATUS_WATCH
  else STATUS_OK.

(** The arrays have their declared sizes and the counts index them. *)
Record well_formed (s : Store) : Prop := {
  wf_inventory : length (inventory s) = Z.to_nat MAX_ITEMS;
  wf_requests : length (requests s) = Z.to_nat MAX_REQUESTS;
  wf_item_count : 0 <= item_count s <= MAX_ITEMS;
  wf_request_count : 0 <= request_count s <= MAX_REQUESTS
}.

Definition stored_ids (s : Store) : list Z :=
  Equipment.id <$> stored_items s.

(** All ids held in the store are distinct and below the counter. *)
Definition id_invariant (s : Store) : Prop :=
  NoDup (stored_ids s) ∧ Forall (λ i, i < next_item_id s) (stored_ids s).

(** The condition under which one [add_equipment] call keeps the ids in
    order: the counter can still be incremented, and in database mode
    the insert fails or returns an id that is not below the counter. *)
Definition id_step_ok (s : Store) (db_reply : Z) : Prop :=
  INT_MIN <= next_item_id s < INT_MAX
  ∧ (use_database s = true →
     db_reply <= 0 ∨ next_item_id s <= db_reply < INT_MAX).

Fixpoint ids_ok (s : Store) (inputs : list (EquipmentDraft * Z * Z)) : Prop :=
  match inputs with
  | [] => True
  | (d, now, db_reply) :: rest =>
      id_step_ok s db_reply ∧ ids_ok (fst (add_equipment s d now db_reply)) rest
  end.


(** Every node of the name index points at a stored record. *)
Definition index_consistent (s : Store) : Prop :=
  ∀ bucket slot, bucket ∈ hash_table s → slot ∈ bucket →
                 (slot < Z.to_nat (item_count s))%nat.

(** [format_04d] gives four digits that read back as the number. *)
Definition format_ok (n : Z) : bool :=
  four_digits (format_04d n) && (atoi (format_04d n) =? n).


(** ** Stores and files used in the examples *)

Definition radio : EquipmentDraft := mkDraft "Radio" "" 10 5 "ea" "A" 0.
Definition radio_set : EquipmentDraft := mkDraft "Radio Set" "" 10 5 "ea" "A" 0.

Definition two_radios : Store :=
  fst (add_equipment (fst (add_equipment (init_store false) radio 100 0))
         radio_set 101 0).

Definition one_radio : Store :=
  fst (add_equipment (init_store false) radio 100 0).



(** ** Terminal input *)

Definition newline : ascii := "010"%char.

(** The characters [fgets] stores when it has room for [room] more:
    it stops after a newline, at the end of the input, or when the room
    is used up; what it did not read stays in the stream. *)
Fixpoint fgets_chars (room : nat) (input : list ascii)
    : list ascii * list ascii :=
  match room, input with
  | O, _ => ([], input)
  | _, [] => ([], [])
  | S room', c :: rest =>
      if Ascii.eqb c newline then ([c], rest)
      else let '(line, rest') := fgets_chars room' rest in (c :: line, rest')
  end.

(** [fgets(buffer, n, stream)], [n] an [int]; [None] is the NULL it
    returns, in which case the buffer is left as it was. With [n <= 0]
    it returns NULL at once. With [n = 1] there is room for the
    terminating NUL only: glibc stores it and returns the buffer without
    reading. Otherwise it reads up to [n - 1] characters, and returns
    NULL when the input has ended before the first one. *)
Definition fgets (n : Z) (input : list ascii)
    : option (list ascii * list ascii) :=
  if n <=? 0 then None
  else if n =? 1 then Some ([], input)
  else match input with
       | [] => None
       | _ => Some (fgets_chars (Z.to_nat (n - 1)) input)
       end.

(** [buffer[strcspn(buffer, "\n")] = 0]: the C string that is left, up
    to the first newline. *)
Fixpoint strcspn_cut (line : list ascii) : list ascii :=
  match line with
  | [] => []
  | c :: rest =>
      if Ascii.eqb c Ascii.zero || Ascii.eqb c newline then []
      else c :: strcspn_cut rest
  end.

(** [get_string_input]: the new buffer contents and the rest of the
    input; when [fgets] returns NULL the buffer keeps what it held.
    [buffer_size] is a [size_t]; passing it to [fgets] converts it to
    [int] (reduced modulo 2^32 on the target). *)
Definition get_string_input (buffer : string) (buffer_size : Z)
    (input : list ascii) : string * list ascii :=
  match fgets (wrap_int buffer_size) input with
  | Some (line, rest) => (string_of_list_ascii (strcspn_cut line), rest)
  | None => (buffer, input)
  end.

(** One round of the loop of [get_int_input]: what [scanf("%d")] makes of
    the next line, the rest of which is discarded. *)
Inductive Attempt : Type :=
  | Parsed (v : Z)
  | Mismatch.

(** [get_int_input]. [value] is the content of the local variable, which
    is not initialised before the loop: after a mismatch, [continue]
    goes to the loop condition, which tests it as it is. [None]: the
    input ends and the loop that discards the line never returns. *)
Fixpoint get_int_input (min_val max_val : Z) (value : Z)
    (attempts : list Attempt) : option (Z * list Attempt) :=
  match attempts with
  | [] => None
  | Mismatch :: rest =>
      if (value <? min_val) || (value >? max_val)
      then get_int_input min_val max_val value rest
      else Some (value, rest)
  | Parsed v :: rest =>
      if (v <? min_val) || (v >? max_val)
      then get_int_input min_val max_val v rest
      else Some (v, rest)
  end.

(** ** Database configuration and start-up *)

Record DBConfig : Type := mkDBConfig {
  host : string;
  port : string;
  dbname : string;
  user : string;
  password : string
}.

(** The zero-initialised global [db_config]. *)
Definition db_config_zero : DBConfig :=
  mkDBConfig EmptyString EmptyString EmptyString EmptyString EmptyString.

(** [strncmp(line, key, strlen(key)) == 0]. *)
Fixpoint has_key (key line : list ascii) : bool :=
  match key, line with
  | [], _ => true
  | _ :: _, [] => false
  | k :: key', c :: line' => Ascii.eqb k c && has_key key' line'
  end.

(** [strncpy(field, line + skip, size - 1)] into a field whose last byte
    is never written and stays NUL: the field then holds the first
    [size - 1] characters of the value. *)
Definition strncpy_field (size skip : nat) (line : list ascii) : string :=
  string_of_list_ascii (take (size - 1) (drop skip line)).

(** The [if]/[else if] chain on one line of the configuration file. *)
Definition config_line (line : list ascii) (cfg : DBConfig) : DBConfig :=
  if has_key (list_ascii_of_string "host=") line then
    mkDBConfig (strncpy_field 64 5 line) (port cfg) (dbname cfg)
               (user cfg) (password cfg)
  else if has_key (list_ascii_of_string "port=") line then
    mkDBConfig (host cfg) (strncpy_field 8 5 line) (dbname cfg)
               (user cfg) (password cfg)
  else if has_key (list_ascii_of_string "dbname=") line then
    mkDBConfig (host cfg) (port cfg) (strncpy_field 64 7 line)
               (user cfg) (password cfg)
  else if has_key (list_ascii_of_string "user=") line then
    mkDBConfig (host cfg) (port cfg) (dbname cfg)
               (strncpy_field 64 5 line) (password cfg)
  else if has_key (list_ascii_of_string "password=") line then
    mkDBConfig (host cfg) (port cfg) (dbname cfg) (user cfg)
               (strncpy_field 128 9 line)
  else cfg.

(** The [while (fgets(line, sizeof(line), config))] loop. Every round
    consumes at least one character, so [fuel] rounds are enough for an
    input of [fuel] characters. *)
Fixpoint read_config (fuel : nat) (input : list ascii) (cfg : DBConfig)
    : DBConfig :=
  match fuel with
  | O => cfg
  | S fuel' =>
      match fgets 256 input with
      | None => cfg
      | Some (line, rest) =>
          read_config fuel' rest (config_line (strcspn_cut line) cfg)
      end
  end.

(** [load_db_config]; [None] is a configuration file that cannot be
    opened. *)
Definition load_db_config (file : option (list ascii)) (cfg : DBConfig)
    : bool * DBConfig :=
  match file with
  | None => (false, cfg)
  | Some input => (true, read_config (length input) input cfg)
  end.

(** The text [snprintf] is asked to write in [connect_database]. *)
Definition conninfo_text (cfg : DBConfig) : list ascii :=
  list_ascii_of_string "host=" ++ c_chars (host cfg)
  ++ list_ascii_of_string " port=" ++ c_chars (port cfg)
  ++ list_ascii_of_string " dbname=" ++ c_chars (dbname cfg)
  ++ list_ascii_of_string " user=" ++ c_chars (user cfg)
  ++ list_ascii_of_string " password=" ++ c_chars (password cfg).

(** [snprintf(buffer, size, ...)]: at most [size - 1] characters. *)
Definition snprintf (size : nat) (text : list ascii) : list ascii :=
  take (size - 1) text.

(** [connect_database]. [pq_connect] tells whether the server accepts a
    connection string ([PQstatus(PQconnectdb(conninfo))] is
    [CONNECTION_OK]). *)
Definition connect_database (file : option (list ascii))
    (pq_connect : list ascii → bool) (cfg : DBConfig) : bool * DBConfig :=
  match load_db_config file cfg with
  | (false, cfg') => (false, cfg')
  | (true, cfg') => (pq_connect (snprintf 512 (conninfo_text cfg')), cfg')
  end.

(** The start of [main]: connect, then load. *)
Definition startup (file : option (list ascii))
    (pq_connect : list ascii → bool) (fs : Files)
    (db_items : option (list Equipment.t))
    (db_requests : option (list SupplyRequest.t)) : Store :=
  load_data
    (init_store (fst (connect_database file pq_connect db_config_zero)))
    fs db_items db_requests.

(** ** Reports *)

Definition CLASS_NAMES : list string :=
  ["UNCLASSIFIED"; "RESTRICTED"; "CONFIDENTIAL"; "SECRET"]%string.
Definition STATUS_NAMES : list string :=
  ["PENDING"; "APPROVED"; "FULFILLED"; "DENIED"]%string.
Definition PRIORITY_NAMES : list string :=
  [""; "LOW"; "NORMAL"; "HIGH"; "CRITICAL"]%string.

(** [get_stock_status(item) == STATUS_LOW]. *)
Definition is_low (e : Equipment.t) : bool :=
  match get_stock_status e with
  | Some STATUS_LOW => true
  | _ => false
  end.

(** [low_stock_alert]: the records listed, in order; [alerts] is their
    number. *)
Definition low_stock_alert (s : Store) : list Equipment.t :=
  filter (λ e, Is_true (is_low e)) (stored_items s).

(** The counting loop of [export_report]. *)
Definition export_low_stock (s : Store) : Z :=
  fold_left (λ low_stock e, if is_low e then low_stock + 1 else low_stock)
            (stored_items s) 0.

(** One line of the table of [check_requests]. *)
Record RequestRow : Type := mkRequestRow {
  row_req_id : Z;
  row_equipment_id : Z;
  row_unit : string;
  row_qty : Z;
  row_priority : string;
  row_status : string
}.

(** A table entry indexed by an [int]; [None] when the index is outside
    the table. *)
Definition table_name (table : list string) (index : Z) : option string :=
  if index <? 0 then None else table !! Z.to_nat index.

Definition request_row (req : SupplyRequest.t) : option RequestRow :=
  match table_name PRIORITY_NAMES (SupplyRequest.priority req),
        table_name STATUS_NAMES (SupplyRequest.status req) with
  | Some priority, Some status =>
      Some (mkRequestRow (SupplyRequest.req_id req)
              (SupplyRequest.equipment_id req)
              (SupplyRequest.requesting_unit req)
              (SupplyRequest.requested_qty req) priority status)
  | _, _ => None
  end.

(** [check_requests]: the rows printed; [None] when a priority or a
    status indexes outside its name table. *)
Definition check_requests (s : Store) : option (list RequestRow) :=
  mapM request_row (stored_requests s).

(** ** Conditions on the inputs of a session *)

(** The ranges that the prompts of the three mutating commands pass to
    [get_int_input]. *)
Definition command_valid (c : Command) : Prop :=
  match c with
  | CmdAdd d _ _ =>
      0 <= d_quantity d <= 999999
      ∧ 0 <= d_min_threshold d <= 999999
      ∧ 0 <= d_classification d <= 3
  | CmdUpdate id q _ => 1 <= id <= 999999 ∧ 0 <= q <= 999999
  | CmdRequest e q _ p _ _ =>
      1 <= e <= 999999 ∧ 1 <= q <= 999999 ∧ 1 <= p <= 4
  | _ => True
  end.

(** A command with the database reply blanked. *)
Definition without_db_reply (c : Command) : Command :=
  match c with
  | CmdAdd d now _ => CmdAdd d now 0
  | CmdRequest e q u p now _ => CmdRequest e q u p now 0
  | _ => c
  end.

(** Exit (menu entry 9) and the next start in file mode: the snapshot is
    written, then read into a fresh process. *)
Definition restart (s : Store) (fs : Files) : Store :=
  load_data (init_store false) (save_data s fs true true) None None.

(** The bucket of a name in the index. *)
Definition bucket_of (s : Store) (name : string) : list nat :=
  default [] (hash_table s !! Z.to_nat (hash_function name)).

(** ** Invariants of a session *)

(** The index has its declared number of buckets. *)
Definition index_sized (s : Store) : Prop :=
  length (hash_table s) = Z.to_nat HASH_SIZE.

(** Every stored record has a node in the bucket of its name. *)
Definition index_complete (s : Store) : Prop :=
  ∀ i e, stored_items s !! i = Some e → i ∈ bucket_of s (Equipment.name e).

(** The index is the one that [load_data] would build from the stored
    records. *)
Definition index_built (s : Store) : Prop :=
  hash_table s
  = hash_insert_range (inventory s) (replicate (Z.to_nat HASH_SIZE) [])
      0 (Z.to_nat (item_count s)).

(** Every stored request names the id of a stored equipment record. *)
Definition references_resolve (s : Store) : Prop :=
  ∀ r, r ∈ stored_requests s → SupplyRequest.equipment_id r ∈ stored_ids s.

(** Every stored checksum is the checksum of its record. *)
Definition checksums_valid (s : Store) : Prop :=
  ∀ e, e ∈ stored_items s → Equipment.checksum e = checksum_string e.

Definition item_in_range (e : Equipment.t) : Prop :=
  0 <= Equipment.quantity e <= 999999
  ∧ 0 <= Equipment.min_threshold e <= 999999
  ∧ 0 <= Equipment.classification e <= 3.

Definition request_in_range (r : SupplyRequest.t) : Prop :=
  1 <= SupplyRequest.equipment_id r <= 999999
  ∧ 1 <= SupplyRequest.requested_qty r <= 999999
  ∧ 1 <= SupplyRequest.priority r <= 4
  ∧ SupplyRequest.status r = REQ_PENDING.

Definition stored_request_ids (s : Store) : list Z :=
  SupplyRequest.req_id <$> stored_requests s.

(** ** Conditions on what is typed and on the configuration *)

(** An attempt that [get_int_input] does not accept by itself. *)
Definition rejected (min_val max_val : Z) (a : Attempt) : Prop :=
  match a with
  | Parsed w => w < min_val ∨ max_val < w
  | Mismatch => True
  end.

(** Every value fits the field it is copied to. *)
Definition config_fits (cfg : DBConfig) : Prop :=
  (length (c_chars (host cfg)) <= 63)%nat
  ∧ (length (c_chars (port cfg)) <= 7)%nat
  ∧ (length (c_chars (dbname cfg)) <= 63)%nat
  ∧ (length (c_chars (user cfg)) <= 63)%nat
  ∧ (length (c_chars (password cfg)) <= 127)%nat.

(** A text file made of lines, each ended by a newline. *)
Definition file_of_lines (lines : list (list ascii)) : list ascii :=
  concat ((λ line, line ++ [newline]) <$> lines).

(** ** The sum behind a checksum *)

(** What the loop of [calculate_checksum] adds for a name: its characters
    as plain [char] values. *)
Definition sum_chars (s : string) : Z :=
  foldr (λ c acc, char_to_int c + acc) 0 (c_chars s).

(** The sum [calculate_checksum] accumulates, as a mathematical integer. *)
Definition checksum_sum (item : Equipment.t) : Z :=
  Equipment.id item + Equipment.quantity item + Equipment.min_threshold item
  + sum_chars (Equipment.name item).

(** The two bytes of the letter e with an acute accent in UTF-8. *)
Definition e_acute : string := String "195" (String "169" EmptyString).

Definition accented : EquipmentDraft := mkDraft e_acute "" 10 5 "ea" "A" 0.

(** A record whose threshold, scaled by 1.5, is above [INT_MAX], and a
    snapshot that holds it. *)
Definition large_threshold : Equipment.t :=
  Equipment.mk 1 "Radio" "" 2000000000 1431655766 "ea" "A" 100 0 "0000".

Definition large_threshold_snapshot : Files :=
  mkFiles (Some (mkSnapshot 1 2 [large_threshold])) None.

(** ** Machine arithmetic *)

Lemma wrap_int_id z : INT_MIN <= z <= INT_MAX → wrap_int z = z.
Proof.
  unfold wrap_int, INT_MIN, INT_MAX, UINT_MOD. intros H.
  rewrite Z.mod_small; lia.
Qed.

Lemma int_add_exact a b :
  INT_MIN <= a + b <= INT_MAX → int_add a b = a + b.
Proof. apply wrap_int_id. Qed.

Lemma wrap_int_add_l a b : wrap_int (wrap_int a + b) = wrap_int (a + b).
Proof.
  unfold wrap_int. f_equal.
  replace ((a - INT_MIN) mod UINT_MOD + INT_MIN + b - INT_MIN)
    with ((a - INT_MIN) mod UINT_MOD + b) by lia.
  replace (a + b - INT_MIN) with ((a - INT_MIN) + b) by lia.
  apply Zplus_mod_idemp_l.
Qed.

Lemma char_to_int_ascii c : is_ascii c = true → char_to_int c = char_code c.
Proof. unfold is_ascii, char_to_int. intros ->. reflexivity. Qed.

(** ** The checksum format on the range of a non-negative remainder *)

Lemma format_ok_table :
  forallb format_ok (map Z.of_nat (seq 0 (Z.to_nat 10000))) = true.
Proof. vm_compute. reflexivity. Qed.

Lemma format_ok_range n : 0 <= n < 10000 → format_ok n = true.
Proof.
  intros Hn. pose proof format_ok_table as Htab.
  rewrite forallb_forall in Htab. apply Htab.
  apply in_map_iff. exists (Z.to_nat n). split; [lia|].
  apply in_seq. lia.
Qed.

Lemma format_04d_four_digits n :
  0 <= n < 10000 → four_digits (format_04d n) = true.
Proof.
  intros Hn. pose proof (format_ok_range n Hn) as H.
  unfold format_ok in H. apply andb_true_iff in H. tauto.
Qed.

Lemma atoi_format_04d n : 0 <= n < 10000 → atoi (format_04d n) = n.
Proof.
  intros Hn. pose proof (format_ok_range n Hn) as H.
  unfold format_ok in H. apply andb_true_iff in H. destruct H as [_ H].
  apply Z.eqb_eq in H. exact H.
Qed.

Lemma format_04d_inj n m :
  0 <= n < 10000 → 0 <= m < 10000 → format_04d n = format_04d m → n = m.
Proof.
  intros Hn Hm Heq.
  rewrite <- (atoi_format_04d n Hn), <- (atoi_format_04d m Hm).
  f_equal. exact Heq.
Qed.

(** ** Stock status *)

Lemma int_of_times_1_5_floor t :
  0 <= t → (3 * t) / 2 <= INT_MAX → int_of_times_1_5 t = Some ((3 * t) / 2).
Proof.
  intros Ht Hmax. unfold int_of_times_1_5.
  rewrite Z.quot_div_nonneg by lia.
  assert (0 <= (3 * t) / 2) by (apply Z.div_pos; lia).
  unfold in_int_range, INT_MIN.
  destruct (Z.leb_spec (-2147483648) (3 * t / 2)); [|lia].
  destruct (Z.leb_spec (3 * t / 2) INT_MAX); [|lia].
  reflexivity.
Qed.

(** C3, as amended. For an item with non-negative quantity and minimum
    threshold,
    [get_stock_status] is Low exactly when [quantity <= min_threshold],
    otherwise Watch exactly when [quantity <= floor(min_threshold * 1.5)],
    otherwise OK. The Low test comes first: when it succeeds the scaled
    threshold is never converted, so the result is Low whatever
    [min_threshold * 1.5] is; otherwise the scaled threshold has to fit an
    [int] for the C conversion to be defined. *)
Theorem get_stock_status_thresholds (item : Equipment.t) :
  0 <= Equipment.quantity item →
  0 <= Equipment.min_threshold item →
  (Equipment.quantity item <= Equipment.min_threshold item
   ∨ (3 * Equipment.min_threshold item) / 2 <= INT_MAX) →
  get_stock_status item
  = Some (stockStatus (Equipment.quantity item) (Equipment.min_threshold item))
  ∧ (get_stock_status item = Some STATUS_LOW
     ↔ Equipment.quantity item <= Equipment.min_threshold item)
  ∧ (get_stock_status item = Some STATUS_WATCH
     ↔ Equipment.min_threshold item < Equipment.quantity item
       ∧ Equipment.quantity item <= (3 * Equipment.min_threshold item) / 2)
  ∧ (get_stock_status item = Some STATUS_OK
     ↔ (3 * Equipment.min_threshold item) / 2 < Equipment.quantity item).
Proof.
  destruct item as [i n d q t u l lu c ck]; simpl.
  intros Hq Ht Hdef.
  assert (Hfloor : t <= (3 * t) / 2) by (apply Z.div_le_lower_bound; lia).
  unfold get_stock_status, stockStatus; simpl.
  destruct (Z.leb_spec q t) as [Hlow|Hlow].
  - repeat split; intros; try lia; try discriminate; reflexivity.
  - destruct Hdef as [Hdef|Hdef]; [lia|].
    rewrite (int_of_times_1_5_floor t Ht Hdef).
    destruct (Z.leb_spec q (3 * t / 2)) as [Hw|Hw];
      repeat split; intros; try lia; try discriminate; reflexivity.
Qed.

(** The three boundary examples of the specification, threshold 10. *)
Lemma get_stock_status_thresholds_witness :
  get_stock_status
    (Equipment.mk 1 "Radio" "" 10 10 "ea" "A" 0 0 "") = Some STATUS_LOW
  ∧ get_stock_status
      (Equipment.mk 1 "Radio" "" 14 10 "ea" "A" 0 0 "") = Some STATUS_WATCH
  ∧ get_stock_status
      (Equipment.mk 1 "Radio" "" 16 10 "ea" "A" 0 0 "") = Some STATUS_OK.
Proof.
  split; [|split].
  - refine (proj1 (get_stock_status_thresholds
                     (Equipment.mk 1 "Radio" "" 10 10 "ea" "A" 0 0 "") _ _ _));
      simpl; [lia | lia | left; lia].
  - refine (proj1 (get_stock_status_thresholds
                     (Equipment.mk 1 "Radio" "" 14 10 "ea" "A" 0 0 "") _ _ _));
      simpl; [lia | lia | right; vm_compute; discriminate].
  - refine (proj1 (get_stock_status_thresholds
                     (Equipment.mk 1 "Radio" "" 16 10 "ea" "A" 0 0 "") _ _ _));
      simpl; [lia | lia | right; vm_compute; discriminate].
Defined.

(** C3, counterexample. A record with 2000000000 in stock and threshold
    1431655766, as a snapshot can hold it: both are non-negative [int]
    values and the quantity is at most [floor(threshold * 1.5)], which
    asks for Watch, but the scaled threshold 2147483649 is above
    [INT_MAX], its conversion to [int] is not defined, and the function
    does not return Watch. *)
Lemma get_stock_status_scaled_threshold_overflow :
  stored_items (load_data (init_store false) large_threshold_snapshot None None)
  = [large_threshold]
  ∧ 0 <= Equipment.quantity large_threshold <= INT_MAX
  ∧ 0 <= Equipment.min_threshold large_threshold <= INT_MAX
  ∧ (3 * Equipment.min_threshold large_threshold) / 2 = 2147483649
  ∧ stockStatus (Equipment.quantity large_threshold)
                (Equipment.min_threshold large_threshold) = STATUS_WATCH
  ∧ get_stock_status large_threshold = None
  ∧ get_stock_status large_threshold
    ≠ Some (stockStatus (Equipment.quantity large_threshold)
                        (Equipment.min_threshold large_threshold)).
Proof.
  split; [vm_compute; reflexivity|].
  split; [vm_compute; split; discriminate|].
  split; [vm_compute; split; discriminate|].
  split; [reflexivity|]. split; [reflexivity|]. split; [reflexivity|].
  vm_compute. discriminate.
Qed.

(** ** Checksum *)

Lemma calculate_checksum_pure (item other : Equipment.t) :
  Equipment.id other = Equipment.id item →
  Equipment.quantity other = Equipment.quantity item →
  Equipment.min_threshold other = Equipment.min_threshold item →
  Equipment.name other = Equipment.name item →
  calculate_checksum other = calculate_checksum item.
Proof.
  intros Hi Hq Ht Hn. unfold calculate_checksum.
  rewrite Hi, Hq, Ht, Hn. reflexivity.
Qed.

(** The loop of [calculate_checksum] in wrap-around arithmetic: only the
    total matters. *)
Lemma checksum_loop_wrap (l : list ascii) (acc : Z) :
  fold_left (λ sum c, int_add sum (char_to_int c)) l (wrap_int acc)
  = wrap_int (acc + foldr (λ c a, char_to_int c + a) 0 l).
Proof.
  revert acc. induction l as [|c l IH]; intros acc; simpl.
  - f_equal. lia.
  - unfold int_add at 2. rewrite wrap_int_add_l, IH. f_equal. lia.
Qed.

Lemma calculate_checksum_wrap (item : Equipment.t) :
  calculate_checksum item = Z.rem (wrap_int (checksum_sum item)) 10000.
Proof.
  unfold calculate_checksum, checksum_sum, sum_chars.
  unfold int_add at 2 3. rewrite wrap_int_add_l, checksum_loop_wrap.
  reflexivity.
Qed.

Lemma calculate_checksum_in_range (item : Equipment.t) :
  INT_MIN <= checksum_sum item <= INT_MAX →
  calculate_checksum item = Z.rem (checksum_sum item) 10000.
Proof.
  intros H. rewrite calculate_checksum_wrap, wrap_int_id by exact H.
  reflexivity.
Qed.

Lemma calculate_checksum_mod (item : Equipment.t) :
  0 <= checksum_sum item <= INT_MAX →
  calculate_checksum item = checksum_sum item mod 10000.
Proof.
  intros H. rewrite calculate_checksum_in_range by (unfold INT_MIN; lia).
  apply Z.rem_mod_nonneg; lia.
Qed.

Lemma sum_chars_ascii (s : string) :
  ascii_name s → sum_chars s = sum_codes s.
Proof.
  unfold ascii_name, sum_chars, sum_codes.
  induction (c_chars s) as [|c l IH]; intros Hl; simpl; [reflexivity|].
  inversion Hl as [|? ? Hc Hl']; subst.
  rewrite (char_to_int_ascii _ Hc), IH by exact Hl'. reflexivity.
Qed.

(** C4, as amended. The checksum is a function of id, quantity, threshold
    and name only: a record that agrees on these four fields gets the
    same number and the same string, so recomputing on unchanged fields
    gives the same output. For every record it is the remainder, with
    the sign C's [%] gives it, of the 32-bit sum of the three numbers and
    of the characters of the name taken as plain [char] values. When
    that sum lies between 0 and [INT_MAX] the checksum is the sum modulo
    10000, written as a string of exactly four decimal digits that reads
    back as that number; for an ASCII name the [char] values are the
    character codes, and the checksum is [(id + quantity + min_threshold
    + sum of the character codes of name) mod 10000]. *)
Theorem checksum_spec (item : Equipment.t) :
  (∀ other : Equipment.t,
     Equipment.id other = Equipment.id item →
     Equipment.quantity other = Equipment.quantity item →
     Equipment.min_threshold other = Equipment.min_threshold item →
     Equipment.name other = Equipment.name item →
     calculate_checksum other = calculate_checksum item
     ∧ checksum_string other = checksum_string item)
  ∧ calculate_checksum item = Z.rem (wrap_int (checksum_sum item)) 10000
  ∧ (0 <= checksum_sum item <= INT_MAX →
     calculate_checksum item = checksum_sum item mod 10000
     ∧ four_digits (checksum_string item) = true
     ∧ atoi (checksum_string item) = checksum_sum item mod 10000)
  ∧ (ascii_name (Equipment.name item) →
     0 <= Equipment.id item + Equipment.quantity item
          + Equipment.min_threshold item + sum_codes (Equipment.name item)
       <= INT_MAX →
     calculate_checksum item
     = (Equipment.id item + Equipment.quantity item
        + Equipment.min_threshold item + sum_codes (Equipment.name item))
       mod 10000
     ∧ four_digits (checksum_string item) = true
     ∧ atoi (checksum_string item)
       = (Equipment.id item + Equipment.quantity item
          + Equipment.min_threshold item + sum_codes (Equipment.name item))
         mod 10000).
Proof.
  assert (Hmod : 0 <= checksum_sum item <= INT_MAX →
                 calculate_checksum item = checksum_sum item mod 10000
                 ∧ four_digits (checksum_string item) = true
                 ∧ atoi (checksum_string item) = checksum_sum item mod 10000).
  { intros Hsum. pose proof (calculate_checksum_mod item Hsum) as Heq.
    assert (Hrange : 0 <= calculate_checksum item < 10000).
    { rewrite Heq. apply Z.mod_pos_bound. lia. }
    split; [exact Heq|].
    split; [apply format_04d_four_digits; exact Hrange|].
    unfold checksum_string. rewrite atoi_format_04d; assumption. }
  split; [|split; [apply calculate_checksum_wrap|split; [exact Hmod|]]].
  - intros other Hi Hq Ht Hn.
    pose proof (calculate_checksum_pure item other Hi Hq Ht Hn) as Heq.
    split; [exact Heq|]. unfold checksum_string. rewrite Heq. reflexivity.
  - intros Hname Hsum.
    assert (Hcs : checksum_sum item
                  = Equipment.id item + Equipment.quantity item
                    + Equipment.min_threshold item
                    + sum_codes (Equipment.name item)).
    { unfold checksum_sum. rewrite (sum_chars_ascii _ Hname). reflexivity. }
    rewrite <- Hcs in *. apply Hmod. exact Hsum.
Qed.

(** The checksum of a radio with id 1, 10 in stock, threshold 5. *)
Lemma checksum_spec_witness :
  calculate_checksum (Equipment.mk 1 "Radio" "" 10 5 "ea" "A" 0 0 "") = 511
  ∧ checksum_string (Equipment.mk 1 "Radio" "" 10 5 "ea" "A" 0 0 "") = "0511"%string.
Proof.
  pose (item := Equipment.mk 1 "Radio" "" 10 5 "ea" "A" 0 0 "").
  assert (Hname : ascii_name (Equipment.name item)).
  { unfold ascii_name. simpl. repeat constructor. }
  destruct (checksum_spec item) as (_ & _ & _ & Hascii).
  destruct (Hascii Hname) as (Hsum & _ & _);
    [vm_compute; split; discriminate|].
  split; [exact Hsum | reflexivity].
Defined.

(** C4, counterexample. A record created at the prompt with the name
    "é" (the bytes 195 and 169), id 1, 10 in stock, threshold 5: the two
    bytes are added as -61 and -87, the sum is -132, the remainder keeps
    its sign, so the checksum is -132 and its string is "-132". The sum
    with the character codes, 380 modulo 10000, would give "0380", and
    -132 modulo 10000 is 9868. *)
Lemma calculate_checksum_signed_char :
  ∃ e : Equipment.t,
    stored_items (fst (add_equipment (init_store false) accented 100 0)) = [e]
    ∧ Equipment.id e = 1
    ∧ c_chars (Equipment.name e) = ["195"%char; "169"%char]
    ∧ (Equipment.id e + Equipment.quantity e + Equipment.min_threshold e
       + sum_codes (Equipment.name e)) mod 10000 = 380
    ∧ checksum_sum e = -132
    ∧ checksum_sum e mod 10000 = 9868
    ∧ calculate_checksum e = -132
    ∧ Equipment.checksum e = "-132"%string
    ∧ checksum_string e = "-132"%string
    ∧ four_digits (checksum_string e) = false.
Proof.
  eexists. split; [vm_compute; reflexivity|].
  repeat (split; [reflexivity|]). reflexivity.
Qed.

(** ** Lookup by id *)

Lemma find_by_id_None (s : Store) (id : Z) :
  find_by_id s id = None ↔ ∀ e, e ∈ stored_items s → Equipment.id e ≠ id.
Proof.
  unfold find_by_id. rewrite fmap_None, list_find_None, Forall_forall.
  reflexivity.
Qed.

Lemma find_by_id_Some (s : Store) (id : Z) (slot : nat) :
  find_by_id s id = Some slot ↔
  ∃ e, stored_items s !! slot = Some e ∧ Equipment.id e = id
       ∧ ∀ j y, stored_items s !! j = Some y → (j < slot)%nat
                → Equipment.id y ≠ id.
Proof.
  unfold find_by_id. rewrite fmap_Some. split.
  - intros [[i e] [Hfind ->]]. apply list_find_Some in Hfind.
    exists e. exact Hfind.
  - intros [e He]. exists (slot, e). split; [|reflexivity].
    apply list_find_Some. exact He.
Qed.

Lemma stored_items_lookup (s : Store) (slot : nat) (e : Equipment.t) :
  stored_items s !! slot = Some e ↔
  inventory s !! slot = Some e ∧ (slot < Z.to_nat (item_count s))%nat.
Proof. unfold stored_items. apply lookup_take_Some. Qed.


(** ** Well-formed stores *)

Lemma well_formed_init (db : bool) : well_formed (init_store db).
Proof.
  split; simpl; try rewrite length_replicate; try reflexivity;
    unfold MAX_ITEMS, MAX_REQUESTS; lia.
Qed.

Lemma add_equipment_well_formed (s : Store) (d : EquipmentDraft)
    (now db_reply : Z) :
  well_formed s → well_formed (fst (add_equipment s d now db_reply)).
Proof.
  intros [Hi Hr Hic Hrc]. unfold add_equipment.
  destruct (Z.geb_spec (item_count s) MAX_ITEMS) as [?|Hlt];
    [split; assumption|].
  destruct (use_database s); [destruct (db_reply >? 0)|];
    (split; simpl; [rewrite length_insert; exact Hi | exact Hr | lia | exact Hrc]).
Qed.

Lemma update_quantity_well_formed (s : Store) (id q now : Z) :
  well_formed s → well_formed (fst (update_quantity s id q now)).
Proof.
  intros [Hi Hr Hic Hrc]. unfold update_quantity.
  destruct (find_by_id s id); [|split; assumption].
  split; simpl; [rewrite length_insert; exact Hi | exact Hr | exact Hic | exact Hrc].
Qed.

Lemma request_supply_well_formed (s : Store) (equipment_id qty : Z)
    (unit : string) (priority now db_reply : Z) :
  well_formed s →
  well_formed (fst (request_supply s equipment_id qty unit priority now db_reply)).
Proof.
  intros [Hi Hr Hic Hrc]. unfold request_supply.
  destruct (Z.geb_spec (request_count s) MAX_REQUESTS) as [?|Hlt];
    [split; assumption|].
  destruct (find_by_id s equipment_id).
  - destruct (use_database s); [destruct (db_reply >? 0)|];
      (split; simpl; [exact Hi | rewrite length_insert; exact Hr | exact Hic | lia]).
  - split; simpl; [exact Hi | rewrite length_insert; exact Hr | exact Hic | exact Hrc].
Qed.

Lemma step_well_formed (s : Store) (c : Command) :
  well_formed s → well_formed (step s c).
Proof.
  destruct c; simpl; auto using add_equipment_well_formed,
    update_quantity_well_formed, request_supply_well_formed.
Qed.

Lemma run_well_formed (cs : list Command) (s : Store) :
  well_formed s → well_formed (run s cs).
Proof.
  revert s. induction cs as [|c cs IH]; intros s Hs; simpl; [exact Hs|].
  apply IH, step_well_formed, Hs.
Qed.

(** ** Quantity update *)

(** C8. [update_quantity] reports NotFound and leaves the store as it is
    when no stored record has the id. When one has, the first such slot
    gets the new quantity, the current time and the checksum recomputed
    from the updated record; the id, name, description, threshold, unit,
    location and classification of that record, every other slot of
    [inventory], the requests, the name index, [item_count],
    [request_count], both counters and the mode are unchanged. *)
Theorem update_quantity_frame (s : Store) (id new_quantity now : Z) :
  ((∀ e, e ∈ stored_items s → Equipment.id e ≠ id) →
   update_quantity s id new_quantity now = (s, NotFound))
  ∧ ((∃ e, e ∈ stored_items s ∧ Equipment.id e = id) →
     ∃ (slot : nat) (old new : Equipment.t),
       find_by_id s id = Some slot
       ∧ stored_items s !! slot = Some old
       ∧ Equipment.id old = id
       ∧ update_quantity s id new_quantity now
         = (mkStore (<[slot := new]> (inventory s)) (requests s)
              (hash_table s) (item_count s) (request_count s)
              (next_item_id s) (next_request_id s) (use_database s),
            Updated)
       ∧ inventory (fst (update_quantity s id new_quantity now)) !! slot
         = Some new
       ∧ (∀ j : nat, j ≠ slot →
            inventory (fst (update_quantity s id new_quantity now)) !! j
            = inventory s !! j)
       ∧ Equipment.quantity new = new_quantity
       ∧ Equipment.last_updated new = now
       ∧ Equipment.checksum new = checksum_string new
       ∧ Equipment.id new = Equipment.id old
       ∧ Equipment.name new = Equipment.name old
       ∧ Equipment.description new = Equipment.description old
       ∧ Equipment.min_threshold new = Equipment.min_threshold old
       ∧ Equipment.unit new = Equipment.unit old
       ∧ Equipment.location new = Equipment.location old
       ∧ Equipment.classification new = Equipment.classification old).
Proof.
  split.
  - intros Hnone. apply (proj2 (find_by_id_None s id)) in Hnone.
    unfold update_quantity. rewrite Hnone. reflexivity.
  - intros [e [He Hid]].
    destruct (find_by_id s id) as [slot|] eqn:Hfind.
    + pose proof Hfind as Hslot.
      apply find_by_id_Some in Hslot as [old [Hold [Hoid _]]].
      pose proof Hold as Hinv. apply stored_items_lookup in Hinv as [Hinv Hlt].
      unfold update_quantity. rewrite Hfind, Hinv. simpl.
      eexists slot, old, _. split; [reflexivity|].
      split; [exact Hold|]. split; [exact Hoid|].
      split; [reflexivity|].
      split; [apply list_lookup_insert_eq; eapply lookup_lt_Some; exact Hinv|].
      split; [intros j Hj; apply list_lookup_insert_ne; congruence|].
      destruct old; simpl; repeat (split; [reflexivity|]); reflexivity.
    + exfalso. exact (proj1 (find_by_id_None s id) Hfind e He Hid).
Qed.

(** A store with one radio: an unknown id is refused, a known one is
    updated. *)
Lemma update_quantity_frame_witness :
  let s := fst (add_equipment (init_store false)
                  (mkDraft "Radio" "" 10 5 "ea" "A" 0) 100 0) in
  update_quantity s 7 3 200 = (s, NotFound)
  ∧ ∃ (slot : nat) (old new : Equipment.t),
      find_by_id s 1 = Some slot
      ∧ stored_items s !! slot = Some old
      ∧ Equipment.quantity new = 3
      ∧ Equipment.name new = Equipment.name old.
Proof.
  intros s. split.
  - apply (proj1 (update_quantity_frame s 7 3 200)).
    intros e He. vm_compute in He.
    apply list_elem_of_singleton in He. subst e. simpl. discriminate.
  - destruct (proj2 (update_quantity_frame s 1 3 200))
      as (slot & old & new & Hf & Ho & _ & _ & _ & _ & Hq & _ & _ & _ & Hn & _).
    + eexists. split; [apply list_elem_of_lookup_2 with (i := 0%nat);
                       vm_compute; reflexivity | reflexivity].
    + exists slot, old, new. auto.
Defined.

(** ** Search by name *)

Lemma ci_prefix_spec (needle hay : list ascii) :
  ci_prefix needle hay = true ↔
  ∃ suf, tolower <$> hay = (tolower <$> needle) ++ suf.
Proof.
  revert hay. induction needle as [|a needle IH]; intros hay; csimpl.
  - split; [intros _; eexists; reflexivity | reflexivity].
  - destruct hay as [|b hay]; csimpl.
    + split; [discriminate | intros [suf H]; discriminate].
    + rewrite andb_true_iff, Ascii.eqb_eq, IH. split.
      * intros [-> [suf ->]]. exists suf. reflexivity.
      * intros [suf H]. injection H as -> H. split; [reflexivity|].
        exists suf. exact H.
Qed.

(** [strcasestr] finds a match exactly when the needle, lower-cased,
    occurs in the lower-cased haystack. *)
Lemma strcasestr_from_spec (hay needle : list ascii) (off : nat) :
  is_Some (strcasestr_from hay needle off) ↔
  ∃ pre suf, tolower <$> hay = pre ++ (tolower <$> needle) ++ suf.
Proof.
  revert off. induction hay as [|b hay IH]; intros off; csimpl.
  - destruct (ci_prefix needle []) eqn:Hp.
    + split; [intros _ | intros _; eexists; reflexivity].
      apply ci_prefix_spec in Hp as [suf Hsuf]. exists [], suf. exact Hsuf.
    + split; [intros [? ?]; discriminate|].
      intros (pre & suf & H). exfalso.
      destruct pre; [|discriminate]. csimpl in H.
      assert (ci_prefix needle [] = true) as Hc
        by (apply ci_prefix_spec; exists suf; exact H).
      congruence.
  - destruct (ci_prefix needle (b :: hay)) eqn:Hp.
    + split; [intros _ | intros _; eexists; reflexivity].
      apply ci_prefix_spec in Hp as [suf Hsuf]. exists [], suf. exact Hsuf.
    + rewrite IH. split.
      * intros (pre & suf & H). exists (tolower b :: pre), suf.
        csimpl. rewrite H. reflexivity.
      * intros (pre & suf & H). destruct pre as [|p pre].
        -- exfalso. csimpl in H.
           assert (ci_prefix needle (b :: hay) = true) as Hc
             by (apply ci_prefix_spec; exists suf; exact H).
           congruence.
        -- csimpl in H. injection H as _ H. exists pre, suf. exact H.
Qed.

Lemma name_matches_spec (item_name : string) (e : Equipment.t) :
  name_matches item_name e ↔
  ∃ pre suf,
    tolower <$> c_chars (Equipment.name e)
    = pre ++ (tolower <$> c_chars item_name) ++ suf.
Proof. unfold name_matches, strcasestr. apply strcasestr_from_spec. Qed.

(** The fallback scan shows exactly the stored records that match. *)
Lemma check_inventory_scan (s : Store) (item_name : string) :
  hash_find s item_name = None →
  ∀ e, e ∈ check_inventory s item_name
       ↔ e ∈ stored_items s ∧ name_matches item_name e.
Proof.
  intros Hmiss e. unfold check_inventory. rewrite Hmiss.
  rewrite list_elem_of_filter. tauto.
Qed.

(** An index hit shows one record, whatever else matches. *)
Lemma check_inventory_hit (s : Store) (item_name : string) (slot : nat) :
  hash_find s item_name = Some slot →
  length (check_inventory s item_name) = 1%nat.
Proof. intros Hhit. unfold check_inventory. rewrite Hhit. reflexivity. Qed.

Lemma bucket_find_matches (inv : list Equipment.t) (item_name : string)
    (bucket : list nat) (slot : nat) :
  bucket_find inv item_name bucket = Some slot →
  slot ∈ bucket
  ∧ ∃ e, inv !! slot = Some e ∧ name_matches item_name e.
Proof.
  induction bucket as [|i bucket IH]; simpl; [discriminate|].
  destruct (inv !! i) as [e|] eqn:He.
  - destruct (strcasestr (Equipment.name e) item_name) as [off|] eqn:Hm.
    + intros [= <-]. split; [left|].
      exists e. split; [exact He|]. unfold name_matches. rewrite Hm. eauto.
    + intros H. destruct (IH H) as [Hin Hex]. split; [right; exact Hin|exact Hex].
  - intros H. destruct (IH H) as [Hin Hex]. split; [right; exact Hin|exact Hex].
Qed.

(** C1, counterexample. In a store holding "Radio" (id 1) and
    "Radio Set" (id 2), both names contain the query "Radio"; the index
    bucket of "Radio" holds the first, so [check_inventory] shows that
    record alone and the second match is not shown, while the same query
    in lower case misses the index and the scan shows both. *)
Lemma check_inventory_index_hit_omits_match :
  (Equipment.name <$> stored_items two_radios
   = ["Radio"; "Radio Set"]%string)
  ∧ (Equipment.id <$> filter (name_matches "Radio") (stored_items two_radios)
     = [1; 2])
  ∧ hash_find two_radios "Radio" = Some 0%nat
  ∧ (Equipment.id <$> check_inventory two_radios "Radio" = [1])
  ∧ hash_find two_radios "radio" = None
  ∧ (Equipment.id <$> check_inventory two_radios "radio" = [1; 2]).
Proof. vm_compute. repeat split. Qed.

Lemma hash_find_slot (s : Store) (item_name : string) (slot : nat) :
  hash_find s item_name = Some slot →
  (∃ bucket, bucket ∈ hash_table s ∧ slot ∈ bucket)
  ∧ ∃ e, inventory s !! slot = Some e ∧ name_matches item_name e.
Proof.
  unfold hash_find.
  destruct (hash_table s !! Z.to_nat (hash_function item_name))
    as [bucket|] eqn:Hb; simpl; [|discriminate].
  intros Hfind. apply bucket_find_matches in Hfind as [Hin Hex].
  split; [|exact Hex]. exists bucket. split; [|exact Hin].
  apply list_elem_of_lookup_2 with (i := Z.to_nat (hash_function item_name)).
  exact Hb.
Qed.

(** C1, as amended. With a name index whose nodes point at stored
    records: when [hash_find] finds nothing, [check_inventory] shows
    exactly the stored records whose name contains the query
    case-insensitively, in store order; when [hash_find] finds a slot,
    it shows that one stored record, which matches the query, and
    nothing else. So every record shown is a stored match, and no match
    is omitted when the index finds none. *)
Theorem check_inventory_result (s : Store) (item_name : string) :
  index_consistent s →
  (hash_find s item_name = None →
   check_inventory s item_name
   = filter (name_matches item_name) (stored_items s))
  ∧ (∀ slot, hash_find s item_name = Some slot →
       ∃ e, stored_items s !! slot = Some e
            ∧ name_matches item_name e
            ∧ check_inventory s item_name = [e])
  ∧ (∀ e, e ∈ check_inventory s item_name →
          e ∈ stored_items s ∧ name_matches item_name e)
  ∧ (hash_find s item_name = None →
     ∀ e, e ∈ stored_items s → name_matches item_name e →
          e ∈ check_inventory s item_name).
Proof.
  intros Hidx.
  assert (Hhit : ∀ slot, hash_find s item_name = Some slot →
            ∃ e, stored_items s !! slot = Some e
                 ∧ name_matches item_name e
                 ∧ check_inventory s item_name = [e]).
  { intros slot Hfind.
    destruct (hash_find_slot s item_name slot Hfind)
      as [(bucket & Hb & Hin) (e & He & Hm)].
    exists e. split; [|split; [exact Hm|]].
    - apply stored_items_lookup. split; [exact He|].
      exact (Hidx bucket slot Hb Hin).
    - unfold check_inventory. rewrite Hfind, He. reflexivity. }
  split; [|split; [exact Hhit|split]].
  - intros Hmiss. unfold check_inventory. rewrite Hmiss. reflexivity.
  - intros e He. destruct (hash_find s item_name) as [slot|] eqn:Hfind.
    + destruct (Hhit slot eq_refl) as (e' & Hst & Hm & Heq).
      rewrite Heq in He. apply list_elem_of_singleton in He. subst e'.
      split; [|exact Hm]. apply list_elem_of_lookup_2 with (i := slot).
      exact Hst.
    + apply check_inventory_scan in He; [|exact Hfind]. tauto.
  - intros Hmiss e He Hm. apply check_inventory_scan; [exact Hmiss|]. tauto.
Qed.

(** The index stays consistent along a session. *)
Lemma index_consistent_init (db : bool) : index_consistent (init_store db).
Proof.
  intros bucket slot Hb Hin.
  change (bucket ∈ replicate (Z.to_nat HASH_SIZE) ([] : list nat)) in Hb.
  apply elem_of_replicate_inv in Hb. subst bucket.
  apply elem_of_nil in Hin. contradiction.
Qed.

Lemma hash_insert_elem (inv : list Equipment.t) (table : list (list nat))
    (slot : nat) (bucket : list nat) (slot' : nat) :
  bucket ∈ hash_insert inv table slot → slot' ∈ bucket →
  slot' = slot ∨ ∃ b, b ∈ table ∧ slot' ∈ b.
Proof.
  unfold hash_insert. destruct (inv !! slot) as [e|]; [|right; eauto].
  intros Hb Hin. apply list_elem_of_lookup in Hb as [j Hj].
  rewrite list_lookup_alter in Hj. destruct (decide _) as [<-|Hne].
  - apply fmap_Some in Hj as (b & Hb & ->).
    apply elem_of_cons in Hin as [->|Hin]; [left; reflexivity|].
    right. exists b. split; [|exact Hin].
    eapply list_elem_of_lookup_2. exact Hb.
  - right. exists bucket. split; [|exact Hin].
    eapply list_elem_of_lookup_2. exact Hj.
Qed.

Lemma add_equipment_index_consistent (s : Store) (d : EquipmentDraft)
    (now db_reply : Z) :
  well_formed s → index_consistent s →
  index_consistent (fst (add_equipment s d now db_reply)).
Proof.
  intros [_ _ Hic _] Hidx. unfold add_equipment.
  destruct (item_count s >=? MAX_ITEMS); [exact Hidx|].
  destruct (use_database s); [destruct (db_reply >? 0)|];
    (intros bucket slot Hb Hin; simpl in *;
     destruct (hash_insert_elem _ _ _ _ _ Hb Hin) as [->|(b & Hb' & Hin')];
     [lia | specialize (Hidx b slot Hb' Hin'); lia]).
Qed.

Lemma step_index_consistent (s : Store) (c : Command) :
  well_formed s → index_consistent s → index_consistent (step s c).
Proof.
  intros Hwf Hidx. destruct c; simpl; try exact Hidx.
  - apply add_equipment_index_consistent; assumption.
  - unfold update_quantity. destruct (find_by_id s id); exact Hidx.
  - unfold request_supply.
    destruct (request_count s >=? MAX_REQUESTS); [exact Hidx|].
    destruct (find_by_id s equipment_id); [|exact Hidx].
    destruct (use_database s); [destruct (db_reply >? 0)|]; exact Hidx.
Qed.

Lemma run_index_consistent (cs : list Command) (s : Store) :
  well_formed s → index_consistent s → index_consistent (run s cs).
Proof.
  revert s. induction cs as [|c cs IH]; intros s Hwf Hidx; simpl;
    [exact Hidx|].
  apply IH; [apply step_well_formed | apply step_index_consistent]; assumption.
Qed.

(** Every state of a session that starts from the initial store is
    well formed and has a consistent index. *)
Lemma session_index_consistent (db : bool) (cs : list Command) :
  well_formed (run (init_store db) cs)
  ∧ index_consistent (run (init_store db) cs).
Proof.
  split.
  - apply run_well_formed, well_formed_init.
  - apply run_index_consistent;
      [apply well_formed_init | apply index_consistent_init].
Qed.

(** The two searches of the counterexample store: the lower-case query
    misses the index and gets both radios, the exact name hits the index
    and gets the record of slot 0. *)
Lemma check_inventory_result_witness :
  (Equipment.id <$> check_inventory two_radios "radio" = [1; 2])
  ∧ ∃ e, stored_items two_radios !! 0%nat = Some e
         ∧ check_inventory two_radios "Radio" = [e].
Proof.
  assert (Hidx : index_consistent two_radios).
  { unfold two_radios.
    apply add_equipment_index_consistent;
      [apply add_equipment_well_formed, well_formed_init|].
    apply add_equipment_index_consistent;
      [apply well_formed_init | apply index_consistent_init]. }
  destruct (check_inventory_result two_radios "radio" Hidx)
    as (Hscan & _ & _ & _).
  destruct (check_inventory_result two_radios "Radio" Hidx)
    as (_ & Hhit & _ & _).
  split.
  - rewrite Hscan by (vm_compute; reflexivity). vm_compute. reflexivity.
  - destruct (Hhit 0%nat) as (e & He & _ & Hshow);
      [vm_compute; reflexivity|].
    exists e. split; [exact He | exact Hshow].
Defined.

(** ** Supply requests *)

(** A failed lookup in [request_supply] leaves the stored requests and
    their count alone, but the counter has already moved. *)
Lemma request_supply_not_found (s : Store) (equipment_id qty : Z)
    (unit : string) (priority now db_reply : Z) :
  request_count s < MAX_REQUESTS →
  find_by_id s equipment_id = None →
  let s' := fst (request_supply s equipment_id qty unit priority now db_reply) in
  snd (request_supply s equipment_id qty unit priority now db_reply) = NotFound
  ∧ stored_requests s' = stored_requests s
  ∧ request_count s' = request_count s
  ∧ next_request_id s' = int_add (next_request_id s) 1.
Proof.
  intros Hcap Hfind. unfold request_supply.
  destruct (Z.geb_spec (request_count s) MAX_REQUESTS) as [?|_]; [lia|].
  rewrite Hfind. simpl. repeat split.
  unfold stored_requests. simpl. apply take_insert_ge. lia.
Qed.

(** C2, evaluated. With one radio (id 1) in the store, a request for the
    unknown equipment id 7 is refused with NotFound and stores nothing,
    but [next_request_id] goes from 1 to 2: the next accepted request is
    numbered 2 and id 1 is never used. *)
Theorem request_supply_not_found_consumes_id :
  find_by_id one_radio 7 = None
  ∧ snd (request_supply one_radio 7 3 "HQ" 2 200 0) = NotFound
  ∧ stored_requests (fst (request_supply one_radio 7 3 "HQ" 2 200 0))
    = stored_requests one_radio
  ∧ next_request_id one_radio = 1
  ∧ next_request_id (fst (request_supply one_radio 7 3 "HQ" 2 200 0)) = 2
  ∧ snd (request_supply (fst (request_supply one_radio 7 3 "HQ" 2 200 0))
           1 3 "HQ" 2 201 0) = Requested 2.
Proof. vm_compute. repeat split. Qed.

(** ** Request statuses along a session *)








(** ** File round trip *)

(** Reading [count] records from a file that holds at least that many
    puts them at the head of the array. *)
Lemma fread_into_head {A : Type} (array records : list A) (count : Z) :
  (Z.to_nat count <= length records)%nat →
  (Z.to_nat count <= length array)%nat →
  take (Z.to_nat count) (fread_into array count records)
  = take (Z.to_nat count) records.
Proof.
  intros Hrec Harr. unfold fread_into.
  set (n := Z.to_nat count) in *.
  rewrite take_take.
  replace (n `min` length array)%nat with n by lia.
  apply take_app_length'. rewrite length_take. lia.
Qed.

(** Reading back the [count] records that were written restores the
    head of the array. *)
Lemma fread_into_saved {A : Type} (array src : list A) (count : Z) :
  (Z.to_nat count <= length src)%nat →
  (Z.to_nat count <= length array)%nat →
  take (Z.to_nat count)
       (fread_into array count (take (Z.to_nat count) src))
  = take (Z.to_nat count) src.
Proof.
  intros Hsrc Harr.
  rewrite fread_into_head; [| rewrite length_take; lia | exact Harr].
  rewrite take_take. f_equal. lia.
Qed.

(** C7. In file mode, when both files can be opened for writing,
    [save_data] followed by [load_data] (into any file-mode store with
    arrays of the declared size, such as the initial one after a
    restart) gives back the same stored equipment records and the same
    stored requests, record for record and in order, the same counts,
    and the same [next_item_id] and [next_request_id]. *)
Theorem save_load_roundtrip (s s0 : Store) (fs : Files)
    (db_items : option (list Equipment.t))
    (db_requests : option (list SupplyRequest.t)) :
  use_database s = false →
  use_database s0 = false →
  well_formed s →
  well_formed s0 →
  stored_items (load_data s0 (save_data s fs true true) db_items db_requests)
  = stored_items s
  ∧ stored_requests
      (load_data s0 (save_data s fs true true) db_items db_requests)
    = stored_requests s
  ∧ item_count (load_data s0 (save_data s fs true true) db_items db_requests)
    = item_count s
  ∧ request_count
      (load_data s0 (save_data s fs true true) db_items db_requests)
    = request_count s
  ∧ next_item_id
      (load_data s0 (save_data s fs true true) db_items db_requests)
    = next_item_id s
  ∧ next_request_id
      (load_data s0 (save_data s fs true true) db_items db_requests)
    = next_request_id s.
Proof.
  intros Hs Hs0 [Hi Hr Hic Hrc] [Hi0 Hr0 _ _].
  unfold load_data, save_data. rewrite Hs, Hs0. simpl.
  unfold stored_items, stored_requests. simpl.
  split; [|split; [|repeat split]].
  - apply fread_into_saved; lia.
  - apply fread_into_saved; lia.
Qed.

Lemma save_load_roundtrip_witness :
  stored_items
    (load_data (init_store false)
       (save_data two_radios (mkFiles None None) true true) None None)
  = stored_items two_radios
  ∧ next_item_id
      (load_data (init_store false)
         (save_data two_radios (mkFiles None None) true true) None None)
    = 3.
Proof.
  assert (Hwf : well_formed two_radios).
  { unfold two_radios.
    apply add_equipment_well_formed, add_equipment_well_formed,
      well_formed_init. }
  destruct (save_load_roundtrip two_radios (init_store false)
              (mkFiles None None) None None)
    as (Hitems & _ & _ & _ & Hnext & _);
    [reflexivity | reflexivity | exact Hwf | apply well_formed_init |].
  split; [exact Hitems|]. rewrite Hnext. reflexivity.
Defined.

(** ** Identifier allocation *)

(** What one [add_equipment] call does to the stored records: either the
    store is full and nothing changes, or one record is appended. *)
Lemma add_equipment_appends (s : Store) (d : EquipmentDraft)
    (now db_reply : Z) :
  well_formed s →
  (MAX_ITEMS <= item_count s
   ∧ add_equipment s d now db_reply = (s, CapacityExceeded))
  ∨ (item_count s < MAX_ITEMS
     ∧ ∃ e, snd (add_equipment s d now db_reply) = Added (Equipment.id e)
            ∧ inventory (fst (add_equipment s d now db_reply))
                !! Z.to_nat (item_count s) = Some e
            ∧ stored_items (fst (add_equipment s d now db_reply))
              = stored_items s ++ [e]).
Proof.
  intros [Hi Hr Hic Hrc]. unfold add_equipment.
  destruct (Z.geb_spec (item_count s) MAX_ITEMS) as [Hfull|Hlt];
    [left; split; [lia | reflexivity]|].
  right. split; [exact Hlt|].
  assert (Hslot : (Z.to_nat (item_count s) < length (inventory s))%nat)
    by (rewrite Hi; lia).
  assert (Happ : ∀ e, take (Z.to_nat (item_count s + 1))
                        (<[Z.to_nat (item_count s) := e]> (inventory s))
                      = stored_items s ++ [e]).
  { intros e. unfold stored_items.
    replace (Z.to_nat (item_count s + 1)) with (S (Z.to_nat (item_count s)))
      by lia.
    rewrite (take_S_r _ _ e) by (apply list_lookup_insert_eq; exact Hslot).
    rewrite take_insert_ge by lia. reflexivity. }
  destruct (use_database s); [destruct (db_reply >? 0)|];
    (simpl; eexists;
     (split; [|split; [apply list_lookup_insert_eq; exact Hslot|]]);
     [reflexivity | exact (Happ _)]).
Qed.

(** The id given to the new record and the counter afterwards. *)
Lemma add_equipment_issues (s : Store) (d : EquipmentDraft)
    (now db_reply : Z) (id : Z) :
  id_step_ok s db_reply →
  snd (add_equipment s d now db_reply) = Added id →
  next_item_id s <= id
  ∧ id < next_item_id (fst (add_equipment s d now db_reply))
  ∧ next_item_id (fst (add_equipment s d now db_reply)) <= INT_MAX.
Proof.
  intros [Hrange Hdb]. unfold add_equipment.
  destruct (item_count s >=? MAX_ITEMS); [discriminate|].
  assert (Hnext : int_add (next_item_id s) 1 = next_item_id s + 1)
    by (apply int_add_exact; unfold INT_MIN, INT_MAX in *; lia).
  destruct (use_database s).
  - destruct (Z.gtb_spec db_reply 0) as [Hpos|Hneg]; simpl.
    + destruct (Hdb eq_refl) as [?|Hge]; [lia|].
      intros [= <-]. rewrite Hnext.
      destruct (Z.geb_spec db_reply (next_item_id s + 1)).
      * rewrite int_add_exact by (unfold INT_MIN, INT_MAX in *; lia). lia.
      * lia.
    + intros [= <-]. rewrite Hnext. lia.
  - simpl. intros [= <-]. rewrite Hnext. lia.
Qed.

Lemma add_equipment_id_invariant (s : Store) (d : EquipmentDraft)
    (now db_reply : Z) :
  well_formed s → id_invariant s → id_step_ok s db_reply →
  id_invariant (fst (add_equipment s d now db_reply)).
Proof.
  intros Hwf [Hnd Hlt] Hok.
  destruct (add_equipment_appends s d now db_reply Hwf)
    as [[_ Hfull]|[_ (e & Hout & _ & Hst)]].
  - rewrite Hfull. split; assumption.
  - destruct (add_equipment_issues s d now db_reply _ Hok Hout)
      as (Hlo & Hhi & _).
    unfold id_invariant, stored_ids in *. rewrite Hst, fmap_app. simpl.
    split.
    + apply NoDup_app. split; [exact Hnd|]. split; [|apply NoDup_singleton].
      intros x Hx Hx'. apply list_elem_of_singleton in Hx'. subst x.
      rewrite Forall_forall in Hlt. specialize (Hlt _ Hx). lia.
    + apply Forall_app. split.
      * eapply Forall_impl; [exact Hlt|]. simpl. intros; lia.
      * repeat constructor. exact Hhi.
Qed.

Lemma update_quantity_stored_ids (s : Store) (id q now : Z) :
  stored_ids (fst (update_quantity s id q now)) = stored_ids s
  ∧ next_item_id (fst (update_quantity s id q now)) = next_item_id s.
Proof.
  unfold update_quantity.
  destruct (find_by_id s id) as [slot|] eqn:Hfind; [|split; reflexivity].
  apply find_by_id_Some in Hfind as (old & Hold & _ & _).
  pose proof Hold as Hinv. apply stored_items_lookup in Hinv as [Hinv Hslot].
  split; [|reflexivity].
  unfold stored_ids, stored_items in *. simpl. rewrite Hinv. simpl.
  rewrite take_insert_lt by exact Hslot.
  rewrite list_fmap_insert. simpl.
  apply list_insert_id. rewrite list_lookup_fmap, Hold. reflexivity.
Qed.

Lemma request_supply_stored_ids (s : Store) (equipment_id qty : Z)
    (unit : string) (priority now db_reply : Z) :
  stored_ids (fst (request_supply s equipment_id qty unit priority now db_reply))
  = stored_ids s
  ∧ next_item_id
      (fst (request_supply s equipment_id qty unit priority now db_reply))
    = next_item_id s.
Proof.
  unfold request_supply.
  destruct (request_count s >=? MAX_REQUESTS); [split; reflexivity|].
  destruct (find_by_id s equipment_id); [|split; reflexivity].
  destruct (use_database s); [destruct (db_reply >? 0)|]; split; reflexivity.
Qed.


(** The ids reported by a run of creations increase strictly and start
    at the counter. *)
Lemma add_all_increasing (inputs : list (EquipmentDraft * Z * Z)) (s : Store) :
  well_formed s → ids_ok s inputs →
  StronglySorted Z.lt (snd (add_all s inputs))
  ∧ Forall (λ i, next_item_id s <= i) (snd (add_all s inputs)).
Proof.
  revert s. induction inputs as [|[[d now] r] rest IH]; intros s Hwf Hok.
  - simpl. split; constructor.
  - destruct Hok as [Hstep Hrest]. simpl.
    pose proof (add_equipment_well_formed s d now r Hwf) as Hwf1.
    pose proof (add_equipment_issues s d now r) as Hissue.
    pose proof (add_equipment_appends s d now r Hwf) as Happ.
    destruct (add_equipment s d now r) as [s1 out] eqn:Hadd. simpl in *.
    destruct (IH s1 Hwf1 Hrest) as [Hsorted Hge].
    destruct (add_all s1 rest) as [s2 ids]. simpl in *.
    destruct Happ as [[_ Hfull]|[_ (e & Hout & _)]].
    + injection Hfull as <- ->. split; assumption.
    + subst out. destruct (Hissue _ Hstep eq_refl) as (Hlo & Hhi & _).
      split.
      * constructor; [exact Hsorted|].
        eapply Forall_impl; [exact Hge|]. simpl. intros; lia.
      * constructor; [exact Hlo|].
        eapply Forall_impl; [exact Hge|]. simpl. intros; lia.
Qed.

Lemma add_all_well_formed (inputs : list (EquipmentDraft * Z * Z)) (s : Store) :
  well_formed s → well_formed (fst (add_all s inputs)).
Proof.
  revert s. induction inputs as [|[[d now] r] rest IH]; intros s Hwf;
    simpl; [exact Hwf|].
  pose proof (add_equipment_well_formed s d now r Hwf) as Hwf1.
  destruct (add_equipment s d now r) as [s1 out]. simpl in *.
  specialize (IH s1 Hwf1). destruct (add_all s1 rest). exact IH.
Qed.

Lemma add_all_id_invariant (inputs : list (EquipmentDraft * Z * Z)) (s : Store) :
  well_formed s → id_invariant s → ids_ok s inputs →
  id_invariant (fst (add_all s inputs)).
Proof.
  revert s. induction inputs as [|[[d now] r] rest IH]; intros s Hwf Hinv Hok;
    simpl; [exact Hinv|].
  destruct Hok as [Hstep Hrest].
  pose proof (add_equipment_well_formed s d now r Hwf) as Hwf1.
  pose proof (add_equipment_id_invariant s d now r Hwf Hinv Hstep) as Hinv1.
  destruct (add_equipment s d now r) as [s1 out]. simpl in *.
  specialize (IH s1 Hwf1 Hinv1 Hrest). destruct (add_all s1 rest). exact IH.
Qed.

Lemma StronglySorted_lt_NoDup (l : list Z) : StronglySorted Z.lt l → NoDup l.
Proof.
  induction 1 as [|x l Hs IH Hx]; constructor; [|exact IH].
  intros Hin. rewrite Forall_forall in Hx. specialize (Hx x Hin). lia.
Qed.




(** ** Loading and the item counter *)











(** ** The checksum of a record created in database mode *)

(** C10, counterexample. In database mode, with the allocator at 1 and
    the database returning id 10001, the stored record has the
    database's id, different from the allocator's, and yet its checksum
    field equals the checksum recomputed from the record as stored: the
    two ids are congruent modulo 10000. *)
Lemma add_equipment_db_checksum_collision :
  ∃ e : Equipment.t,
    stored_items (fst (add_equipment (init_store true) radio 100 10001)) = [e]
    ∧ next_item_id (init_store true) = 1
    ∧ Equipment.id e = 10001
    ∧ Equipment.checksum e = "0511"%string
    ∧ checksum_string e = "0511"%string
    ∧ ¬ (Equipment.checksum e ≠ checksum_string e).
Proof.
  eexists. split; [vm_compute; reflexivity|].
  repeat (split; [reflexivity|]). intros H. apply H. reflexivity.
Qed.

(** [sprintf("%04d")] and [atoi] on every value a remainder modulo 10000
    can take, the negative ones included. *)
Lemma atoi_format_04d_table :
  forallb (λ n, atoi (format_04d n) =? n) (seqZ (-9999) 19999) = true.
Proof. vm_compute. reflexivity. Qed.

Lemma atoi_format_04d_signed n :
  -10000 < n < 10000 → atoi (format_04d n) = n.
Proof.
  intros Hn. pose proof atoi_format_04d_table as Htab.
  rewrite forallb_forall in Htab. apply Z.eqb_eq, Htab.
  apply list_elem_of_In, elem_of_seqZ. lia.
Qed.

Lemma format_04d_inj_signed n m :
  -10000 < n < 10000 → -10000 < m < 10000 →
  format_04d n = format_04d m → n = m.
Proof.
  intros Hn Hm Heq.
  rewrite <- (atoi_format_04d_signed n Hn), <- (atoi_format_04d_signed m Hm).
  f_equal. exact Heq.
Qed.

Lemma rem_10000_range a : -10000 < Z.rem a 10000 < 10000.
Proof. pose proof (Z.rem_bound_abs a 10000). lia. Qed.

(** Equal remainders of two sums with a common part: the other parts are
    congruent. *)
Lemma rem_eq_cong a b x :
  Z.rem (a + x) 10000 = Z.rem (b + x) 10000 → a mod 10000 = b mod 10000.
Proof.
  intros Heq.
  pose proof (Z.quot_rem' (a + x) 10000) as Ha.
  pose proof (Z.quot_rem' (b + x) 10000) as Hb.
  replace a with (b + ((a + x) ÷ 10000 - (b + x) ÷ 10000) * 10000) by lia.
  apply Z_mod_plus_full.
Qed.

(** Conversely, when the two sums have the same sign. *)
Lemma cong_rem_eq a b x :
  (0 <= a + x ∧ 0 <= b + x) ∨ (a + x <= 0 ∧ b + x <= 0) →
  a mod 10000 = b mod 10000 →
  Z.rem (a + x) 10000 = Z.rem (b + x) 10000.
Proof.
  intros Hsign Hcong.
  assert (Hsum : ∀ k, (k * a + k * x) mod 10000 = (k * b + k * x) mod 10000).
  { intros k. rewrite (Z.add_mod (k * a)), (Z.add_mod (k * b)) by lia.
    rewrite (Z.mul_mod k a), (Z.mul_mod k b), Hcong by lia. reflexivity. }
  destruct Hsign as [[Ha Hb]|[Ha Hb]].
  - rewrite !Z.rem_mod_nonneg by lia.
    specialize (Hsum 1). rewrite !Z.mul_1_l in Hsum. exact Hsum.
  - specialize (Hsum (-1)).
    set (y := -1 * a + -1 * x) in *. set (z := -1 * b + -1 * x) in *.
    replace (a + x) with (- y) by (unfold y; lia).
    replace (b + x) with (- z) by (unfold z; lia).
    rewrite (Z.rem_opp_l' y), (Z.rem_opp_l' z). f_equal.
    rewrite !Z.rem_mod_nonneg by (unfold y, z; lia). exact Hsum.
Qed.

(** C10, as amended. In database mode, when the insert returns an id,
    [add_equipment] stores the record under that id with the checksum
    that was computed under the allocator's id, and does not recompute
    it. Whenever the checksum sums under the two ids fit an [int], the
    stored checksum differs from the checksum recomputed from the stored
    record if the two ids are not congruent modulo 10000; if they are
    congruent and the two sums have the same sign, the stored checksum
    equals the recomputed one although the ids may differ. *)
Theorem add_equipment_db_checksum (s : Store) (d : EquipmentDraft)
    (now db_reply : Z) :
  well_formed s →
  use_database s = true →
  item_count s < MAX_ITEMS →
  0 < db_reply →
  ∃ e : Equipment.t,
    inventory (fst (add_equipment s d now db_reply))
      !! Z.to_nat (item_count s) = Some e
    ∧ snd (add_equipment s d now db_reply) = Added db_reply
    ∧ Equipment.id e = db_reply
    ∧ Equipment.checksum e
      = checksum_string (Equipment.set_id (next_item_id s) e)
    ∧ (INT_MIN <= checksum_sum (Equipment.set_id (next_item_id s) e)
         <= INT_MAX →
       INT_MIN <= checksum_sum e <= INT_MAX →
       (db_reply mod 10000 ≠ next_item_id s mod 10000 →
        Equipment.checksum e ≠ checksum_string e)
       ∧ ((0 <= checksum_sum (Equipment.set_id (next_item_id s) e)
           ∧ 0 <= checksum_sum e)
          ∨ (checksum_sum (Equipment.set_id (next_item_id s) e) <= 0
             ∧ checksum_sum e <= 0) →
          db_reply mod 10000 = next_item_id s mod 10000 →
          Equipment.checksum e = checksum_string e)).
Proof.
  intros [Hi _ Hic _] Hdb Hcap Hpos.
  unfold add_equipment.
  destruct (Z.geb_spec (item_count s) MAX_ITEMS) as [?|_]; [lia|].
  rewrite Hdb.
  destruct (Z.gtb_spec db_reply 0) as [_|?]; [|lia].
  simpl.
  set (old := default Equipment.zero (inventory s !! Z.to_nat (item_count s))).
  set (e := Equipment.set_id db_reply
              (Equipment.set_checksum
                 (checksum_string
                    (Equipment.mk (next_item_id s) (d_name d) (d_description d)
                       (d_quantity d) (d_min_threshold d) (d_unit d)
                       (d_location d) now (d_classification d)
                       (Equipment.checksum old)))
                 (Equipment.mk (next_item_id s) (d_name d) (d_description d)
                    (d_quantity d) (d_min_threshold d) (d_unit d)
                    (d_location d) now (d_classification d)
                    (Equipment.checksum old)))).
  exists e.
  split; [apply list_lookup_insert_eq; rewrite Hi; lia|].
  split; [reflexivity|]. split; [reflexivity|].
  assert (Hstale : Equipment.checksum e
                   = checksum_string (Equipment.set_id (next_item_id s) e))
    by reflexivity.
  split; [exact Hstale|].
  intros Hold Hnew. rewrite Hstale. unfold checksum_string.
  rewrite (calculate_checksum_in_range _ Hold).
  rewrite (calculate_checksum_in_range _ Hnew).
  unfold checksum_sum. cbn [e Equipment.set_id Equipment.set_checksum
    Equipment.id Equipment.quantity Equipment.min_threshold Equipment.name].
  set (x := d_quantity d + d_min_threshold d + sum_chars (d_name d)).
  replace (next_item_id s + d_quantity d + d_min_threshold d
           + sum_chars (d_name d)) with (next_item_id s + x) by (unfold x; lia).
  replace (db_reply + d_quantity d + d_min_threshold d
           + sum_chars (d_name d)) with (db_reply + x) by (unfold x; lia).
  split.
  - intros Hne Heq. apply Hne. symmetry. apply (rem_eq_cong _ _ x).
    apply format_04d_inj_signed in Heq; [exact Heq | |]; apply rem_10000_range.
  - intros Hsign Hcong. f_equal. apply cong_rem_eq; [|symmetry; exact Hcong].
    unfold checksum_sum in Hsign.
    cbn [e Equipment.set_id Equipment.set_checksum Equipment.id
         Equipment.quantity Equipment.min_threshold Equipment.name] in Hsign.
    unfold x. lia.
Qed.

(** The allocator at 1, the database returning 7: the stored checksum is
    the one of id 1 and differs from the one of the stored record, for
    the radio and also for the record named "é", whose sums are
    negative. *)
Lemma add_equipment_db_checksum_witness :
  (∃ e : Equipment.t,
     inventory (fst (add_equipment (init_store true) radio 100 7)) !! 0%nat
     = Some e
     ∧ Equipment.id e = 7
     ∧ Equipment.checksum e ≠ checksum_string e)
  ∧ (∃ e : Equipment.t,
       inventory (fst (add_equipment (init_store true) accented 100 7))
         !! 0%nat = Some e
       ∧ Equipment.id e = 7
       ∧ Equipment.checksum e = "-132"%string
       ∧ Equipment.checksum e ≠ checksum_string e).
Proof.
  split.
  - destruct (add_equipment_db_checksum (init_store true) radio 100 7)
      as (e & He & _ & Hid & _ & Hdiff);
      [apply well_formed_init | reflexivity | reflexivity | lia |].
    exists e. split; [exact He|]. split; [exact Hid|].
    vm_compute in He. injection He as <-.
    apply Hdiff; vm_compute; try discriminate; split; discriminate.
  - destruct (add_equipment_db_checksum (init_store true) accented 100 7)
      as (e & He & _ & Hid & _ & Hdiff);
      [apply well_formed_init | reflexivity | reflexivity | lia |].
    exists e. split; [exact He|]. split; [exact Hid|].
    vm_compute in He. injection He as <-.
    split; [reflexivity|].
    apply Hdiff; vm_compute; try discriminate; split; discriminate.
Defined.

(** ** File-mode sessions *)

(** In file mode the side condition of the id theorem holds by itself:
    at most [MAX_ITEMS - item_count] creations succeed, so a counter
    with that much room never reaches [INT_MAX]. *)
Lemma file_mode_ids_ok (inputs : list (EquipmentDraft * Z * Z)) (s : Store) :
  well_formed s →
  use_database s = false →
  INT_MIN <= next_item_id s →
  next_item_id s + (MAX_ITEMS - item_count s) < INT_MAX →
  ids_ok s inputs.
Proof.
  revert s. induction inputs as [|[[d now] r] rest IH];
    intros s Hwf Hdb Hlo Hroom; simpl; [exact I|].
  pose proof Hwf as [_ _ Hic _].
  split.
  - split; [lia|]. rewrite Hdb. discriminate.
  - apply IH.
    + apply add_equipment_well_formed. exact Hwf.
    + unfold add_equipment.
      destruct (item_count s >=? MAX_ITEMS); [exact Hdb|].
      rewrite Hdb. reflexivity.
    + unfold add_equipment.
      destruct (item_count s >=? MAX_ITEMS); [exact Hlo|].
      rewrite Hdb. simpl.
      rewrite int_add_exact by (unfold INT_MIN, INT_MAX in *; lia). lia.
    + unfold add_equipment.
      destruct (Z.geb_spec (item_count s) MAX_ITEMS); [exact Hroom|].
      rewrite Hdb. simpl.
      rewrite int_add_exact by (unfold INT_MIN, INT_MAX in *; lia). lia.
Qed.

(** Every sequence of creations in a file-mode session that starts from
    the initial store reports strictly increasing ids. *)
Lemma file_session_ids_increasing (inputs : list (EquipmentDraft * Z * Z)) :
  StronglySorted Z.lt (snd (add_all (init_store false) inputs))
  ∧ NoDup (snd (add_all (init_store false) inputs))
  ∧ id_invariant (fst (add_all (init_store false) inputs)).
Proof.
  assert (Hok : ids_ok (init_store false) inputs).
  { apply file_mode_ids_ok; [apply well_formed_init | reflexivity | |];
      vm_compute; [discriminate | reflexivity]. }
  assert (Hinv : id_invariant (init_store false))
    by (split; vm_compute; constructor).
  destruct (add_all_increasing inputs (init_store false)
              (well_formed_init false) Hok) as [Hsorted _].
  split; [exact Hsorted|].
  split; [apply StronglySorted_lt_NoDup; exact Hsorted|].
  apply add_all_id_invariant; [apply well_formed_init | exact Hinv | exact Hok].
Qed.

(** * Further properties of the program *)

(** ** The name index: insertion and lookup *)

Lemma hash_function_range (str : string) :
  0 <= hash_function str < HASH_SIZE.
Proof. unfold hash_function. apply Z.mod_pos_bound. reflexivity. Qed.

Lemma ci_prefix_refl (l : list ascii) : ci_prefix l l = true.
Proof.
  induction l as [|c l IH]; simpl; [reflexivity|].
  rewrite Ascii.eqb_refl. exact IH.
Qed.

Lemma strcasestr_self (name : string) : strcasestr name name = Some 0%nat.
Proof.
  unfold strcasestr.
  destruct (c_chars name) as [|c l] eqn:Hc; simpl; [reflexivity|].
  rewrite Ascii.eqb_refl, ci_prefix_refl. reflexivity.
Qed.

(** What [add_equipment] does when the store has room, whatever the
    mode and the database reply: the record written carries the name
    entered, and the index gets a node for the slot. *)
Lemma add_equipment_slot (s : Store) (d : EquipmentDraft) (now db_reply : Z) :
  well_formed s →
  item_count s < MAX_ITEMS →
  ∃ item,
    inventory (fst (add_equipment s d now db_reply))
    = <[Z.to_nat (item_count s) := item]> (inventory s)
    ∧ Equipment.name item = d_name d
    ∧ Equipment.quantity item = d_quantity d
    ∧ Equipment.min_threshold item = d_min_threshold d
    ∧ Equipment.classification item = d_classification d
    ∧ snd (add_equipment s d now db_reply) = Added (Equipment.id item)
    ∧ item_count (fst (add_equipment s d now db_reply)) = item_count s + 1
    ∧ requests (fst (add_equipment s d now db_reply)) = requests s
    ∧ request_count (fst (add_equipment s d now db_reply)) = request_count s
    ∧ next_request_id (fst (add_equipment s d now db_reply))
      = next_request_id s
    ∧ use_database (fst (add_equipment s d now db_reply)) = use_database s
    ∧ hash_table (fst (add_equipment s d now db_reply))
      = alter (cons (Z.to_nat (item_count s)))
          (Z.to_nat (hash_function (d_name d))) (hash_table s).
Proof.
  intros [Hi _ Hic _] Hcap. unfold add_equipment.
  destruct (Z.geb_spec (item_count s) MAX_ITEMS) as [?|_]; [lia|].
  assert (Hslot : (Z.to_nat (item_count s) < length (inventory s))%nat)
    by (rewrite Hi; lia).
  destruct (use_database s); [destruct (db_reply >? 0)|];
    (simpl; eexists;
     repeat (split; [reflexivity|]);
     unfold hash_insert;
     rewrite list_lookup_insert_eq by exact Hslot; reflexivity).
Qed.

Lemma stored_items_after_add (s : Store) (item : Equipment.t) :
  well_formed s →
  item_count s < MAX_ITEMS →
  take (Z.to_nat (item_count s + 1))
       (<[Z.to_nat (item_count s) := item]> (inventory s))
  = stored_items s ++ [item].
Proof.
  intros [Hi _ Hic _] Hcap. unfold stored_items.
  replace (Z.to_nat (item_count s + 1)) with (S (Z.to_nat (item_count s)))
    by lia.
  rewrite (take_S_r _ _ item)
    by (apply list_lookup_insert_eq; rewrite Hi; lia).
  rewrite take_insert_ge by lia. reflexivity.
Qed.

Lemma bucket_of_after_add (s : Store) (d : EquipmentDraft) (now db_reply : Z)
    (name : string) :
  well_formed s → index_sized s → item_count s < MAX_ITEMS →
  bucket_of (fst (add_equipment s d now db_reply)) name
  = if decide (Z.to_nat (hash_function (d_name d))
               = Z.to_nat (hash_function name))
    then Z.to_nat (item_count s) :: bucket_of s name
    else bucket_of s name.
Proof.
  intros Hwf Hsz Hcap.
  destruct (add_equipment_slot s d now db_reply Hwf Hcap)
    as (item & _ & _ & _ & _ & _ & _ & _ & _ & _ & _ & _ & Htab).
  unfold bucket_of. rewrite Htab, list_lookup_alter.
  destruct (decide _) as [Heq|Hne]; [|reflexivity].
  rewrite <- Heq.
  destruct (hash_table s !! Z.to_nat (hash_function (d_name d)))
    as [b|] eqn:Hb; [reflexivity|].
  exfalso. apply lookup_ge_None in Hb. unfold index_sized in Hsz.
  pose proof (hash_function_range (d_name d)). lia.
Qed.

Lemma add_equipment_index_sized (s : Store) (d : EquipmentDraft)
    (now db_reply : Z) :
  index_sized s → index_sized (fst (add_equipment s d now db_reply)).
Proof.
  unfold index_sized, add_equipment. intros Hsz.
  destruct (item_count s >=? MAX_ITEMS); [exact Hsz|].
  destruct (use_database s); [destruct (db_reply >? 0)|];
    (simpl; unfold hash_insert;
     destruct (_ !! _); [rewrite length_alter|]; exact Hsz).
Qed.

Lemma step_index_sized (s : Store) (c : Command) :
  index_sized s → index_sized (step s c).
Proof.
  intros Hsz. destruct c; simpl; try exact Hsz.
  - apply add_equipment_index_sized. exact Hsz.
  - unfold update_quantity. destruct (find_by_id s id); exact Hsz.
  - unfold request_supply.
    destruct (request_count s >=? MAX_REQUESTS); [exact Hsz|].
    destruct (find_by_id s equipment_id); [|exact Hsz].
    destruct (use_database s); [destruct (db_reply >? 0)|]; exact Hsz.
Qed.

Lemma index_sized_init (db : bool) : index_sized (init_store db).
Proof.
  unfold index_sized.
  change (hash_table (init_store db))
    with (replicate (Z.to_nat HASH_SIZE) ([] : list nat)).
  apply length_replicate.
Qed.

(** X1. When the store has room, the record just added is the one the index
    returns for its own name: [hash_find] on the name entered gives the
    new slot, ahead of any older record in the same bucket, and
    [check_inventory] on that name shows the new record alone. *)
Theorem add_equipment_then_hash_find (s : Store) (d : EquipmentDraft)
    (now db_reply : Z) :
  well_formed s →
  index_sized s →
  item_count s < MAX_ITEMS →
  hash_find (fst (add_equipment s d now db_reply)) (d_name d)
  = Some (Z.to_nat (item_count s))
  ∧ ∃ item,
      stored_items (fst (add_equipment s d now db_reply))
        !! Z.to_nat (item_count s) = Some item
      ∧ Equipment.name item = d_name d
      ∧ check_inventory (fst (add_equipment s d now db_reply)) (d_name d)
        = [item].
Proof.
  intros Hwf Hsz Hcap.
  pose proof (bucket_of_after_add s d now db_reply (d_name d) Hwf Hsz Hcap)
    as Hbucket.
  destruct (add_equipment_slot s d now db_reply Hwf Hcap)
    as (item & Hinv & Hname & _ & _ & _ & _ & Hcount & _).
  destruct Hwf as [Hi _ Hic _].
  assert (Hslot : inventory (fst (add_equipment s d now db_reply))
                    !! Z.to_nat (item_count s) = Some item).
  { rewrite Hinv. apply list_lookup_insert_eq. rewrite Hi. lia. }
  assert (Hfind : hash_find (fst (add_equipment s d now db_reply)) (d_name d)
                  = Some (Z.to_nat (item_count s))).
  { unfold hash_find. fold (bucket_of (fst (add_equipment s d now db_reply))
                              (d_name d)).
    rewrite Hbucket. destruct (decide _) as [_|Hne]; [|congruence].
    simpl. rewrite Hslot, Hname, strcasestr_self. reflexivity. }
  split; [exact Hfind|]. exists item.
  split; [apply stored_items_lookup; split; [exact Hslot | rewrite Hcount; lia]|].
  split; [exact Hname|].
  unfold check_inventory. rewrite Hfind, Hslot. reflexivity.
Qed.

Lemma add_equipment_then_hash_find_witness :
  hash_find one_radio "Radio" = Some 0%nat.
Proof.
  exact (proj1 (add_equipment_then_hash_find (init_store false) radio 100 0
                  (well_formed_init false) (index_sized_init false) eq_refl)).
Defined.

(** ** The three mutating commands, case by case *)

Lemma update_quantity_slot (s : Store) (id new_quantity now : Z) (slot : nat) :
  find_by_id s id = Some slot →
  ∃ old new,
    inventory s !! slot = Some old
    ∧ (slot < Z.to_nat (item_count s))%nat
    ∧ update_quantity s id new_quantity now
      = (mkStore (<[slot := new]> (inventory s)) (requests s) (hash_table s)
           (item_count s) (request_count s)
           (next_item_id s) (next_request_id s) (use_database s),
         Updated)
    ∧ Equipment.id old = id
    ∧ Equipment.id new = Equipment.id old
    ∧ Equipment.name new = Equipment.name old
    ∧ Equipment.min_threshold new = Equipment.min_threshold old
    ∧ Equipment.classification new = Equipment.classification old
    ∧ Equipment.quantity new = new_quantity
    ∧ Equipment.checksum new = checksum_string new.
Proof.
  intros Hfind. pose proof Hfind as Hslot.
  apply find_by_id_Some in Hslot as (old & Hold & Hid & _).
  apply stored_items_lookup in Hold as [Hinv Hlt].
  unfold update_quantity. rewrite Hfind, Hinv. simpl.
  eexists old, _. split; [reflexivity|]. split; [exact Hlt|].
  split; [reflexivity|]. split; [exact Hid|].
  destruct old; simpl; repeat (split; [reflexivity|]); reflexivity.
Qed.

Lemma stored_items_after_update (s : Store) (slot : nat) (new : Equipment.t) :
  (slot < Z.to_nat (item_count s))%nat →
  take (Z.to_nat (item_count s)) (<[slot := new]> (inventory s))
  = <[slot := new]> (stored_items s).
Proof. intros Hlt. unfold stored_items. apply take_insert_lt. exact Hlt. Qed.

Lemma request_supply_cases (s : Store) (equipment_id qty : Z)
    (unit : string) (priority now db_reply : Z) :
  inventory (fst (request_supply s equipment_id qty unit priority now db_reply))
  = inventory s
  ∧ hash_table
      (fst (request_supply s equipment_id qty unit priority now db_reply))
    = hash_table s
  ∧ item_count
      (fst (request_supply s equipment_id qty unit priority now db_reply))
    = item_count s
  ∧ next_item_id
      (fst (request_supply s equipment_id qty unit priority now db_reply))
    = next_item_id s
  ∧ use_database
      (fst (request_supply s equipment_id qty unit priority now db_reply))
    = use_database s
  ∧ ((MAX_REQUESTS <= request_count s
      ∧ request_supply s equipment_id qty unit priority now db_reply
        = (s, CapacityExceeded))
     ∨ (request_count s < MAX_REQUESTS
        ∧ find_by_id s equipment_id = None
        ∧ snd (request_supply s equipment_id qty unit priority now db_reply)
          = NotFound
        ∧ request_count
            (fst (request_supply s equipment_id qty unit priority now db_reply))
          = request_count s
        ∧ (∃ req,
             requests
               (fst (request_supply s equipment_id qty unit priority now
                       db_reply))
             = <[Z.to_nat (request_count s) := req]> (requests s))
        ∧ next_request_id
            (fst (request_supply s equipment_id qty unit priority now db_reply))
          = int_add (next_request_id s) 1)
     ∨ (request_count s < MAX_REQUESTS
        ∧ is_Some (find_by_id s equipment_id)
        ∧ request_count
            (fst (request_supply s equipment_id qty unit priority now db_reply))
          = request_count s + 1
        ∧ ∃ req,
            requests
              (fst (request_supply s equipment_id qty unit priority now
                      db_reply))
            = <[Z.to_nat (request_count s) := req]> (requests s)
            ∧ snd (request_supply s equipment_id qty unit priority now
                     db_reply)
              = Requested (SupplyRequest.req_id req)
            ∧ SupplyRequest.equipment_id req = equipment_id
            ∧ SupplyRequest.requested_qty req = qty
            ∧ SupplyRequest.requesting_unit req = unit
            ∧ SupplyRequest.request_time req = now
            ∧ SupplyRequest.priority req = priority
            ∧ SupplyRequest.status req = REQ_PENDING
            ∧ (use_database s = false →
               SupplyRequest.req_id req = next_request_id s
               ∧ next_request_id
                   (fst (request_supply s equipment_id qty unit priority now
                           db_reply))
                 = int_add (next_request_id s) 1))).
Proof.
  unfold request_supply.
  destruct (Z.geb_spec (request_count s) MAX_REQUESTS) as [Hfull|Hroom].
  { repeat (split; [reflexivity|]). left. split; [exact Hfull | reflexivity]. }
  destruct (find_by_id s equipment_id) as [slot|] eqn:Hfind.
  - destruct (use_database s) eqn:Hdb; [destruct (db_reply >? 0)|];
      (simpl; repeat (split; [reflexivity|]); right; right;
       split; [exact Hroom|]; split; [eexists; reflexivity|];
       split; [reflexivity|]; eexists;
       repeat (split; [reflexivity|]);
       first [reflexivity | intros Hfile; discriminate]).
  - simpl. repeat (split; [reflexivity|]). right; left.
    split; [exact Hroom|]. repeat (split; [reflexivity|]).
    split; [eexists; reflexivity | reflexivity].
Qed.

Lemma stored_items_length (s : Store) :
  well_formed s → length (stored_items s) = Z.to_nat (item_count s).
Proof.
  intros [Hi _ Hic _]. unfold stored_items.
  rewrite length_take, Hi. lia.
Qed.

Lemma stored_requests_length (s : Store) :
  well_formed s → length (stored_requests s) = Z.to_nat (request_count s).
Proof.
  intros [_ Hr _ Hrc]. unfold stored_requests.
  rewrite length_take, Hr. lia.
Qed.

(** The stored records after one [add_equipment] call. *)
Lemma add_equipment_stored (s : Store) (d : EquipmentDraft) (now db_reply : Z) :
  well_formed s →
  (MAX_ITEMS <= item_count s
   ∧ add_equipment s d now db_reply = (s, CapacityExceeded))
  ∨ (item_count s < MAX_ITEMS
     ∧ ∃ item,
         stored_items (fst (add_equipment s d now db_reply))
         = stored_items s ++ [item]
         ∧ Equipment.name item = d_name d
         ∧ Equipment.quantity item = d_quantity d
         ∧ Equipment.min_threshold item = d_min_threshold d
         ∧ Equipment.classification item = d_classification d
         ∧ snd (add_equipment s d now db_reply) = Added (Equipment.id item)).
Proof.
  intros Hwf.
  destruct (Z.le_gt_cases MAX_ITEMS (item_count s)) as [Hfull|Hroom].
  - left. split; [exact Hfull|]. unfold add_equipment.
    destruct (Z.geb_spec (item_count s) MAX_ITEMS); [reflexivity | lia].
  - right. split; [lia|].
    destruct (add_equipment_slot s d now db_reply Hwf ltac:(lia))
      as (item & Hinv & Hn & Hq & Ht & Hc & Hout & Hcount & _).
    exists item. split; [|auto].
    unfold stored_items at 1. rewrite Hinv, Hcount.
    apply stored_items_after_add; [exact Hwf | lia].
Qed.

(** ** Searching a stored name *)

Lemma index_complete_init (db : bool) : index_complete (init_store db).
Proof. intros i e H. unfold stored_items in H. simpl in H. discriminate. Qed.

Lemma add_equipment_index_complete (s : Store) (d : EquipmentDraft)
    (now db_reply : Z) :
  well_formed s → index_sized s → index_complete s →
  index_complete (fst (add_equipment s d now db_reply)).
Proof.
  intros Hwf Hsz Hidx.
  destruct (add_equipment_stored s d now db_reply Hwf)
    as [[_ ->]|[Hroom (item & Hst & Hname & _)]]; [exact Hidx|].
  intros i e Hi. rewrite Hst in Hi.
  rewrite (bucket_of_after_add s d now db_reply _ Hwf Hsz Hroom).
  apply lookup_app_Some in Hi as [Hi|[Hlen Hi]].
  - specialize (Hidx i e Hi). destruct (decide _); [right|]; exact Hidx.
  - rewrite stored_items_length in Hlen, Hi by exact Hwf.
    apply list_lookup_singleton_Some in Hi as [Hi0 <-].
    rewrite Hname. destruct (decide _) as [_|Hne]; [|congruence].
    apply elem_of_cons. left. lia.
Qed.

Lemma update_quantity_index_complete (s : Store) (id q now : Z) :
  index_complete s → index_complete (fst (update_quantity s id q now)).
Proof.
  intros Hidx.
  destruct (find_by_id s id) as [slot|] eqn:Hfind;
    [|unfold update_quantity; rewrite Hfind; exact Hidx].
  destruct (update_quantity_slot s id q now slot Hfind)
    as (old & new & Hold & Hlt & -> & _ & _ & Hname & _).
  intros i e Hi. unfold stored_items in Hi. simpl in Hi.
  unfold bucket_of. simpl. fold (bucket_of s (Equipment.name e)).
  rewrite stored_items_after_update in Hi by exact Hlt.
  apply list_lookup_insert_Some in Hi as [(<- & <- & _)|[_ Hi]].
  - rewrite Hname. apply Hidx. apply stored_items_lookup. auto.
  - apply Hidx. exact Hi.
Qed.

Lemma request_supply_stored_items (s : Store) (equipment_id qty : Z)
    (unit : string) (priority now db_reply : Z) :
  stored_items
    (fst (request_supply s equipment_id qty unit priority now db_reply))
  = stored_items s.
Proof.
  destruct (request_supply_cases s equipment_id qty unit priority now db_reply)
    as (Hinv & _ & Hcount & _).
  unfold stored_items. rewrite Hinv, Hcount. reflexivity.
Qed.

Lemma step_index_complete (s : Store) (c : Command) :
  well_formed s → index_sized s → index_complete s →
  index_complete (step s c).
Proof.
  intros Hwf Hsz Hidx. destruct c; simpl; try exact Hidx.
  - apply add_equipment_index_complete; assumption.
  - apply update_quantity_index_complete. exact Hidx.
  - intros i e Hi. rewrite request_supply_stored_items in Hi.
    unfold bucket_of.
    destruct (request_supply_cases s equipment_id requested_qty
                requesting_unit priority now db_reply) as (_ & -> & _).
    apply Hidx. exact Hi.
Qed.

Lemma run_index_complete (cs : list Command) (s : Store) :
  well_formed s → index_sized s → index_complete s →
  index_complete (run s cs).
Proof.
  revert s. induction cs as [|c cs IH]; intros s Hwf Hsz Hidx; simpl;
    [exact Hidx|].
  apply IH;
    [apply step_well_formed | apply step_index_sized
    | apply step_index_complete]; assumption.
Qed.

Lemma bucket_find_hit (inv : list Equipment.t) (item_name : string)
    (bucket : list nat) (i : nat) (e : Equipment.t) :
  i ∈ bucket → inv !! i = Some e → name_matches item_name e →
  is_Some (bucket_find inv item_name bucket).
Proof.
  intros Hin He Hm. induction bucket as [|j bucket IH]; simpl.
  - apply elem_of_nil in Hin. contradiction.
  - destruct (decide (i = j)) as [<-|Hne].
    + rewrite He. destruct Hm as [off Hoff]. rewrite Hoff. eauto.
    + apply elem_of_cons in Hin as [?|Hin]; [congruence|].
      destruct (inv !! j) as [e'|]; [|exact (IH Hin)].
      destruct (strcasestr (Equipment.name e') item_name); [eauto|].
      exact (IH Hin).
Qed.

(** X2. In every state of a session started from the initial store, searching
    for the exact name of a stored record never falls back to the scan:
    [hash_find] returns a slot, the record in that slot is stored and
    its name contains the query, and [check_inventory] shows that one
    record (which may be another record than the one whose name was
    typed, when several names contain it). *)
Theorem search_stored_name_hits_index (db : bool) (cs : list Command)
    (e : Equipment.t) :
  e ∈ stored_items (run (init_store db) cs) →
  ∃ slot shown,
    hash_find (run (init_store db) cs) (Equipment.name e) = Some slot
    ∧ stored_items (run (init_store db) cs) !! slot = Some shown
    ∧ name_matches (Equipment.name e) shown
    ∧ check_inventory (run (init_store db) cs) (Equipment.name e) = [shown].
Proof.
  set (s := run (init_store db) cs). intros He.
  assert (Hwf : well_formed s) by apply run_well_formed, well_formed_init.
  assert (Hcons : index_consistent s)
    by (apply run_index_consistent;
        [apply well_formed_init | apply index_consistent_init]).
  assert (Hcomp : index_complete s)
    by (apply run_index_complete;
        [apply well_formed_init | apply index_sized_init
        | apply index_complete_init]).
  apply list_elem_of_lookup in He as [i Hi].
  pose proof (Hcomp i e Hi) as Hin.
  apply stored_items_lookup in Hi as [Hinv Hlt].
  assert (Hsome : is_Some (hash_find s (Equipment.name e))).
  { unfold hash_find. apply (bucket_find_hit _ _ _ i e Hin Hinv).
    unfold name_matches. rewrite strcasestr_self. eauto. }
  destruct Hsome as [slot Hfind]. 
  destruct (hash_find_slot s _ slot Hfind)
    as [(bucket & Hb & Hslot) (shown & Hshown & Hm)].
  exists slot, shown. split; [exact Hfind|].
  split; [apply stored_items_lookup; split;
          [exact Hshown | exact (Hcons bucket slot Hb Hslot)]|].
  split; [exact Hm|].
  unfold check_inventory. rewrite Hfind, Hshown. reflexivity.
Qed.

Lemma search_stored_name_hits_index_witness :
  ∃ slot shown,
    hash_find two_radios "Radio Set" = Some slot
    ∧ check_inventory two_radios "Radio Set" = [shown].
Proof.
  destruct (search_stored_name_hits_index false
              [CmdAdd radio 100 0; CmdAdd radio_set 101 0]
              (Equipment.mk 2 "Radio Set" "" 10 5 "ea" "A" 101 0 "0844"))
    as (slot & shown & Hfind & _ & _ & Hshow).
  - apply list_elem_of_lookup_2 with (i := 1%nat). vm_compute. reflexivity.
  - exists slot, shown. split; [exact Hfind | exact Hshow].
Defined.

(** ** How one command changes the stored records *)

Lemma add_equipment_file_mode (s : Store) (d : EquipmentDraft)
    (now db_reply : Z) :
  use_database s = false →
  item_count s < MAX_ITEMS →
  ∃ item,
    inventory (fst (add_equipment s d now db_reply))
    = <[Z.to_nat (item_count s) := item]> (inventory s)
    ∧ Equipment.id item = next_item_id s
    ∧ Equipment.checksum item = checksum_string item
    ∧ snd (add_equipment s d now db_reply) = Added (next_item_id s)
    ∧ next_item_id (fst (add_equipment s d now db_reply))
      = int_add (next_item_id s) 1.
Proof.
  intros Hdb Hroom. unfold add_equipment.
  destruct (Z.geb_spec (item_count s) MAX_ITEMS) as [?|_]; [lia|].
  rewrite Hdb. simpl. eexists. split; [reflexivity|].
  split; [reflexivity|]. split; [reflexivity|]. split; reflexivity.
Qed.

Lemma step_stored_items (s : Store) (c : Command) :
  well_formed s →
  stored_items (step s c) = stored_items s
  ∨ (∃ d now db_reply item,
       c = CmdAdd d now db_reply
       ∧ stored_items (step s c) = stored_items s ++ [item]
       ∧ Equipment.name item = d_name d
       ∧ Equipment.quantity item = d_quantity d
       ∧ Equipment.min_threshold item = d_min_threshold d
       ∧ Equipment.classification item = d_classification d
       ∧ (use_database s = false →
          Equipment.id item = next_item_id s
          ∧ Equipment.checksum item = checksum_string item))
  ∨ (∃ id q now slot old new,
       c = CmdUpdate id q now
       ∧ stored_items s !! slot = Some old
       ∧ stored_items (step s c) = <[slot := new]> (stored_items s)
       ∧ Equipment.id new = Equipment.id old
       ∧ Equipment.name new = Equipment.name old
       ∧ Equipment.min_threshold new = Equipment.min_threshold old
       ∧ Equipment.classification new = Equipment.classification old
       ∧ Equipment.quantity new = q
       ∧ Equipment.checksum new = checksum_string new).
Proof.
  intros Hwf. destruct c as [d now r| | |id q now|e q u p now r| | |]; simpl;
    try (left; reflexivity).
  - destruct (add_equipment_stored s d now r Hwf)
      as [[_ ->]|[Hroom (item & Hst & Hn & Hq & Ht & Hc & _)]];
      [left; reflexivity|].
    right; left. exists d, now, r, item.
    repeat (split; [assumption || reflexivity|]).
    intros Hdb.
    destruct (add_equipment_file_mode s d now r Hdb Hroom)
      as (item' & Hinv & Hid & Hck & _).
    assert (item' = item) as ->; [|split; assumption].
    assert (Hl : stored_items (fst (add_equipment s d now r))
                   !! Z.to_nat (item_count s) = Some item).
    { rewrite Hst, lookup_app_r by (rewrite stored_items_length; auto).
      rewrite stored_items_length, Nat.sub_diag by exact Hwf. reflexivity. }
    apply stored_items_lookup in Hl as [Hl _]. rewrite Hinv in Hl.
    rewrite list_lookup_insert_eq in Hl; [congruence|].
    destruct Hwf as [Hi _ Hic _]. rewrite Hi. lia.
  - destruct (find_by_id s id) as [slot|] eqn:Hfind;
      [|left; unfold update_quantity; rewrite Hfind; reflexivity].
    destruct (update_quantity_slot s id q now slot Hfind)
      as (old & new & Hold & Hlt & Heq & _ & Hid & Hn & Ht & Hc & Hq & Hck).
    right; right. exists id, q, now, slot, old, new.
    split; [reflexivity|].
    split; [apply stored_items_lookup; auto|].
    split; [rewrite Heq; unfold stored_items at 1; simpl;
            apply stored_items_after_update; exact Hlt|].
    auto 10.
  - left. apply request_supply_stored_items.
Qed.

Lemma step_stored_requests (s : Store) (c : Command) :
  well_formed s →
  stored_requests (step s c) = stored_requests s
  ∨ (∃ e q u p now db_reply req,
       c = CmdRequest e q u p now db_reply
       ∧ stored_requests (step s c) = stored_requests s ++ [req]
       ∧ is_Some (find_by_id s e)
       ∧ SupplyRequest.equipment_id req = e
       ∧ SupplyRequest.requested_qty req = q
       ∧ SupplyRequest.priority req = p
       ∧ SupplyRequest.status req = REQ_PENDING
       ∧ (use_database s = false →
          SupplyRequest.req_id req = next_request_id s)).
Proof.
  intros Hwf. pose proof Hwf as [_ Hr _ Hrc].
  destruct c as [d now r| | |id q now|e q u p now r| | |]; simpl;
    try (left; reflexivity).
  - left. destruct (add_equipment_stored s d now r Hwf)
      as [[_ ->]|[Hroom _]]; [reflexivity|].
    destruct (add_equipment_slot s d now r Hwf Hroom)
      as (item & _ & _ & _ & _ & _ & _ & _ & Hreq & Hcnt & _).
    unfold stored_requests. rewrite Hreq, Hcnt. reflexivity.
  - left. unfold update_quantity. destruct (find_by_id s id); reflexivity.
  - destruct (request_supply_cases s e q u p now r)
      as (_ & _ & _ & _ & _ &
          [[_ ->]|[(Hroom & _ & _ & Hcnt & [req Hreq] & _)
                  |(Hroom & Hfound & Hcnt & req & Hreq & _ & He & Hq & _ & _
                    & Hp & Hs & Hfile)]]).
    + left. reflexivity.
    + left. unfold stored_requests. rewrite Hreq, Hcnt.
      apply take_insert_ge. lia.
    + right. exists e, q, u, p, now, r, req.
      split; [reflexivity|]. split.
      * unfold stored_requests. rewrite Hreq, Hcnt.
        replace (Z.to_nat (request_count s + 1))
          with (S (Z.to_nat (request_count s))) by lia.
        rewrite (take_S_r _ _ req)
          by (apply list_lookup_insert_eq; rewrite Hr; lia).
        rewrite take_insert_ge by lia. reflexivity.
      * repeat (split; [assumption|]). intros Hdb. apply Hfile, Hdb.
Qed.

Lemma step_stored_ids_grow (s : Store) (c : Command) (id : Z) :
  well_formed s → id ∈ stored_ids s → id ∈ stored_ids (step s c).
Proof.
  intros Hwf Hin. unfold stored_ids in *.
  destruct (step_stored_items s c Hwf)
    as [->|[(d & now & r & item & _ & -> & _)
           |(i & q & now & slot & old & new & _ & Hold & -> & Hid & _)]].
  - exact Hin.
  - rewrite fmap_app. apply elem_of_app. left. exact Hin.
  - rewrite list_fmap_insert, Hid, list_insert_id; [exact Hin|].
    rewrite list_lookup_fmap, Hold. reflexivity.
Qed.

(** ** Requests refer to stored equipment *)

Lemma step_references_resolve (s : Store) (c : Command) :
  well_formed s → references_resolve s → references_resolve (step s c).
Proof.
  intros Hwf Href r Hr.
  destruct (step_stored_requests s c Hwf)
    as [Heq|(e & q & u & p & now & db & req & _ & Heq & Hfound & He & _)];
    rewrite Heq in Hr.
  - apply step_stored_ids_grow; [exact Hwf | exact (Href r Hr)].
  - apply elem_of_app in Hr as [Hr|Hr].
    + apply step_stored_ids_grow; [exact Hwf | exact (Href r Hr)].
    + apply list_elem_of_singleton in Hr. subst r.
      apply step_stored_ids_grow; [exact Hwf|].
      destruct Hfound as [slot Hslot].
      apply find_by_id_Some in Hslot as (item & Hitem & Hid & _).
      rewrite He, <- Hid. unfold stored_ids.
      apply list_elem_of_fmap_2. eapply list_elem_of_lookup_2. exact Hitem.
Qed.

(** X3. In every state of a session started from the initial store, each
    stored supply request carries the id of a stored equipment record,
    so [find_by_id] on its equipment id succeeds: records are never
    removed and a quantity update keeps the id. *)
Theorem session_references_resolve (db : bool) (cs : list Command)
    (r : SupplyRequest.t) :
  r ∈ stored_requests (run (init_store db) cs) →
  ∃ e, e ∈ stored_items (run (init_store db) cs)
       ∧ Equipment.id e = SupplyRequest.equipment_id r
       ∧ is_Some (find_by_id (run (init_store db) cs)
                    (SupplyRequest.equipment_id r)).
Proof.
  assert (Hrun : ∀ cs s, well_formed s → references_resolve s →
                         references_resolve (run s cs)).
  { clear. induction cs as [|c cs IH]; intros s Hwf Href; simpl;
      [exact Href|].
    apply IH; [apply step_well_formed | apply step_references_resolve];
      assumption. }
  intros Hr.
  assert (Href : references_resolve (run (init_store db) cs)).
  { apply Hrun; [apply well_formed_init|].
    intros r' Hr'. unfold stored_requests in Hr'. simpl in Hr'.
    apply elem_of_nil in Hr'. contradiction. }
  specialize (Href r Hr). unfold stored_ids in Href.
  apply list_elem_of_fmap in Href as (e & Hid & He).
  exists e. split; [exact He|]. split; [congruence|].
  destruct (find_by_id (run (init_store db) cs)
              (SupplyRequest.equipment_id r)) as [slot|] eqn:Hfind; [eauto|].
  exfalso. exact (proj1 (find_by_id_None _ _) Hfind e He (eq_sym Hid)).
Qed.

Lemma session_references_resolve_witness :
  ∃ e, e ∈ stored_items
             (run (init_store false)
                [CmdAdd radio 100 0; CmdRequest 1 3 "HQ" 2 200 0])
       ∧ Equipment.id e = 1.
Proof.
  destruct (session_references_resolve false
              [CmdAdd radio 100 0; CmdRequest 1 3 "HQ" 2 200 0]
              (SupplyRequest.mk 1 1 3 "HQ" 200 REQ_PENDING 2))
    as (e & He & Hid & _).
  - apply list_elem_of_lookup_2 with (i := 0%nat). vm_compute. reflexivity.
  - exists e. split; [exact He | exact Hid].
Defined.

Lemma step_use_database (s : Store) (c : Command) :
  use_database (step s c) = use_database s.
Proof.
  destruct c; simpl; try reflexivity.
  - unfold add_equipment. destruct (item_count s >=? MAX_ITEMS); [reflexivity|].
    destruct (use_database s); [destruct (db_reply >? 0)|]; reflexivity.
  - unfold update_quantity. destruct (find_by_id s id); reflexivity.
  - apply request_supply_cases.
Qed.

Lemma run_use_database (cs : list Command) (s : Store) :
  use_database (run s cs) = use_database s.
Proof.
  revert s. induction cs as [|c cs IH]; intros s; simpl; [reflexivity|].
  rewrite IH. apply step_use_database.
Qed.

Lemma elem_of_insert_inv {A : Type} (l : list A) (i : nat) (x y : A) :
  y ∈ <[i := x]> l → y = x ∨ y ∈ l.
Proof.
  intros Hy. apply list_elem_of_lookup in Hy as [j Hj].
  apply list_lookup_insert_Some in Hj as [(_ & -> & _)|[_ Hj]].
  - left. reflexivity.
  - right. eapply list_elem_of_lookup_2. exact Hj.
Qed.

(** ** Checksums in file mode *)

Lemma step_checksums_valid (s : Store) (c : Command) :
  well_formed s → use_database s = false →
  checksums_valid s → checksums_valid (step s c).
Proof.
  intros Hwf Hdb Hck e He.
  destruct (step_stored_items s c Hwf)
    as [Heq|[(d & now & r & item & _ & Heq & _ & _ & _ & _ & Hfile)
            |(i & q & now & slot & old & new & _ & _ & Heq & _ & _ & _ & _ & _
              & Hnew)]];
    rewrite Heq in He.
  - exact (Hck e He).
  - apply elem_of_app in He as [He|He]; [exact (Hck e He)|].
    apply list_elem_of_singleton in He. subst e. apply (Hfile Hdb).
  - apply elem_of_insert_inv in He as [->|He]; [exact Hnew | exact (Hck e He)].
Qed.

(** X4. In every state of a file-mode session started from the initial store,
    the checksum field of each stored record is the checksum computed
    from that record as stored. *)
Theorem session_file_checksums_valid (cs : list Command) (e : Equipment.t) :
  e ∈ stored_items (run (init_store false) cs) →
  Equipment.checksum e = checksum_string e.
Proof.
  assert (Hrun : ∀ cs s, well_formed s → use_database s = false →
                         checksums_valid s → checksums_valid (run s cs)).
  { clear. induction cs as [|c cs IH]; intros s Hwf Hdb Hck; simpl;
      [exact Hck|].
    apply IH; [apply step_well_formed; exact Hwf
              | rewrite step_use_database; exact Hdb
              | apply step_checksums_valid; assumption]. }
  apply Hrun; [apply well_formed_init | reflexivity|].
  intros e' He'. unfold stored_items in He'. simpl in He'.
  apply elem_of_nil in He'. contradiction.
Qed.

Lemma session_file_checksums_valid_witness :
  Equipment.checksum (Equipment.mk 1 "Radio" "" 10 5 "ea" "A" 100 0 "0511")
  = checksum_string (Equipment.mk 1 "Radio" "" 10 5 "ea" "A" 100 0 "0511").
Proof.
  apply (session_file_checksums_valid [CmdAdd radio 100 0]).
  apply list_elem_of_lookup_2 with (i := 0%nat). vm_compute. reflexivity.
Defined.

(** ** Field ranges *)

Lemma step_items_in_range (s : Store) (c : Command) :
  well_formed s → command_valid c →
  Forall item_in_range (stored_items s) →
  Forall item_in_range (stored_items (step s c)).
Proof.
  intros Hwf Hc Hall.
  destruct (step_stored_items s c Hwf)
    as [->|[(d & now & r & item & -> & -> & _ & Hq & Ht & Hcl & _)
           |(i & q & now & slot & old & new & -> & Hold & -> & _ & _ & Ht
             & Hcl & Hq & _)]].
  - exact Hall.
  - apply Forall_app. split; [exact Hall|]. apply Forall_singleton.
    unfold item_in_range. rewrite Hq, Ht, Hcl. exact Hc.
  - apply Forall_insert; [exact Hall|].
    rewrite Forall_forall in Hall.
    destruct (Hall old (list_elem_of_lookup_2 _ _ _ Hold)) as (_ & Ht' & Hcl').
    unfold item_in_range. rewrite Hq, Ht, Hcl. simpl in Hc. tauto.
Qed.

Lemma step_requests_in_range (s : Store) (c : Command) :
  well_formed s → command_valid c →
  Forall request_in_range (stored_requests s) →
  Forall request_in_range (stored_requests (step s c)).
Proof.
  intros Hwf Hc Hall.
  destruct (step_stored_requests s c Hwf)
    as [->|(e & q & u & p & now & db & req & -> & -> & _ & He & Hq & Hp & Hs
            & _)].
  - exact Hall.
  - apply Forall_app. split; [exact Hall|]. apply Forall_singleton.
    unfold request_in_range. rewrite He, Hq, Hp. simpl in Hc. tauto.
Qed.

Lemma run_fields_in_range (cs : list Command) (s : Store) :
  well_formed s → Forall command_valid cs →
  Forall item_in_range (stored_items s) →
  Forall request_in_range (stored_requests s) →
  Forall item_in_range (stored_items (run s cs))
  ∧ Forall request_in_range (stored_requests (run s cs)).
Proof.
  revert s. induction cs as [|c cs IH]; intros s Hwf Hcs Hi Hr; simpl;
    [split; assumption|].
  inversion Hcs as [|? ? Hc Hcs']; subst.
  apply IH; [apply step_well_formed; exact Hwf | exact Hcs'
            | apply step_items_in_range; assumption
            | apply step_requests_in_range; assumption].
Qed.

(** X5. When every command of a session started from the initial store
    carries numbers in the ranges its prompts enforce, every stored record has quantity and threshold in
    0..999999 and classification in 0..3, and every stored request has
    equipment id and quantity in 1..999999, priority in 1..4 and status
    Pending. *)
Theorem session_fields_in_range (db : bool) (cs : list Command) :
  Forall command_valid cs →
  Forall item_in_range (stored_items (run (init_store db) cs))
  ∧ Forall request_in_range (stored_requests (run (init_store db) cs)).
Proof.
  intros Hcs. apply run_fields_in_range;
    [apply well_formed_init | exact Hcs | |];
    unfold stored_items, stored_requests; simpl; constructor.
Qed.

(** A session whose numbers are in the ranges of the prompts. *)
Lemma valid_example_session :
  Forall command_valid
    [CmdAdd radio 100 0; CmdUpdate 1 3 150; CmdRequest 1 3 "HQ" 2 200 0].
Proof. repeat constructor; simpl; lia. Qed.

Lemma session_fields_in_range_witness :
  Forall item_in_range
    (stored_items
       (run (init_store false)
          [CmdAdd radio 100 0; CmdUpdate 1 3 150;
           CmdRequest 1 3 "HQ" 2 200 0])).
Proof.
  exact (proj1 (session_fields_in_range false _ valid_example_session)).
Defined.

Lemma get_stock_status_in_range (e : Equipment.t) :
  item_in_range e →
  get_stock_status e
  = Some (stockStatus (Equipment.quantity e) (Equipment.min_threshold e)).
Proof.
  intros (Hq & Ht & _). unfold get_stock_status, stockStatus.
  destruct (Equipment.quantity e <=? Equipment.min_threshold e); [reflexivity|].
  rewrite int_of_times_1_5_floor; [| lia |].
  - destruct (Equipment.quantity e <=? 3 * Equipment.min_threshold e / 2);
      reflexivity.
  - transitivity ((3 * 999999) / 2).
    + apply Z.div_le_mono; lia.
    + vm_compute. discriminate.
Qed.

Lemma request_row_in_range (r : SupplyRequest.t) :
  request_in_range r →
  ∃ row, request_row r = Some row
         ∧ row_status row = "PENDING"%string
         ∧ row_priority row ∈ ["LOW"; "NORMAL"; "HIGH"; "CRITICAL"]%string
         ∧ row_req_id row = SupplyRequest.req_id r
         ∧ row_equipment_id row = SupplyRequest.equipment_id r
         ∧ row_qty row = SupplyRequest.requested_qty r.
Proof.
  intros (_ & _ & Hp & Hs). unfold request_row. rewrite Hs.
  assert (Hcases : SupplyRequest.priority r = 1 ∨ SupplyRequest.priority r = 2
                   ∨ SupplyRequest.priority r = 3
                   ∨ SupplyRequest.priority r = 4) by lia.
  destruct Hcases as [-> | [-> | [-> | ->]]]; simpl; eexists;
    (split; [reflexivity|]); simpl;
    (split; [reflexivity|]); (split; [|repeat split]).
  - apply elem_of_cons. left. reflexivity.
  - do 1 right. apply elem_of_cons. left. reflexivity.
  - do 2 right. apply elem_of_cons. left. reflexivity.
  - do 3 right. apply elem_of_cons. left. reflexivity.
Qed.

Lemma check_requests_rows (l : list SupplyRequest.t) :
  Forall request_in_range l →
  ∃ rows,
    mapM request_row l = Some rows
    ∧ length rows = length l
    ∧ Forall (λ row, row_status row = "PENDING"%string
                     ∧ row_priority row
                       ∈ ["LOW"; "NORMAL"; "HIGH"; "CRITICAL"]%string)
             rows.
Proof.
  induction 1 as [|r l Hr _ (rows & Hrows & Hlen & Hall)].
  - exists []. split; [reflexivity|]. split; [reflexivity | constructor].
  - destruct (request_row_in_range r Hr) as (row & Hrow & Hst & Hpr & _).
    exists (row :: rows). split.
    + change (mapM request_row (r :: l))
        with (x ← request_row r; k ← mapM request_row l; mret (x :: k)).
      rewrite Hrow, Hrows. reflexivity.
    + split; [simpl; congruence|]. constructor; [split; assumption | exact Hall].
Qed.

(** X6. Along such a session, started from the initial store, the screens
    never index outside a name table
    nor convert an out-of-range threshold: [get_stock_status] is defined
    for every stored record and equals the three-way classification,
    its classification has a name, and [check_requests] prints one row
    per stored request, each with status "PENDING" and a named
    priority. *)
Theorem session_reports_defined (db : bool) (cs : list Command) :
  Forall command_valid cs →
  (∀ e, e ∈ stored_items (run (init_store db) cs) →
        get_stock_status e
        = Some (stockStatus (Equipment.quantity e) (Equipment.min_threshold e))
        ∧ is_Some (table_name CLASS_NAMES (Equipment.classification e)))
  ∧ ∃ rows,
      check_requests (run (init_store db) cs) = Some rows
      ∧ length rows = length (stored_requests (run (init_store db) cs))
      ∧ Forall (λ row, row_status row = "PENDING"%string
                       ∧ row_priority row
                         ∈ ["LOW"; "NORMAL"; "HIGH"; "CRITICAL"]%string)
               rows.
Proof.
  intros Hcs.
  destruct (run_fields_in_range cs (init_store db) (well_formed_init db) Hcs)
    as [Hi Hr];
    [unfold stored_items; simpl; constructor
    | unfold stored_requests; simpl; constructor |].
  split.
  - intros e He. rewrite Forall_forall in Hi. specialize (Hi e He).
    split; [apply get_stock_status_in_range; exact Hi|].
    destruct Hi as (_ & _ & Hcl).
    assert (Hcases : Equipment.classification e = 0
                     ∨ Equipment.classification e = 1
                     ∨ Equipment.classification e = 2
                     ∨ Equipment.classification e = 3) by lia.
    destruct Hcases as [-> | [-> | [-> | ->]]]; simpl; eauto.
  - apply check_requests_rows. exact Hr.
Qed.

Lemma session_reports_defined_witness :
  ∃ rows,
    check_requests
      (run (init_store false)
         [CmdAdd radio 100 0; CmdUpdate 1 3 150;
          CmdRequest 1 3 "HQ" 2 200 0]) = Some rows
    ∧ length rows = 1%nat.
Proof.
  destruct (session_reports_defined false _ valid_example_session)
    as [_ (rows & Hrows & Hlen & _)].
  exists rows. split; [exact Hrows|]. rewrite Hlen. vm_compute. reflexivity.
Defined.

(** ** Ids in a file-mode session *)

Lemma step_file_ids (s : Store) (c : Command) :
  well_formed s → use_database s = false →
  next_item_id s = item_count s + 1 →
  stored_ids s = seqZ 1 (item_count s) →
  next_item_id (step s c) = item_count (step s c) + 1
  ∧ stored_ids (step s c) = seqZ 1 (item_count (step s c)).
Proof.
  intros Hwf Hdb Hnext Hids. pose proof Hwf as [_ _ Hic _].
  destruct c as [d now r| | |id q now|e q u p now r| | |]; simpl;
    try (split; assumption).
  - destruct (add_equipment_stored s d now r Hwf)
      as [[_ ->]|[Hroom (item & Hst & _)]]; [split; assumption|].
    destruct (add_equipment_slot s d now r Hwf Hroom)
      as (item1 & _ & _ & _ & _ & _ & _ & Hcount & _).
    destruct (add_equipment_file_mode s d now r Hdb Hroom)
      as (item2 & Hinv & Hid & _ & Hout & Hnext').
    destruct (add_equipment_stored s d now r Hwf)
      as [[? _]|[_ (item3 & Hst3 & _ & _ & _ & _ & Hout3)]]; [lia|].
    rewrite Hout in Hout3. injection Hout3 as Hid3.
    rewrite Hnext', Hcount.
    rewrite int_add_exact
      by (unfold INT_MIN, INT_MAX, MAX_ITEMS in *; lia).
    split; [lia|].
    unfold stored_ids in *. rewrite Hst3, fmap_app, Hids. simpl.
    rewrite <- Hid3, Hnext.
    rewrite (seqZ_app 1 (item_count s) 1) by lia.
    f_equal. rewrite seqZ_cons by lia. rewrite seqZ_nil by lia.
    f_equal. lia.
  - destruct (update_quantity_stored_ids s id q now) as [-> ->].
    unfold update_quantity. destruct (find_by_id s id); split; assumption.
  - destruct (request_supply_stored_ids s e q u p now r) as [-> ->].
    destruct (request_supply_cases s e q u p now r) as (_ & _ & -> & _).
    split; assumption.
Qed.

Lemma run_file_ids (cs : list Command) (s : Store) :
  well_formed s → use_database s = false →
  next_item_id s = item_count s + 1 →
  stored_ids s = seqZ 1 (item_count s) →
  next_item_id (run s cs) = item_count (run s cs) + 1
  ∧ stored_ids (run s cs) = seqZ 1 (item_count (run s cs)).
Proof.
  revert s. induction cs as [|c cs IH]; intros s Hwf Hdb Hnext Hids; simpl;
    [split; assumption|].
  destruct (step_file_ids s c Hwf Hdb Hnext Hids) as [Hnext' Hids'].
  apply IH; [apply step_well_formed; exact Hwf
            | rewrite step_use_database; exact Hdb | exact Hnext' | exact Hids'].
Qed.

(** X7. In every state of a file-mode session started from the initial store
    the stored ids are 1, 2, ..., [item_count] in slot order and the
    counter is [item_count + 1]; hence [find_by_id] finds id [k] in slot
    [k - 1] exactly when [1 <= k <= item_count]. *)
Theorem session_file_ids (cs : list Command) :
  stored_ids (run (init_store false) cs)
  = seqZ 1 (item_count (run (init_store false) cs))
  ∧ next_item_id (run (init_store false) cs)
    = item_count (run (init_store false) cs) + 1
  ∧ ∀ id : Z,
      find_by_id (run (init_store false) cs) id
      = if decide (1 <= id <= item_count (run (init_store false) cs))
        then Some (Z.to_nat (id - 1))
        else None.
Proof.
  set (s := run (init_store false) cs).
  assert (Hwf : well_formed s) by apply run_well_formed, well_formed_init.
  destruct (run_file_ids cs (init_store false) (well_formed_init false))
    as [Hnext Hids]; [reflexivity | reflexivity | reflexivity |].
  fold s in Hnext, Hids.
  split; [exact Hids|]. split; [exact Hnext|].
  intros id. destruct (decide _) as [Hin|Hout].
  - apply find_by_id_Some.
    assert (Hl : stored_ids s !! Z.to_nat (id - 1) = Some id).
    { rewrite Hids. apply lookup_seqZ. lia. }
    unfold stored_ids in Hl. rewrite list_lookup_fmap in Hl.
    destruct (stored_items s !! Z.to_nat (id - 1)) as [e|] eqn:He;
      [|discriminate].
    injection Hl as Hid. exists e. split; [reflexivity|]. split; [exact Hid|].
    intros j y Hy Hj Heq.
    assert (Hl : stored_ids s !! j = Some id).
    { unfold stored_ids. rewrite list_lookup_fmap, Hy. simpl. congruence. }
    rewrite Hids in Hl. apply lookup_seqZ in Hl. lia.
  - apply find_by_id_None. intros e He Heq.
    apply list_elem_of_lookup in He as [j Hj].
    assert (Hl : stored_ids s !! j = Some id).
    { unfold stored_ids. rewrite list_lookup_fmap, Hj. simpl. congruence. }
    rewrite Hids in Hl. apply lookup_seqZ in Hl. lia.
Qed.

Lemma session_file_ids_witness :
  stored_ids two_radios = [1; 2]
  ∧ find_by_id two_radios 2 = Some 1%nat
  ∧ find_by_id two_radios 3 = None.
Proof.
  destruct (session_file_ids [CmdAdd radio 100 0; CmdAdd radio_set 101 0])
    as (Hids & _ & Hfind).
  split; [etransitivity; [exact Hids | vm_compute; reflexivity]|].
  split; (etransitivity; [apply Hfind | vm_compute; reflexivity]).
Defined.

(** ** Request ids in a file-mode session *)

Lemma step_request_ids_file (s : Store) (c : Command) :
  well_formed s → use_database s = false →
  (stored_requests (step s c) = stored_requests s
   ∧ (next_request_id (step s c) = next_request_id s
      ∨ next_request_id (step s c) = int_add (next_request_id s) 1))
  ∨ (∃ req,
       stored_requests (step s c) = stored_requests s ++ [req]
       ∧ SupplyRequest.req_id req = next_request_id s
       ∧ next_request_id (step s c) = int_add (next_request_id s) 1).
Proof.
  intros Hwf Hdb.
  destruct (step_stored_requests s c Hwf)
    as [Heq|(e & q & u & p & now & db & req & -> & Heq & _ & _ & _ & _ & _
             & Hfile)].
  - left. split; [exact Heq|].
    destruct c as [d now r| | |id q now|e q u p now r| | |]; simpl;
      try (left; reflexivity).
    + left. destruct (add_equipment_stored s d now r Hwf)
        as [[_ ->]|[Hroom _]]; [reflexivity|].
      destruct (add_equipment_slot s d now r Hwf Hroom)
        as (item & _ & _ & _ & _ & _ & _ & _ & _ & _ & Hn & _).
      exact Hn.
    + left. unfold update_quantity. destruct (find_by_id s id); reflexivity.
    + destruct (request_supply_cases s e q u p now r)
        as (_ & _ & _ & _ & _ &
            [[_ ->]|[(_ & _ & _ & _ & _ & Hn)
                    |(_ & _ & _ & req & _ & _ & _ & _ & _ & _ & _ & _ & Hfile)]]).
      * left. reflexivity.
      * right. exact Hn.
      * right. apply Hfile, Hdb.
  - right. exists req. split; [exact Heq|]. split; [apply Hfile, Hdb|].
    simpl.
    destruct (request_supply_cases s e q u p now db)
      as (_ & _ & _ & _ & _ &
          [[_ Hcap]|[(_ & _ & _ & _ & _ & Hn)
                    |(_ & _ & _ & req' & _ & _ & _ & _ & _ & _ & _ & _ & Hf)]]).
    + exfalso. simpl in Heq. rewrite Hcap in Heq. simpl in Heq.
      apply (f_equal length) in Heq. rewrite length_app in Heq.
      simpl in Heq. lia.
    + exact Hn.
    + apply Hf, Hdb.
Qed.

Lemma StronglySorted_lt_snoc (l : list Z) (x : Z) :
  StronglySorted Z.lt l → Forall (λ i, i < x) l →
  StronglySorted Z.lt (l ++ [x]).
Proof.
  induction 1 as [|y l Hs IH Hy]; intros Hlt; simpl.
  - repeat constructor.
  - inversion Hlt as [|? ? Hyx Hlt']; subst.
    constructor; [apply IH; exact Hlt'|].
    apply Forall_app. split; [exact Hy | repeat constructor; exact Hyx].
Qed.

Lemma run_request_ids_file (cs : list Command) (s : Store) (k : Z) :
  well_formed s → use_database s = false →
  StronglySorted Z.lt (stored_request_ids s) →
  Forall (λ i, 1 <= i < next_request_id s) (stored_request_ids s) →
  1 <= next_request_id s <= 1 + k →
  k + Z.of_nat (length cs) < INT_MAX →
  StronglySorted Z.lt (stored_request_ids (run s cs))
  ∧ Forall (λ i, 1 <= i < next_request_id (run s cs))
           (stored_request_ids (run s cs))
  ∧ 1 <= next_request_id (run s cs) <= 1 + k + Z.of_nat (length cs).
Proof.
  revert s k. induction cs as [|c cs IH]; intros s k Hwf Hdb Hs Hlt Hn Hk.
  - simpl. split; [exact Hs|]. split; [exact Hlt | lia].
  - simpl length in *. simpl run.
    assert (Hinc : int_add (next_request_id s) 1 = next_request_id s + 1)
      by (apply int_add_exact; unfold INT_MIN, INT_MAX in *; lia).
    assert (Hstep :
      StronglySorted Z.lt (stored_request_ids (step s c))
      ∧ Forall (λ i, 1 <= i < next_request_id (step s c))
               (stored_request_ids (step s c))
      ∧ 1 <= next_request_id (step s c) <= 1 + (k + 1)).
    { unfold stored_request_ids in *.
      destruct (step_request_ids_file s c Hwf Hdb)
        as [[-> Hnext]|(req & -> & Hid & Hnext)].
      - split; [exact Hs|]. rewrite Hinc in Hnext. split.
        + eapply Forall_impl; [exact Hlt|]. simpl. intros i Hi.
          destruct Hnext as [-> | ->]; lia.
        + destruct Hnext as [-> | ->]; lia.
      - rewrite Hinc in Hnext. rewrite Hnext, fmap_app. simpl. rewrite Hid.
        split; [apply StronglySorted_lt_snoc; [exact Hs|];
                eapply Forall_impl; [exact Hlt|]; simpl; intros; lia|].
        split; [|lia].
        apply Forall_app. split.
        + eapply Forall_impl; [exact Hlt|]. simpl. intros; lia.
        + apply Forall_singleton. lia. }
    destruct Hstep as (Hs' & Hlt' & Hn').
    destruct (IH (step s c) (k + 1)) as (H1 & H2 & H3);
      [apply step_well_formed; exact Hwf
      | rewrite step_use_database; exact Hdb
      | exact Hs' | exact Hlt' | exact Hn' | lia |].
    split; [exact H1|]. split; [exact H2 | lia].
Qed.

(** X8. In a file-mode session from the initial store (shorter than INT_MAX
    commands), the ids of the stored requests increase strictly in slot
    order, so they are distinct; each is at least 1 and below
    [next_request_id], which never exceeds one plus the number of
    commands. *)
Theorem session_file_request_ids (cs : list Command) :
  Z.of_nat (length cs) < INT_MAX →
  StronglySorted Z.lt (stored_request_ids (run (init_store false) cs))
  ∧ NoDup (stored_request_ids (run (init_store false) cs))
  ∧ Forall (λ i, 1 <= i < next_request_id (run (init_store false) cs))
           (stored_request_ids (run (init_store false) cs))
  ∧ next_request_id (run (init_store false) cs) <= 1 + Z.of_nat (length cs).
Proof.
  intros Hlen.
  destruct (run_request_ids_file cs (init_store false) 0
              (well_formed_init false) eq_refl) as (Hs & Hlt & Hn);
    [unfold stored_request_ids, stored_requests; simpl; constructor
    | unfold stored_request_ids, stored_requests; simpl; constructor
    | simpl; lia | lia |].
  split; [exact Hs|]. split; [apply StronglySorted_lt_NoDup; exact Hs|].
  split; [exact Hlt | lia].
Qed.

Lemma session_file_request_ids_witness :
  StronglySorted Z.lt
    (stored_request_ids
       (run (init_store false)
          [CmdAdd radio 100 0; CmdRequest 7 3 "HQ" 2 200 0;
           CmdRequest 1 3 "HQ" 2 201 0; CmdRequest 1 1 "HQ" 1 202 0])).
Proof.
  apply session_file_request_ids. vm_compute. reflexivity.
Defined.

(** ** File mode never consults the database *)

Lemma step_without_db_reply (s : Store) (c : Command) :
  use_database s = false → step s (without_db_reply c) = step s c.
Proof.
  intros Hdb. destruct c; simpl; try reflexivity.
  - unfold add_equipment. rewrite Hdb. reflexivity.
  - unfold request_supply. rewrite Hdb. reflexivity.
Qed.

Lemma run_without_db_reply (cs : list Command) (s : Store) :
  use_database s = false → run s (without_db_reply <$> cs) = run s cs.
Proof.
  revert s. induction cs as [|c cs IH]; intros s Hdb; simpl; [reflexivity|].
  rewrite step_without_db_reply by exact Hdb.
  apply IH. rewrite step_use_database. exact Hdb.
Qed.

Lemma load_data_use_database (s : Store) (fs : Files)
    (db_items : option (list Equipment.t))
    (db_requests : option (list SupplyRequest.t)) :
  use_database (load_data s fs db_items db_requests) = use_database s.
Proof.
  unfold load_data. destruct (use_database s) eqn:Hdb.
  - unfold load_requests_from_db, load_equipment_from_db.
    destruct db_items as [rows|]; destruct db_requests as [reqs|]; simpl;
      repeat (destruct (load_equipment_rows _ _ _ _ _) as [[? ?] ?]);
      repeat (destruct (load_request_rows _ _ _ _) as [? ?]);
      simpl; exact Hdb.
  - destruct (data_file fs); destruct (request_file fs); exact Hdb.
Qed.

(** X9. When the configuration file is missing or the server refuses the
    connection, start-up gives the store that a file-mode load gives,
    whatever the database would have returned; the session stays in file
    mode and no database reply has any effect on it. *)
Theorem startup_fallback (file : option (list ascii))
    (pq_connect : list ascii → bool) (fs : Files)
    (db_items : option (list Equipment.t))
    (db_requests : option (list SupplyRequest.t)) (cs : list Command) :
  file = None
  ∨ pq_connect
      (snprintf 512
         (conninfo_text (snd (load_db_config file db_config_zero))))
    = false →
  startup file pq_connect fs db_items db_requests
  = load_data (init_store false) fs None None
  ∧ use_database (run (startup file pq_connect fs db_items db_requests) cs)
    = false
  ∧ run (startup file pq_connect fs db_items db_requests)
        (without_db_reply <$> cs)
    = run (startup file pq_connect fs db_items db_requests) cs.
Proof.
  intros Hfail.
  assert (Hoff : fst (connect_database file pq_connect db_config_zero) = false).
  { unfold connect_database. destruct Hfail as [-> | Hpq]; [reflexivity|].
    destruct file as [input|]; [|reflexivity]. simpl in *. exact Hpq. }
  assert (Hstart : startup file pq_connect fs db_items db_requests
                   = load_data (init_store false) fs None None).
  { unfold startup. rewrite Hoff. reflexivity. }
  assert (Hdb : use_database
                  (startup file pq_connect fs db_items db_requests) = false).
  { rewrite Hstart, load_data_use_database. reflexivity. }
  split; [exact Hstart|]. split.
  - rewrite run_use_database. exact Hdb.
  - apply run_without_db_reply. exact Hdb.
Qed.

Lemma startup_fallback_witness :
  startup None (λ _, true) (mkFiles None None) None None
  = load_data (init_store false) (mkFiles None None) None None.
Proof.
  apply (startup_fallback None (λ _, true) (mkFiles None None) None None []).
  left. reflexivity.
Defined.

(** ** The index after a restart *)

Lemma hash_insert_names (inv1 inv2 : list Equipment.t)
    (table : list (list nat)) (i : nat) :
  Equipment.name <$> inv1 !! i = Equipment.name <$> inv2 !! i →
  hash_insert inv1 table i = hash_insert inv2 table i.
Proof.
  unfold hash_insert. intros H.
  destruct (inv1 !! i) as [e1|], (inv2 !! i) as [e2|]; simpl in H;
    try discriminate; [|reflexivity].
  injection H as ->. reflexivity.
Qed.

Lemma hash_insert_range_names (inv1 inv2 : list Equipment.t) (n : nat) :
  ∀ (table : list (list nat)) (k : nat),
    (∀ i, (k <= i < k + n)%nat →
          Equipment.name <$> inv1 !! i = Equipment.name <$> inv2 !! i) →
    hash_insert_range inv1 table k n = hash_insert_range inv2 table k n.
Proof.
  induction n as [|n IH]; intros table k H; simpl; [reflexivity|].
  rewrite (hash_insert_names inv1 inv2) by (apply H; lia).
  apply IH. intros i Hi. apply H. lia.
Qed.

Lemma hash_insert_range_snoc (inv : list Equipment.t) (n : nat) :
  ∀ (table : list (list nat)) (k : nat),
    hash_insert_range inv table k (S n)
    = hash_insert inv (hash_insert_range inv table k n) (k + n).
Proof.
  induction n as [|n IH]; intros table k.
  - simpl. rewrite Nat.add_0_r. reflexivity.
  - change (hash_insert_range inv table k (S (S n)))
      with (hash_insert_range inv (hash_insert inv table k) (S k) (S n)).
    rewrite IH. simpl. replace (S (k + n)) with (k + S n)%nat by lia.
    reflexivity.
Qed.

Lemma index_built_init (db : bool) : index_built (init_store db).
Proof. reflexivity. Qed.

Lemma step_index_built (s : Store) (c : Command) :
  well_formed s → index_built s → index_built (step s c).
Proof.
  intros Hwf Hb. pose proof Hwf as [Hi _ Hic _]. unfold index_built in *.
  destruct c as [d now r| | |id q now|e q u p now r| | |]; cbn [step];
    try exact Hb.
  - destruct (add_equipment_stored s d now r Hwf)
      as [[_ ->]|[Hroom _]]; [exact Hb|].
    destruct (add_equipment_slot s d now r Hwf Hroom)
      as (item & Hinv & Hname & _ & _ & _ & _ & Hcount & _ & _ & _ & _ & Htab).
    rewrite Htab, Hinv, Hcount.
    replace (Z.to_nat (item_count s + 1)) with (S (Z.to_nat (item_count s)))
      by lia.
    rewrite hash_insert_range_snoc, Nat.add_0_l.
    rewrite (hash_insert_range_names
               (<[Z.to_nat (item_count s) := item]> (inventory s))
               (inventory s))
      by (intros i Hlt; rewrite list_lookup_insert_ne by lia; reflexivity).
    rewrite <- Hb. unfold hash_insert.
    rewrite list_lookup_insert_eq by (rewrite Hi; lia).
    rewrite Hname. reflexivity.
  - destruct (find_by_id s id) as [slot|] eqn:Hfind;
      [|unfold update_quantity; rewrite Hfind; exact Hb].
    destruct (update_quantity_slot s id q now slot Hfind)
      as (old & new & Hold & Hlt & -> & _ & _ & Hname & _).
    cbn [fst hash_table inventory item_count]. rewrite Hb.
    apply hash_insert_range_names.
    intros i _. destruct (decide (i = slot)) as [->|Hne].
    + rewrite list_lookup_insert_eq by (eapply lookup_lt_Some; exact Hold).
      rewrite Hold. simpl. congruence.
    + rewrite list_lookup_insert_ne by congruence. reflexivity.
  - destruct (request_supply_cases s e q u p now r)
      as (-> & -> & -> & _). exact Hb.
Qed.

Lemma run_index_built (cs : list Command) (s : Store) :
  well_formed s → index_built s → index_built (run s cs).
Proof.
  revert s. induction cs as [|c cs IH]; intros s Hwf Hb; simpl; [exact Hb|].
  apply IH; [apply step_well_formed | apply step_index_built]; assumption.
Qed.

Lemma bucket_find_ext (inv1 inv2 : list Equipment.t) (item_name : string)
    (bucket : list nat) :
  (∀ slot, slot ∈ bucket → inv1 !! slot = inv2 !! slot) →
  bucket_find inv1 item_name bucket = bucket_find inv2 item_name bucket.
Proof.
  induction bucket as [|i bucket IH]; intros H; simpl; [reflexivity|].
  rewrite (H i) by left.
  rewrite IH by (intros slot Hs; apply H; right; exact Hs). reflexivity.
Qed.

(** Two stores with the same stored records and the same index give the
    same search results. *)
Lemma check_inventory_ext (s1 s2 : Store) (item_name : string) :
  index_consistent s1 →
  stored_items s1 = stored_items s2 →
  item_count s1 = item_count s2 →
  hash_table s1 = hash_table s2 →
  check_inventory s1 item_name = check_inventory s2 item_name.
Proof.
  intros Hcons Hst Hcount Htab.
  assert (Hlook : ∀ slot, (slot < Z.to_nat (item_count s1))%nat →
                          inventory s1 !! slot = inventory s2 !! slot).
  { intros slot Hlt.
    rewrite <- (lookup_take_lt (inventory s1) (Z.to_nat (item_count s1)))
      by exact Hlt.
    rewrite <- (lookup_take_lt (inventory s2) (Z.to_nat (item_count s1)))
      by exact Hlt.
    fold (stored_items s1). rewrite Hcount. fold (stored_items s2).
    rewrite Hst. reflexivity. }
  assert (Hfind : hash_find s1 item_name = hash_find s2 item_name).
  { unfold hash_find. rewrite <- Htab.
    apply bucket_find_ext. intros slot Hs. apply Hlook.
    destruct (hash_table s1 !! Z.to_nat (hash_function item_name))
      as [b|] eqn:Hb; simpl in Hs.
    - apply (Hcons b slot); [|exact Hs].
      eapply list_elem_of_lookup_2. exact Hb.
    - apply elem_of_nil in Hs. contradiction. }
  unfold check_inventory. rewrite <- Hfind.
  destruct (hash_find s1 item_name) as [slot|] eqn:Hhit.
  - rewrite Hlook; [reflexivity|].
    destruct (hash_find_slot s1 item_name slot Hhit)
      as [(b & Hb & Hs) _]. exact (Hcons b slot Hb Hs).
  - rewrite Hst. reflexivity.
Qed.

Lemma restart_store (s : Store) (fs : Files) :
  well_formed s → use_database s = false →
  stored_items (restart s fs) = stored_items s
  ∧ item_count (restart s fs) = item_count s
  ∧ next_item_id (restart s fs) = next_item_id s
  ∧ stored_requests (restart s fs) = stored_requests s
  ∧ request_count (restart s fs) = request_count s
  ∧ next_request_id (restart s fs) = next_request_id s
  ∧ hash_table (restart s fs)
    = hash_insert_range (inventory (restart s fs))
        (replicate (Z.to_nat HASH_SIZE) []) 0 (Z.to_nat (item_count s)).
Proof.
  intros [Hi Hr Hic Hrc] Hdb.
  unfold restart, load_data, save_data. rewrite Hdb.
  change (use_database (init_store false)) with false.
  cbv beta iota. simpl negb. cbv iota.
  unfold load_request_file, load_data_file, data_file, request_file.
  unfold stored_items at 1, stored_requests at 1.
  cbn [inventory requests item_count request_count next_item_id
       next_request_id hash_table snap_count snap_next_id snap_records].
  assert (Hi0 : length (inventory (init_store false)) = Z.to_nat MAX_ITEMS)
    by exact (wf_inventory _ (well_formed_init false)).
  assert (Hr0 : length (requests (init_store false)) = Z.to_nat MAX_REQUESTS)
    by exact (wf_requests _ (well_formed_init false)).
  split; [apply fread_into_saved; lia|].
  split; [reflexivity|]. split; [reflexivity|].
  split; [apply fread_into_saved; lia|].
  repeat (split; [reflexivity|]). reflexivity.
Qed.

(** X10. Leaving a file-mode session (the snapshot is written) and starting
    again (it is read into a fresh process) gives back the stored
    records and rebuilds the same index, so every search shows the same
    records as before the exit. *)
Theorem restart_preserves_search (cs : list Command) (fs : Files)
    (item_name : string) :
  check_inventory (restart (run (init_store false) cs) fs) item_name
  = check_inventory (run (init_store false) cs) item_name
  ∧ stored_items (restart (run (init_store false) cs) fs)
    = stored_items (run (init_store false) cs)
  ∧ hash_table (restart (run (init_store false) cs) fs)
    = hash_table (run (init_store false) cs).
Proof.
  set (s := run (init_store false) cs).
  assert (Hwf : well_formed s) by apply run_well_formed, well_formed_init.
  assert (Hdb : use_database s = false) by apply run_use_database.
  assert (Hcons : index_consistent s)
    by (apply run_index_consistent;
        [apply well_formed_init | apply index_consistent_init]).
  assert (Hbuilt : index_built s)
    by (apply run_index_built; [apply well_formed_init | apply index_built_init]).
  destruct (restart_store s fs Hwf Hdb)
    as (Hst & Hcount & _ & _ & _ & _ & Htab).
  assert (Htab' : hash_table (restart s fs) = hash_table s).
  { rewrite Htab, Hbuilt. apply hash_insert_range_names.
    intros i [_ Hlt]. f_equal.
    rewrite <- (lookup_take_lt (inventory (restart s fs))
                  (Z.to_nat (item_count s))) by lia.
    rewrite <- (lookup_take_lt (inventory s) (Z.to_nat (item_count s)))
      by lia.
    fold (stored_items s). rewrite <- Hst, <- Hcount. reflexivity. }
  split; [|split; [exact Hst | exact Htab']].
  symmetry. apply check_inventory_ext; auto.
Qed.

Lemma restart_preserves_search_witness :
  check_inventory (restart two_radios (mkFiles None None)) "radio"
  = check_inventory two_radios "radio".
Proof.
  exact (proj1 (restart_preserves_search
                  [CmdAdd radio 100 0; CmdAdd radio_set 101 0]
                  (mkFiles None None) "radio")).
Defined.

(** ** Capacity *)

(** X11. In every state of a session started from the initial store the counts
    stay within the arrays, the arrays keep their declared sizes and hold
    exactly [item_count] and [request_count] stored records; when a count
    has reached its maximum, the creating command reports
    CapacityExceeded and leaves the store as it is. *)
Theorem session_capacity (db : bool) (cs : list Command) :
  0 <= item_count (run (init_store db) cs) <= MAX_ITEMS
  ∧ 0 <= request_count (run (init_store db) cs) <= MAX_REQUESTS
  ∧ length (inventory (run (init_store db) cs)) = Z.to_nat MAX_ITEMS
  ∧ length (requests (run (init_store db) cs)) = Z.to_nat MAX_REQUESTS
  ∧ length (stored_items (run (init_store db) cs))
    = Z.to_nat (item_count (run (init_store db) cs))
  ∧ length (stored_requests (run (init_store db) cs))
    = Z.to_nat (request_count (run (init_store db) cs))
  ∧ (item_count (run (init_store db) cs) = MAX_ITEMS →
     ∀ d now db_reply,
       add_equipment (run (init_store db) cs) d now db_reply
       = (run (init_store db) cs, CapacityExceeded))
  ∧ (request_count (run (init_store db) cs) = MAX_REQUESTS →
     ∀ e q u p now db_reply,
       request_supply (run (init_store db) cs) e q u p now db_reply
       = (run (init_store db) cs, CapacityExceeded)).
Proof.
  set (s := run (init_store db) cs).
  assert (Hwf : well_formed s) by apply run_well_formed, well_formed_init.
  pose proof Hwf as [Hi Hr Hic Hrc].
  split; [exact Hic|]. split; [exact Hrc|]. split; [exact Hi|].
  split; [exact Hr|].
  split; [apply stored_items_length; exact Hwf|].
  split; [apply stored_requests_length; exact Hwf|].
  split.
  - intros Hfull d now r. unfold add_equipment. rewrite Hfull. reflexivity.
  - intros Hfull e q u p now r. unfold request_supply. rewrite Hfull.
    reflexivity.
Qed.

Lemma session_capacity_witness :
  0 <= item_count two_radios <= MAX_ITEMS
  ∧ length (stored_items two_radios) = Z.to_nat (item_count two_radios).
Proof.
  destruct (session_capacity false
              [CmdAdd radio 100 0; CmdAdd radio_set 101 0])
    as (Hic & _ & _ & _ & Hlen & _).
  split; [exact Hic | exact Hlen].
Defined.

(** ** Low stock *)

Lemma is_low_iff (e : Equipment.t) :
  Is_true (is_low e) ↔ Equipment.quantity e <= Equipment.min_threshold e.
Proof.
  unfold is_low, get_stock_status.
  destruct (Z.leb_spec (Equipment.quantity e) (Equipment.min_threshold e))
    as [Hle|Hgt].
  - simpl. tauto.
  - destruct (int_of_times_1_5 (Equipment.min_threshold e)) as [w|];
      [destruct (Equipment.quantity e <=? w)|]; simpl; split;
      (contradiction || lia).
Qed.

Lemma export_low_stock_count (l : list Equipment.t) (n : Z) :
  fold_left (λ low_stock e, if is_low e then low_stock + 1 else low_stock) l n
  = n + Z.of_nat (length (filter (λ e, Is_true (is_low e)) l)).
Proof.
  revert n. induction l as [|e l IH]; intros n; simpl; [lia|].
  rewrite IH. destruct (is_low e) eqn:He.
  - rewrite filter_cons_True by (rewrite He; exact I). simpl. lia.
  - rewrite filter_cons_False by (rewrite He; simpl; tauto). lia.
Qed.

(** X12. [low_stock_alert] lists, in store order, exactly the stored records
    whose quantity is at most their threshold, whatever the scaled
    threshold of the other records is, and the count written by
    [export_report] equals the number of records listed. *)
Theorem low_stock_alert_lists_low_items (s : Store) :
  low_stock_alert s
  = filter (λ e, Equipment.quantity e <= Equipment.min_threshold e)
           (stored_items s)
  ∧ (∀ e, e ∈ low_stock_alert s
          ↔ e ∈ stored_items s
            ∧ Equipment.quantity e <= Equipment.min_threshold e)
  ∧ export_low_stock s = Z.of_nat (length (low_stock_alert s)).
Proof.
  assert (Heq : low_stock_alert s
                = filter (λ e, Equipment.quantity e
                               <= Equipment.min_threshold e)
                         (stored_items s)).
  { unfold low_stock_alert. apply list_filter_iff. intros e. apply is_low_iff. }
  split; [exact Heq|]. split.
  - intros e. rewrite Heq, list_elem_of_filter. tauto.
  - unfold export_low_stock, low_stock_alert.
    rewrite export_low_stock_count. lia.
Qed.

Lemma low_stock_alert_lists_low_items_witness :
  export_low_stock two_radios = Z.of_nat (length (low_stock_alert two_radios))
  ∧ low_stock_alert two_radios = [].
Proof.
  destruct (low_stock_alert_lists_low_items two_radios) as (Heq & _ & Hcount).
  split; [exact Hcount|]. rewrite Heq. vm_compute. reflexivity.
Defined.

(** X13. After a quantity update of a record that exists, the updated record
    keeps its threshold and is on the low-stock list exactly when the
    new quantity is at most that threshold. *)
Theorem update_quantity_low_stock (s : Store) (id new_quantity now : Z)
    (slot : nat) :
  find_by_id s id = Some slot →
  ∃ old new,
    stored_items s !! slot = Some old
    ∧ stored_items (fst (update_quantity s id new_quantity now)) !! slot
      = Some new
    ∧ Equipment.min_threshold new = Equipment.min_threshold old
    ∧ (new ∈ low_stock_alert (fst (update_quantity s id new_quantity now))
       ↔ new_quantity <= Equipment.min_threshold old).
Proof.
  intros Hfind.
  destruct (update_quantity_slot s id new_quantity now slot Hfind)
    as (old & new & Hold & Hlt & Heq & _ & _ & _ & Ht & _ & Hq & _).
  assert (Hnew : stored_items (fst (update_quantity s id new_quantity now))
                   !! slot = Some new).
  { rewrite Heq. unfold stored_items. simpl.
    rewrite stored_items_after_update by exact Hlt.
    apply list_lookup_insert_eq. unfold stored_items.
    rewrite length_take. apply lookup_lt_Some in Hold. lia. }
  exists old, new. split; [apply stored_items_lookup; auto|].
  split; [exact Hnew|]. split; [exact Ht|].
  unfold low_stock_alert. rewrite list_elem_of_filter, is_low_iff, Hq, Ht.
  split; [tauto|]. intros Hle. split; [exact Hle|].
  eapply list_elem_of_lookup_2. exact Hnew.
Qed.

Lemma update_quantity_low_stock_witness :
  ∃ new,
    stored_items (fst (update_quantity one_radio 1 3 150)) !! 0%nat = Some new
    ∧ new ∈ low_stock_alert (fst (update_quantity one_radio 1 3 150)).
Proof.
  destruct (update_quantity_low_stock one_radio 1 3 150 0)
    as (old & new & Hold & Hnew & _ & Hlow); [vm_compute; reflexivity|].
  exists new. split; [exact Hnew|]. apply Hlow.
  vm_compute in Hold. injection Hold as <-. vm_compute. discriminate.
Defined.

(** ** Reading a line *)

Lemma fgets_chars_split (room : nat) (input : list ascii) :
  fst (fgets_chars room input) ++ snd (fgets_chars room input) = input
  ∧ (length (fst (fgets_chars room input)) <= room)%nat.
Proof.
  revert input. induction room as [|room IH]; intros input; simpl.
  - split; [reflexivity | lia].
  - destruct input as [|c rest]; [split; [reflexivity | simpl; lia]|].
    destruct (Ascii.eqb c newline); [split; [reflexivity | simpl; lia]|].
    destruct (IH rest) as [Happ Hlen].
    destruct (fgets_chars room rest) as [line rest']. simpl in *.
    split; [f_equal; exact Happ | lia].
Qed.

Lemma strcspn_cut_spec (line : list ascii) :
  (length (strcspn_cut line) <= length line)%nat
  ∧ (newline ∉ strcspn_cut line)
  ∧ (Ascii.zero ∉ strcspn_cut line).
Proof.
  induction line as [|c line IH]; simpl.
  - split; [lia|]. split; apply not_elem_of_nil.
  - destruct IH as (Hlen & Hnl & Hz).
    destruct (Ascii.eqb c Ascii.zero) eqn:Hc0; simpl.
    { split; [lia|]. split; apply not_elem_of_nil. }
    destruct (Ascii.eqb c newline) eqn:Hcn; simpl.
    { split; [lia|]. split; apply not_elem_of_nil. }
    apply Ascii.eqb_neq in Hc0, Hcn.
    split; [lia|]. split; rewrite not_elem_of_cons; split; auto.
Qed.

Lemma strcspn_cut_plain (line rest : list ascii) :
  newline ∉ line → Ascii.zero ∉ line →
  strcspn_cut (line ++ newline :: rest) = line
  ∧ strcspn_cut line = line.
Proof.
  induction line as [|c line IH]; intros Hnl Hz; simpl.
  - split; reflexivity.
  - apply not_elem_of_cons in Hnl as [Hc Hnl].
    apply not_elem_of_cons in Hz as [Hc0 Hz].
    destruct (Ascii.eqb_spec c Ascii.zero) as [?|_]; [congruence|].
    destruct (Ascii.eqb_spec c newline) as [?|_]; [congruence|].
    simpl. destruct (IH Hnl Hz) as [-> ->]. split; reflexivity.
Qed.

Lemma c_chars_string_of_list (l : list ascii) :
  Ascii.zero ∉ l → c_chars (string_of_list_ascii l) = l.
Proof.
  induction l as [|c l IH]; intros Hz; simpl; [reflexivity|].
  apply not_elem_of_cons in Hz as [Hc Hz].
  destruct (Ascii.eqb_spec c Ascii.zero) as [?|_]; [congruence|].
  rewrite IH by exact Hz. reflexivity.
Qed.

Lemma fgets_chars_line (room : nat) (line rest : list ascii) :
  newline ∉ line → (length line < room)%nat →
  fgets_chars room (line ++ newline :: rest) = (line ++ [newline], rest).
Proof.
  revert room. induction line as [|c line IH]; intros room Hnl Hlen; simpl in *.
  - destruct room as [|room]; [lia|]. reflexivity.
  - apply not_elem_of_cons in Hnl as [Hc Hnl].
    destruct room as [|room]; [lia|]. simpl.
    destruct (Ascii.eqb_spec c newline) as [?|_]; [congruence|].
    rewrite IH by (auto; lia). reflexivity.
Qed.

Lemma fgets_chars_long (room : nat) (pre rest : list ascii) :
  newline ∉ pre → length pre = room →
  fgets_chars room (pre ++ rest) = (pre, rest).
Proof.
  revert room. induction pre as [|c pre IH]; intros room Hnl Hlen; simpl in *.
  - subst room. reflexivity.
  - apply not_elem_of_cons in Hnl as [Hc Hnl].
    destruct room as [|room]; [lia|]. simpl.
    destruct (Ascii.eqb_spec c newline) as [?|_]; [congruence|].
    rewrite IH by (auto; lia). reflexivity.
Qed.

Lemma fgets_cons (n : Z) (c : ascii) (input : list ascii) :
  2 <= n →
  fgets n (c :: input) = Some (fgets_chars (Z.to_nat (n - 1)) (c :: input)).
Proof.
  intros Hn. unfold fgets.
  destruct (Z.leb_spec n 0); [lia|]. destruct (Z.eqb_spec n 1); [lia|].
  reflexivity.
Qed.

Lemma fgets_null (n : Z) (input : list ascii) : n <= 0 → fgets n input = None.
Proof. intros Hn. unfold fgets. destruct (Z.leb_spec n 0); [reflexivity|lia]. Qed.

Lemma fgets_eof (n : Z) : n ≠ 1 → fgets n [] = None.
Proof.
  intros Hn. unfold fgets.
  destruct (Z.leb_spec n 0); [reflexivity|].
  destruct (Z.eqb_spec n 1); [lia|reflexivity].
Qed.

(** X14. With a buffer size between 1 and [INT_MAX] and input that has not
    ended, [get_string_input] leaves in the buffer a string of at most
    [buffer_size - 1] characters with no newline, and has taken at most
    [buffer_size - 1] characters from the input. With a size that
    converts to an [int] that is not positive, 0 for one, [fgets]
    returns NULL: the buffer and the input stay as they were. *)
Theorem get_string_input_fits (buffer : string) (buffer_size : Z)
    (input : list ascii) :
  (1 <= buffer_size <= INT_MAX → input ≠ [] →
   Z.of_nat (length (c_chars (fst (get_string_input buffer buffer_size input))))
   <= buffer_size - 1
   ∧ (newline ∉ c_chars (fst (get_string_input buffer buffer_size input)))
   ∧ ∃ consumed,
       input = consumed ++ snd (get_string_input buffer buffer_size input)
       ∧ Z.of_nat (length consumed) <= buffer_size - 1)
  ∧ (wrap_int buffer_size <= 0 →
     get_string_input buffer buffer_size input = (buffer, input)).
Proof.
  split.
  - intros Hsize Hne. unfold get_string_input.
    rewrite wrap_int_id by (unfold INT_MIN; lia).
    destruct input as [|c input]; [congruence|].
    destruct (Z.eq_dec buffer_size 1) as [->|Hone].
    { cbn. split; [lia|]. split; [apply not_elem_of_nil|].
      exists []. split; [reflexivity | simpl; lia]. }
    rewrite fgets_cons by lia.
    destruct (fgets_chars_split (Z.to_nat (buffer_size - 1)) (c :: input))
      as [Happ Hlen].
    destruct (fgets_chars (Z.to_nat (buffer_size - 1)) (c :: input))
      as [line rest].
    cbn [fst snd] in *.
    destruct (strcspn_cut_spec line) as (Hcut & Hnl & Hz).
    rewrite c_chars_string_of_list by exact Hz.
    split; [lia|]. split; [exact Hnl|].
    exists line. split; [symmetry; exact Happ | lia].
  - intros Hsize. unfold get_string_input.
    rewrite fgets_null by exact Hsize. reflexivity.
Qed.

Lemma get_string_input_fits_witness :
  Z.of_nat (length (c_chars (fst (get_string_input "" 64
                                    (list_ascii_of_string "Radio")))))
  <= 63
  ∧ get_string_input "old" 0 (list_ascii_of_string "Radio")
    = ("old"%string, list_ascii_of_string "Radio").
Proof.
  split.
  - apply (get_string_input_fits "" 64 (list_ascii_of_string "Radio")).
    + vm_compute. split; discriminate.
    + discriminate.
  - apply (get_string_input_fits "old" 0 (list_ascii_of_string "Radio")).
    vm_compute. discriminate.
Defined.

(** X15. With a buffer size between 1 and [INT_MAX]: a line that fits the
    buffer with its newline is stored whole and consumed with its
    newline. A text of exactly [buffer_size - 1] characters fills the
    buffer and whatever follows, the newline of the line included, is
    left for the next prompt. At end of input a buffer of two bytes or
    more keeps its contents; a buffer of one byte is emptied, since
    [fgets] stores the NUL without reading. *)
Theorem get_string_input_line (buffer : string) (buffer_size : Z)
    (line rest : list ascii) :
  newline ∉ line → Ascii.zero ∉ line →
  1 <= buffer_size <= INT_MAX →
  (Z.of_nat (length line) + 1 < buffer_size →
   get_string_input buffer buffer_size (line ++ newline :: rest)
   = (string_of_list_ascii line, rest))
  ∧ (Z.of_nat (length line) + 1 = buffer_size →
     get_string_input buffer buffer_size (line ++ rest)
     = (string_of_list_ascii line, rest))
  ∧ (2 <= buffer_size →
     get_string_input buffer buffer_size [] = (buffer, []))
  ∧ (buffer_size = 1 →
     get_string_input buffer buffer_size [] = (EmptyString, [])).
Proof.
  intros Hnl Hz Hsize. unfold get_string_input.
  rewrite wrap_int_id by (unfold INT_MIN; lia).
  split; [|split; [|split]].
  - intros Hlen.
    destruct (line ++ newline :: rest) as [|c l] eqn:Hin;
      [destruct line; discriminate|].
    rewrite fgets_cons by lia. rewrite <- Hin.
    rewrite fgets_chars_line by (auto; lia).
    rewrite (proj1 (strcspn_cut_plain line [] Hnl Hz)). reflexivity.
  - intros Hlen.
    destruct (Z.eq_dec buffer_size 1) as [->|Hone].
    { destruct line; [reflexivity | simpl in Hlen; lia]. }
    destruct (line ++ rest) as [|c l] eqn:Hin.
    { destruct line; [simpl in Hlen; lia | discriminate]. }
    rewrite fgets_cons by lia. rewrite <- Hin.
    rewrite fgets_chars_long by (auto; lia).
    rewrite (proj2 (strcspn_cut_plain line [] Hnl Hz)). reflexivity.
  - intros Htwo. rewrite fgets_eof by lia. reflexivity.
  - intros ->. reflexivity.
Qed.

Lemma get_string_input_line_witness :
  get_string_input "" 64
    (list_ascii_of_string "Radio" ++ newline :: list_ascii_of_string "rest")
  = ("Radio"%string, list_ascii_of_string "rest")
  ∧ get_string_input "old" 64 [] = ("old"%string, [])
  ∧ get_string_input "old" 1 [] = (EmptyString, []).
Proof.
  assert (Hplain : ∀ l : list ascii,
             forallb (λ c, negb (Ascii.eqb c newline)
                           && negb (Ascii.eqb c Ascii.zero)) l = true →
             (newline ∉ l) ∧ (Ascii.zero ∉ l)).
  { induction l as [|c l IH]; simpl.
    - intros _. split; apply not_elem_of_nil.
    - intros H. apply andb_true_iff in H as [Hc Hl].
      apply andb_true_iff in Hc as [Hc1 Hc2].
      apply negb_true_iff, Ascii.eqb_neq in Hc1, Hc2.
      destruct (IH Hl) as [H1 H2].
      split; rewrite not_elem_of_cons; split; auto. }
  destruct (Hplain (list_ascii_of_string "Radio") eq_refl) as [Hnl Hz].
  split; [|split].
  - refine (proj1 (get_string_input_line "" 64 (list_ascii_of_string "Radio")
                     (list_ascii_of_string "rest") Hnl Hz _) _).
    + vm_compute. split; discriminate.
    + simpl. lia.
  - refine (proj1 (proj2 (proj2 (get_string_input_line "old" 64
                     (list_ascii_of_string "Radio") [] Hnl Hz _))) _).
    + vm_compute. split; discriminate.
    + lia.
  - refine (proj2 (proj2 (proj2 (get_string_input_line "old" 1
                     (list_ascii_of_string "Radio") [] Hnl Hz _))) _).
    + vm_compute. split; discriminate.
    + reflexivity.
Defined.

(** ** Reading a number *)

(** X16. Whenever [get_int_input] returns, the value lies between [min_val]
    and [max_val], and at least one line of input has been used. *)
Theorem get_int_input_in_range (min_val max_val value : Z)
    (attempts : list Attempt) (v : Z) (rest : list Attempt) :
  get_int_input min_val max_val value attempts = Some (v, rest) →
  min_val <= v <= max_val
  ∧ ∃ used, attempts = used ++ rest ∧ used ≠ [].
Proof.
  revert value. induction attempts as [|a attempts IH]; intros value;
    simpl; [discriminate|].
  destruct a as [w|].
  - destruct (Z.ltb_spec w min_val); simpl.
    { intros Hres. destruct (IH _ Hres) as [Hr (used & -> & _)].
      split; [exact Hr|]. exists (Parsed w :: used). split; [reflexivity|].
      discriminate. }
    destruct (Z.gtb_spec w max_val).
    { intros Hres. destruct (IH _ Hres) as [Hr (used & -> & _)].
      split; [exact Hr|]. exists (Parsed w :: used). split; [reflexivity|].
      discriminate. }
    intros [= <- <-]. split; [lia|]. exists [Parsed w].
    split; [reflexivity | discriminate].
  - destruct (Z.ltb_spec value min_val); simpl.
    { intros Hres. destruct (IH _ Hres) as [Hr (used & -> & _)].
      split; [exact Hr|]. exists (Mismatch :: used). split; [reflexivity|].
      discriminate. }
    destruct (Z.gtb_spec value max_val).
    { intros Hres. destruct (IH _ Hres) as [Hr (used & -> & _)].
      split; [exact Hr|]. exists (Mismatch :: used). split; [reflexivity|].
      discriminate. }
    intros [= <- <-]. split; [lia|]. exists [Mismatch].
    split; [reflexivity | discriminate].
Qed.

Lemma get_int_input_in_range_witness : 0 <= 7 <= 9.
Proof.
  apply (get_int_input_in_range 0 9 (-1) [Mismatch; Parsed 12; Parsed 7]
           7 []).
  reflexivity.
Defined.

Lemma get_int_input_skips (min_val max_val : Z) (pre : list Attempt) :
  ∀ (value v : Z) (rest : list Attempt),
    Forall (rejected min_val max_val) pre →
    (value < min_val ∨ max_val < value) →
    min_val <= v <= max_val →
    get_int_input min_val max_val value (pre ++ Parsed v :: rest)
    = Some (v, rest).
Proof.
  induction pre as [|a pre IH]; intros value v rest Hpre Hval Hv; simpl.
  - destruct (Z.ltb_spec v min_val); [lia|].
    destruct (Z.gtb_spec v max_val); [lia|]. reflexivity.
  - inversion Hpre as [|? ? Ha Hpre']; subst. destruct a as [w|].
    + simpl in Ha.
      assert ((w <? min_val) || (w >? max_val) = true) as ->.
      { destruct (Z.ltb_spec w min_val); [reflexivity|].
        destruct (Z.gtb_spec w max_val); [reflexivity | lia]. }
      apply IH; assumption.
    + assert ((value <? min_val) || (value >? max_val) = true) as ->.
      { destruct (Z.ltb_spec value min_val); [reflexivity|].
        destruct (Z.gtb_spec value max_val); [reflexivity | lia]. }
      apply IH; assumption.
Qed.

(** X17. [get_int_input] returns the first number typed that is in range,
    skipping lines that are not numbers and numbers out of range,
    provided the first line is a number or the uninitialised variable is
    out of range. When the first line is not a number and the variable
    happens to hold a value in range, that value is returned. *)
Theorem get_int_input_first_valid (min_val max_val value : Z) :
  (∀ (pre rest : list Attempt) (v : Z),
     Forall (rejected min_val max_val) pre →
     min_val <= v <= max_val →
     ((value < min_val ∨ max_val < value) ∨ pre = []
      ∨ ∃ w pre', pre = Parsed w :: pre') →
     get_int_input min_val max_val value (pre ++ Parsed v :: rest)
     = Some (v, rest))
  ∧ (∀ attempts : list Attempt,
       min_val <= value <= max_val →
       get_int_input min_val max_val value (Mismatch :: attempts)
       = Some (value, attempts)).
Proof.
  split.
  - intros pre rest v Hpre Hv [Hval|[->|(w & pre' & ->)]].
    + apply get_int_input_skips; assumption.
    + simpl. destruct (Z.ltb_spec v min_val); [lia|].
      destruct (Z.gtb_spec v max_val); [lia|]. reflexivity.
    + inversion Hpre as [|? ? Hw Hpre']; subst. simpl in Hw. simpl.
      assert ((w <? min_val) || (w >? max_val) = true) as ->.
      { destruct (Z.ltb_spec w min_val); [reflexivity|].
        destruct (Z.gtb_spec w max_val); [reflexivity | lia]. }
      apply get_int_input_skips; assumption.
  - intros attempts Hv. simpl.
    destruct (Z.ltb_spec value min_val); [lia|].
    destruct (Z.gtb_spec value max_val); [lia|]. reflexivity.
Qed.

Lemma get_int_input_first_valid_witness :
  get_int_input 0 9 (-1) ([Mismatch; Parsed 12] ++ Parsed 7 :: [Parsed 3])
  = Some (7, [Parsed 3]).
Proof.
  apply (proj1 (get_int_input_first_valid 0 9 (-1))).
  - constructor; [exact I|]. constructor; [simpl; lia|]. constructor.
  - lia.
  - left. lia.
Defined.

(** ** The configuration file *)

Lemma c_chars_length_list (l : list ascii) :
  (length (c_chars (string_of_list_ascii l)) <= length l)%nat.
Proof.
  induction l as [|c l IH]; simpl; [lia|].
  destruct (Ascii.eqb c Ascii.zero); simpl; lia.
Qed.

Lemma strncpy_field_fits (size skip : nat) (line : list ascii) :
  (length (c_chars (strncpy_field size skip line)) <= size - 1)%nat.
Proof.
  unfold strncpy_field.
  etransitivity; [apply c_chars_length_list|].
  rewrite length_take. lia.
Qed.

Lemma config_line_fits (line : list ascii) (cfg : DBConfig) :
  config_fits cfg → config_fits (config_line line cfg).
Proof.
  intros (Hh & Hp & Hd & Hu & Hw). unfold config_line.
  repeat (destruct (has_key _ line);
          [unfold config_fits; cbn [host port dbname user password];
           repeat split;
           first [assumption | apply (strncpy_field_fits 64)
                 | apply (strncpy_field_fits 8)
                 | apply (strncpy_field_fits 128)]|]).
  repeat split; assumption.
Qed.

Lemma read_config_fits (fuel : nat) :
  ∀ (input : list ascii) (cfg : DBConfig),
    config_fits cfg → config_fits (read_config fuel input cfg).
Proof.
  induction fuel as [|fuel IH]; intros input cfg Hfit; simpl; [exact Hfit|].
  destruct (fgets 256 input) as [[line rest]|]; [|exact Hfit].
  apply IH, config_line_fits, Hfit.
Qed.

Lemma fgets_chars_nonempty (room : nat) (c : ascii) (input : list ascii) :
  fst (fgets_chars (S room) (c :: input)) ≠ [].
Proof.
  simpl. destruct (Ascii.eqb c newline); [discriminate|].
  destruct (fgets_chars room input). discriminate.
Qed.

(** Once the input is used up, more rounds change nothing: the number
    of rounds given to [read_config] by [load_db_config] is enough. *)
Lemma read_config_fuel (fuel : nat) :
  ∀ (input : list ascii) (cfg : DBConfig) (more : nat),
    (length input <= fuel)%nat →
    read_config (fuel + more) input cfg = read_config fuel input cfg.
Proof.
  induction fuel as [|fuel IH]; intros input cfg more Hlen.
  - destruct input; [|simpl in Hlen; lia].
    destruct more; reflexivity.
  - cbn [Nat.add read_config].
    destruct input as [|c input]; [reflexivity|].
    rewrite fgets_cons by lia.
    change (Z.to_nat (256 - 1)) with (S 254).
    destruct (fgets_chars_split (S 254) (c :: input)) as [Happ _].
    pose proof (fgets_chars_nonempty 254 c input) as Hne.
    destruct (fgets_chars (S 254) (c :: input)) as [line rest].
    cbn [fst snd] in Happ, Hne.
    apply IH.
    apply (f_equal length) in Happ. rewrite length_app in Happ.
    destruct line; [congruence|]. simpl in Happ, Hlen. lia.
Qed.

Lemma conninfo_length (cfg : DBConfig) :
  length (conninfo_text cfg)
  = (35 + length (c_chars (host cfg)) + length (c_chars (port cfg))
     + length (c_chars (dbname cfg)) + length (c_chars (user cfg))
     + length (c_chars (password cfg)))%nat.
Proof. unfold conninfo_text. rewrite !length_app. simpl. lia. Qed.

(** X18. Whatever the configuration file contains, each value read fits its
    field (63, 7, 63, 63 and 127 characters), the connection string has
    at most 358 characters, and [snprintf] into the 512-byte buffer
    writes it whole. *)
Theorem connect_database_conninfo_fits (input : list ascii) :
  config_fits (snd (load_db_config (Some input) db_config_zero))
  ∧ (length (conninfo_text (snd (load_db_config (Some input) db_config_zero)))
     <= 358)%nat
  ∧ snprintf 512 (conninfo_text (snd (load_db_config (Some input) db_config_zero)))
    = conninfo_text (snd (load_db_config (Some input) db_config_zero)).
Proof.
  assert (Hfit : config_fits (snd (load_db_config (Some input) db_config_zero))).
  { simpl. apply read_config_fits. repeat split; simpl; lia. }
  assert (Hlen : (length (conninfo_text
                            (snd (load_db_config (Some input) db_config_zero)))
                  <= 358)%nat).
  { rewrite conninfo_length. destruct Hfit as (? & ? & ? & ? & ?). lia. }
  split; [exact Hfit|]. split; [exact Hlen|].
  unfold snprintf. apply take_ge. lia.
Qed.

Lemma read_config_lines (lines : list (list ascii)) :
  ∀ (cfg : DBConfig) (more : nat),
    Forall (λ line, (newline ∉ line) ∧ (length line < 255)%nat) lines →
    read_config (length (file_of_lines lines) + more) (file_of_lines lines) cfg
    = fold_left (λ cfg line, config_line (strcspn_cut line) cfg) lines cfg.
Proof.
  induction lines as [|line lines IH]; intros cfg more Hlines.
  - destruct more; reflexivity.
  - inversion Hlines as [|? ? [Hnl Hlen] Hrest]; subst.
    unfold file_of_lines. rewrite fmap_cons. simpl concat.
    fold (file_of_lines lines).
    rewrite <- app_assoc. simpl app at 2.
    rewrite !length_app. simpl length.
    replace (length line + S (length (file_of_lines lines)) + more)%nat
      with (S (length (file_of_lines lines) + (length line + more)))%nat by lia.
    cbn [read_config].
    change ([newline] ++ file_of_lines lines)
      with (newline :: file_of_lines lines).
    destruct (line ++ newline :: file_of_lines lines) as [|c l] eqn:Hin;
      [destruct line; discriminate|].
    rewrite fgets_cons by lia. rewrite <- Hin.
    change (Z.to_nat (256 - 1)) with 255%nat.
    rewrite fgets_chars_line by (auto; simpl; lia).
    rewrite IH by exact Hrest. simpl fold_left. f_equal. f_equal.
    clear -Hnl. induction line as [|c line IHl]; simpl; [reflexivity|].
    apply not_elem_of_cons in Hnl as [Hc Hnl].
    destruct (Ascii.eqb c Ascii.zero); simpl; [reflexivity|].
    destruct (Ascii.eqb_spec c newline) as [?|_]; [congruence|].
    rewrite IHl by exact Hnl. reflexivity.
Qed.

Lemma config_line_password (line : list ascii) (cfg : DBConfig) :
  has_key (list_ascii_of_string "password=") line = false →
  password (config_line line cfg) = password cfg.
Proof.
  intros Hkey. unfold config_line. rewrite Hkey.
  destruct (has_key (list_ascii_of_string "host=") line); [reflexivity|].
  destruct (has_key (list_ascii_of_string "port=") line); [reflexivity|].
  destruct (has_key (list_ascii_of_string "dbname=") line); [reflexivity|].
  destruct (has_key (list_ascii_of_string "user=") line); reflexivity.
Qed.

(** X19. A configuration file made of lines shorter than 255 characters is
    processed line by line in order, and the load reports success. A
    file without any [password=] line leaves the password as it was:
    a missing key is not reported. *)
Theorem load_db_config_lines (lines : list (list ascii)) (cfg : DBConfig) :
  Forall (λ line, (newline ∉ line) ∧ (length line < 255)%nat) lines →
  load_db_config (Some (file_of_lines lines)) cfg
  = (true, fold_left (λ cfg line, config_line (strcspn_cut line) cfg)
             lines cfg)
  ∧ (Forall (λ line, has_key (list_ascii_of_string "password=")
                       (strcspn_cut line) = false) lines →
     password (snd (load_db_config (Some (file_of_lines lines)) cfg))
     = password cfg).
Proof.
  intros Hlines.
  assert (Heq : load_db_config (Some (file_of_lines lines)) cfg
                = (true, fold_left
                           (λ cfg line, config_line (strcspn_cut line) cfg)
                           lines cfg)).
  { unfold load_db_config. f_equal.
    rewrite <- (Nat.add_0_r (length (file_of_lines lines))).
    apply read_config_lines. exact Hlines. }
  split; [exact Heq|]. rewrite Heq. simpl. clear.
  revert cfg. induction lines as [|line lines IH]; intros cfg Hno; simpl;
    [reflexivity|].
  inversion Hno as [|? ? Hl Hrest]; subst.
  rewrite IH by exact Hrest. apply config_line_password. exact Hl.
Qed.

Lemma load_db_config_lines_witness :
  load_db_config
    (Some (file_of_lines [list_ascii_of_string "host=db1";
                          list_ascii_of_string "port=5432"]))
    db_config_zero
  = (true, mkDBConfig "db1" "5432" "" "" "").
Proof.
  assert (Hplain : ∀ l : list ascii,
            forallb (λ c, negb (Ascii.eqb c newline)) l = true →
            newline ∉ l).
  { intros l Hl Hin. rewrite forallb_forall in Hl.
    apply list_elem_of_In in Hin. specialize (Hl _ Hin).
    rewrite Ascii.eqb_refl in Hl. discriminate. }
  destruct (load_db_config_lines
              [list_ascii_of_string "host=db1";
               list_ascii_of_string "port=5432"] db_config_zero)
    as [Heq _].
  - constructor; [split; [apply Hplain; reflexivity | simpl; lia]|].
    constructor; [split; [apply Hplain; reflexivity | simpl; lia]|].
    constructor.
  - rewrite Heq. vm_compute. reflexivity.
Defined.

(** ** Loading from the database *)

Lemma load_request_rows_requests (rows : list SupplyRequest.t) (i : nat)
    (reqs : list SupplyRequest.t) (next : Z) :
  (i + length rows <= length reqs)%nat →
  fst (load_request_rows rows i reqs next)
  = take i reqs ++ rows ++ drop (i + length rows) reqs.
Proof.
  revert i reqs next.
  induction rows as [|row rows IH]; intros i reqs next Hlen; simpl in *.
  - rewrite Nat.add_0_r, take_drop. reflexivity.
  - rewrite IH by (rewrite length_insert; lia).
    rewrite (take_S_r _ _ row) by (apply list_lookup_insert_eq; lia).
    rewrite take_insert_ge by lia.
    rewrite drop_insert_lt by lia.
    rewrite <- app_assoc. simpl.
    replace (S (i + length rows)) with (i + S (length rows))%nat by lia.
    reflexivity.
Qed.

Lemma load_request_rows_counter (rows : list SupplyRequest.t) (i : nat)
    (reqs : list SupplyRequest.t) (next : Z) :
  Forall (λ row, INT_MIN <= SupplyRequest.req_id row < INT_MAX) rows →
  next <= snd (load_request_rows rows i reqs next)
  ∧ Forall (λ row,
      SupplyRequest.req_id row < snd (load_request_rows rows i reqs next))
      rows.
Proof.
  revert i reqs next.
  induction rows as [|row rows IH]; intros i reqs next Hrows; simpl.
  - split; [lia | constructor].
  - inversion Hrows as [|? ? Hrow Hrest]; subst.
    set (next1 := if SupplyRequest.req_id row >=? next
                  then int_add (SupplyRequest.req_id row) 1 else next).
    assert (Hnext1 : next <= next1 ∧ SupplyRequest.req_id row < next1).
    { unfold next1. destruct (Z.geb_spec (SupplyRequest.req_id row) next).
      - rewrite int_add_exact by (unfold INT_MIN, INT_MAX in *; lia). lia.
      - lia. }
    destruct (IH (S i) (<[i:=row]> reqs) next1 Hrest) as [Hle Hall].
    split; [lia|]. constructor; [lia | exact Hall].
Qed.

Lemma load_equipment_from_db_shape (s : Store) (rows : list Equipment.t) :
  requests (load_equipment_from_db s (Some rows)) = requests s
  ∧ request_count (load_equipment_from_db s (Some rows)) = request_count s
  ∧ next_request_id (load_equipment_from_db s (Some rows)) = next_request_id s
  ∧ item_count (load_equipment_from_db s (Some rows))
    = Z.min (Z.of_nat (length rows)) MAX_ITEMS
  ∧ length (inventory (load_equipment_from_db s (Some rows)))
    = length (inventory s).
Proof.
  unfold load_equipment_from_db.
  set (count := if Z.of_nat (length rows) >? MAX_ITEMS
                then MAX_ITEMS else Z.of_nat (length rows)).
  assert (Hcount : count = Z.min (Z.of_nat (length rows)) MAX_ITEMS).
  { unfold count. destruct (Z.gtb_spec (Z.of_nat (length rows)) MAX_ITEMS); lia. }
  assert (Hlen : ∀ rs i inv table next,
            length (fst (fst (load_equipment_rows rs i inv table next)))
            = length inv).
  { clear. induction rs as [|r rs IH]; intros i inv table next; simpl;
      [reflexivity|]. rewrite IH, length_insert. reflexivity. }
  specialize (Hlen (take (Z.to_nat count) rows) 0%nat (inventory s)
                (hash_table s) (next_item_id s)).
  destruct (load_equipment_rows _ _ _ _ _) as [[inv table] next].
  simpl in *. repeat (split; [reflexivity|]). split; [exact Hcount | exact Hlen].
Qed.

(** X20. A load from the database keeps the store well formed whatever the
    number of rows: the counts are the numbers of rows capped at
    MAX_ITEMS and MAX_REQUESTS, the stored requests are the first
    MAX_REQUESTS rows, and [next_request_id] ends above every loaded
    request id and not below its previous value. *)
Theorem load_data_db_within_bounds (s : Store) (fs : Files)
    (rows : list Equipment.t) (reqs : list SupplyRequest.t) :
  use_database s = true →
  well_formed s →
  Forall (λ row, INT_MIN <= SupplyRequest.req_id row < INT_MAX) reqs →
  well_formed (load_data s fs (Some rows) (Some reqs))
  ∧ item_count (load_data s fs (Some rows) (Some reqs))
    = Z.min (Z.of_nat (length rows)) MAX_ITEMS
  ∧ request_count (load_data s fs (Some rows) (Some reqs))
    = Z.min (Z.of_nat (length reqs)) MAX_REQUESTS
  ∧ stored_requests (load_data s fs (Some rows) (Some reqs))
    = take (Z.to_nat MAX_REQUESTS) reqs
  ∧ Forall (λ id, id < next_request_id
                         (load_data s fs (Some rows) (Some reqs)))
           (stored_request_ids (load_data s fs (Some rows) (Some reqs)))
  ∧ next_request_id s
    <= next_request_id (load_data s fs (Some rows) (Some reqs)).
Proof.
  intros Hdb [Hi Hr Hic Hrc] Hreqs. unfold load_data. rewrite Hdb.
  destruct (load_equipment_from_db_shape s rows)
    as (Hreq1 & Hcnt1 & Hnext1 & Hitems1 & Hlen1).
  set (s1 := load_equipment_from_db s (Some rows)) in *.
  unfold load_requests_from_db.
  set (count := if Z.of_nat (length reqs) >? MAX_REQUESTS
                then MAX_REQUESTS else Z.of_nat (length reqs)).
  assert (Hcount : count = Z.min (Z.of_nat (length reqs)) MAX_REQUESTS).
  { unfold count.
    destruct (Z.gtb_spec (Z.of_nat (length reqs)) MAX_REQUESTS); lia. }
  assert (Htake : take (Z.to_nat count) reqs
                  = take (Z.to_nat MAX_REQUESTS) reqs).
  { unfold count.
    destruct (Z.gtb_spec (Z.of_nat (length reqs)) MAX_REQUESTS);
      [reflexivity|]. rewrite !take_ge by lia. reflexivity. }
  assert (Hlen : length (take (Z.to_nat count) reqs) = Z.to_nat count).
  { apply length_take_le. lia. }
  pose proof (load_request_rows_requests (take (Z.to_nat count) reqs) 0
                (requests s1) (next_request_id s1)) as Hrows.
  pose proof (load_request_rows_counter (take (Z.to_nat count) reqs) 0%nat
                (requests s1) (next_request_id s1)
                (Forall_take _ _ _ Hreqs)) as [Hle Hall].
  destruct (load_request_rows (take (Z.to_nat count) reqs) 0
              (requests s1) (next_request_id s1)) as [reqs' next'].
  cbn [fst snd] in *. rewrite Hlen, Hreq1, Hr in Hrows.
  assert (Hfit : (0 + Z.to_nat count <= Z.to_nat MAX_REQUESTS)%nat) by lia.
  specialize (Hrows Hfit). rewrite take_0, Nat.add_0_l, app_nil_l in Hrows.
  assert (Hstored : take (Z.to_nat count) reqs' = take (Z.to_nat count) reqs).
  { rewrite Hrows. apply take_app_length'. exact (eq_sym Hlen). }
  split; [|split; [exact Hitems1|split; [exact Hcount|]]].
  - split; cbn [inventory requests item_count request_count].
    + rewrite Hlen1. exact Hi.
    + rewrite Hrows, length_app, Hlen, length_drop, Hr.
      unfold MAX_REQUESTS in *. lia.
    + rewrite Hitems1. unfold MAX_ITEMS. lia.
    + unfold MAX_REQUESTS in *. lia.
  - unfold stored_request_ids, stored_requests.
    cbn [requests request_count next_request_id].
    rewrite Hstored, <- Htake.
    split; [reflexivity|]. split; [|rewrite <- Hnext1; exact Hle].
    rewrite Forall_fmap. exact Hall.
Qed.

Lemma load_data_db_within_bounds_witness :
  request_count
    (load_data (init_store true) (mkFiles None None)
       (Some [Equipment.mk 5 "Radio" "" 10 5 "ea" "A" 100 0 "0621"])
       (Some [SupplyRequest.mk 4 5 1 "HQ" 100 REQ_APPROVED 2]))
  = 1.
Proof.
  destruct (load_data_db_within_bounds (init_store true) (mkFiles None None)
              [Equipment.mk 5 "Radio" "" 10 5 "ea" "A" 100 0 "0621"]
              [SupplyRequest.mk 4 5 1 "HQ" 100 REQ_APPROVED 2])
    as (_ & _ & Hcount & _);
    [reflexivity | apply well_formed_init
    | repeat constructor; simpl; vm_compute; discriminate |].
  rewrite Hcount. reflexivity.
Defined.
